(** * AutoVideoEditor: the segment composer and the pipeline executor

    A shallow embedding of [video_replacer.py] and [upsell_video_replacer.py],
    with the path clean-up and the folder scan they share with
    [audio_replacer.py].

    Conventions of the embedding.
    - Python floats (durations, the target length) are idealised as exact
      rationals [Q]; rounding, infinities and NaN are outside the model.
    - A Python string is a [string] whose characters are code points below
      256; [str.strip] removes the white space among them.
    - Everything the scripts do to the outside world goes through a small
      state-and-exception monad [M].  The state holds the set of files that
      exist and the ordered trace of side effects (probes, ffmpeg
      invocations, text-file writes, removals, console lines).
    - The transcoding engine and the host are a record of oracles [World]:
      what [ffprobe] prints for a path, whether an [ffmpeg] command exits
      with status zero, what Python's [float] accepts, whether the host lets
      a directory be made, and so on.  The oracles answer for a path or a
      command alone, not for the files that exist: a theorem that needs a
      file to be in place says so.
    - The [while] loop of [process_replacement_video] is run with fuel; the
      theorems show which amount of fuel is always enough. *)

From Stdlib Require Import Ascii String QArith Qround Lqa ZArith Lia.
From stdpp Require Import gmap strings list pretty sorting.

#[local] Set Warnings "-clear-no-such-hyp".

Local Open Scope string_scope.
Local Open Scope list_scope.
Local Open Scope nat_scope.

(** ** Python helpers *)

(** [str.isspace] on one character, the test behind [str.strip()]: the
    white space among the code points below 256 is U+0009 to U+000D, U+001C
    to U+0020, U+0085 and U+00A0. *)
Definition is_space (c : ascii) : bool :=
  let n := nat_of_ascii c in
  ((9 <=? n) && (n <=? 13)) || ((28 <=? n) && (n <=? 32))
  || (n =? 133) || (n =? 160).

Fixpoint lstrip (s : string) : string :=
  match s with
  | String c r => if is_space c then lstrip r else s
  | EmptyString => EmptyString
  end.

Fixpoint rstrip (s : string) : string :=
  match s with
  | String c r =>
      match rstrip r with
      | EmptyString => if is_space c then EmptyString else String c EmptyString
      | r' => String c r'
      end
  | EmptyString => EmptyString
  end.

Definition strip (s : string) : string := rstrip (lstrip s).

(** [needle in hay] on strings. *)
Fixpoint startswith (p s : string) : bool :=
  match p, s with
  | EmptyString, _ => true
  | String a p', String b s' => Ascii.eqb a b && startswith p' s'
  | String _ _, EmptyString => false
  end.

Fixpoint str_in (needle hay : string) : bool :=
  startswith needle hay ||
  match hay with
  | String _ r => str_in needle r
  | EmptyString => false
  end.

Fixpoint endswith_sep (s : string) : bool :=
  match s with
  | EmptyString => false
  | String c EmptyString => Ascii.eqb c "/"
  | String _ r => endswith_sep r
  end.

(** [os.path.join(a, b)] of [posixpath], for two components. *)
Definition os_path_join (a b : string) : string :=
  if startswith "/" b then b
  else if bool_decide (a = "") || endswith_sep a then a +:+ b
  else a +:+ "/" +:+ b.

(** [str(n)] for a non-negative [int]. *)
Definition str (n : nat) : string := pretty n.

(** [min(a, b)]: the first argument unless the second is strictly smaller. *)
Definition py_min (a b : Q) : Q := if Qle_bool a b then a else b.

(** [int(x)] on a float: truncation towards zero. *)
Definition py_int (x : Q) : Z :=
  if Qle_bool 0 x then Qfloor x else Qceiling x.

(** A concrete [float] for the examples: the unsigned plain decimals that
    [ffprobe] prints ([12], [12.5], [.5], [3.]); everything else is
    rejected. *)
Definition digit_of (c : ascii) : option Z :=
  let n := nat_of_ascii c in
  if (48 <=? n) && (n <=? 57) then Some (Z.of_nat (n - 48)) else None.

Fixpoint scan_digits (s : string) (acc : Z) (k : nat) : Z * nat * string :=
  match s with
  | String c r =>
      match digit_of c with
      | Some d => scan_digits r (10 * acc + d)%Z (S k)
      | None => (acc, k, s)
      end
  | EmptyString => (acc, k, EmptyString)
  end.

Definition decimal_float (s : string) : option Q :=
  let '(ip, ki, r1) := scan_digits s 0%Z 0 in
  match r1 with
  | EmptyString => if ki =? 0 then None else Some (inject_Z ip)
  | String c r2 =>
      if Ascii.eqb c "."
      then
        let '(fp, kf, r3) := scan_digits r2 0%Z 0 in
        match r3 with
        | EmptyString =>
            if ki + kf =? 0 then None
            else Some (Qred (Qmake (ip * 10 ^ Z.of_nat kf + fp)
                                   (Z.to_pos (10 ^ Z.of_nat kf))))
        | String _ _ => None
        end
      else None
  end.

(** ** Commands of the external engine *)

(** The encoder name and its quality arguments, as [detect_encoder]
    returns them. *)
Definition Profile : Type := string * string.

(** The shapes of [ffmpeg] command lines the scripts build.
    - [ExtractAudio src out]:    [-i src -vn -c:a aac out]
    - [MuteEncode p src t out]:  [-i src [-t t] -an -c:v enc quality out]
    - [SeekMute p src ss out]:   [-i src -ss ss -an -c:v enc quality out]
    - [ConcatEncode p m an out]: [-f concat -safe 0 -i m [-an] -c:v enc quality out]
    - [ConcatScale p m out]:     the same with the 720x1280 scale-and-pad filter
    - [Mux v a out]:             [-i v -i a -c:v copy -c:a aac -shortest out] *)
Inductive Cmd : Type :=
| ExtractAudio (src out : string)
| MuteEncode (p : Profile) (src : string) (t : option Q) (out : string)
| SeekMute (p : Profile) (src : string) (ss : Q) (out : string)
| ConcatEncode (p : Profile) (manifest : string) (an : bool) (out : string)
| ConcatScale (p : Profile) (manifest out : string)
| Mux (video audio out : string).

Definition cmd_out (c : Cmd) : string :=
  match c with
  | ExtractAudio _ out | MuteEncode _ _ _ out | SeekMute _ _ _ out
  | ConcatEncode _ _ _ out | ConcatScale _ _ out | Mux _ _ out => out
  end.

(** What [subprocess.run(..., capture_output=True, text=True)] returns. *)
Record CompletedProcess : Type :=
  { returncode : Z; stdout : string }.

(** ** Exceptions, console lines, effects *)

Inductive Exn : Type :=
| CalledProcessError (c : Cmd)
| ValueError
| ZeroDivisionError
| IndexError
| OSError
| FileNotFoundError (p : string)
| SystemExit (code : Z).

(** The console lines the model keeps (purely informative progress lines
    are left out). *)
Inductive Msg : Type :=
| MsgProcessing (n total : nat) (file : string)
| MsgUsedAll (current_duration : Q)
| MsgComposite (current_duration : Q)
| MsgCreated (n : nat) (duration : Q)
| MsgComplete (count : nat)
| MsgSample (duration : Q)
| MsgDone
| MsgFatal (what : string)
| MsgError (e : Exn).

Inductive Event : Type :=
| EProbe (p : string)
| ERun (c : Cmd)
| EWrite (p : string) (lines : list string)
| EAppend (p : string) (line : string)
| ERemove (p : string)
| EMakedirs (p : string)
| EPrint (m : Msg).

Record St : Type :=
  { fs : gset string; trace : list Event }.

Inductive Res (A : Type) : Type :=
| Ok (a : A)
| Raise (e : Exn)
| OutOfFuel.
Arguments Ok {A} a.
Arguments Raise {A} e.
Arguments OutOfFuel {A}.

Definition M (A : Type) : Type := St -> Res A * St.

Definition ret {A} (a : A) : M A := fun s => (Ok a, s).

Definition bind {A B} (m : M A) (k : A -> M B) : M B :=
  fun s =>
    match m s with
    | (Ok a, s') => k a s'
    | (Raise e, s') => (Raise e, s')
    | (OutOfFuel, s') => (OutOfFuel, s')
    end.

Definition raise {A} (e : Exn) : M A := fun s => (Raise e, s).

Definition out_of_fuel {A} : M A := fun s => (OutOfFuel, s).

Definition lift {A} (r : Res A) : M A := fun s => (r, s).

Declare Scope py_scope.
Delimit Scope py_scope with py.
Notation "x <- c1 ;; c2" := (bind c1 (fun x => c2))
  (at level 20, c1 at level 99, c2 at level 200, only parsing) : py_scope.
Notation "' pat <- c1 ;; c2" := (bind c1 (fun x => match x with pat => c2 end))
  (at level 20, pat pattern, c1 at level 99, c2 at level 200, only parsing) : py_scope.
Notation "c1 ;; c2" := (bind c1 (fun _ => c2))
  (at level 100, c2 at level 200, right associativity, only parsing) : py_scope.
Local Open Scope py_scope.

Definition emit (e : Event) : M unit :=
  fun s => (Ok tt, {| fs := fs s; trace := trace s ++ [e] |}).

Definition print (m : Msg) : M unit := emit (EPrint m).

(** [for x in l: f x] *)
Fixpoint for_each {A} (l : list A) (f : A -> M unit) : M unit :=
  match l with
  | [] => ret tt
  | x :: r => f x ;; for_each r f
  end.

(** [enumerate(l)] *)
Definition enumerate {A} (l : list A) : list (nat * A) :=
  zip (seq 0 (length l)) l.

(** [print_error(...); sys.exit(1)] *)
Definition fatal {A} (what : string) : M A :=
  print (MsgFatal what) ;; raise (SystemExit 1).

(** [a % b] on non-negative [int]s. *)
Definition py_mod (a b : nat) : Res nat :=
  if b =? 0 then Raise ZeroDivisionError else Ok (a mod b).

(** [l[i]] for a non-negative index. *)
Definition py_index {A} (l : list A) (i : nat) : Res A :=
  match l !! i with
  | Some x => Ok x
  | None => Raise IndexError
  end.

(** [a / b] on floats. *)
Definition py_div (a b : Q) : Res Q :=
  if Qeq_bool b 0 then Raise ZeroDivisionError else Ok (a / b)%Q.

(** ** The world outside the scripts *)

Record World : Type :=
  { (** Python's [float(s)]; [None] stands for [ValueError]. *)
    py_float : string -> option Q;
    (** [ffprobe] on a path; [None] when the process cannot be started. *)
    ffprobe : string -> option CompletedProcess;
    (** whether an [ffmpeg] transform exits with status zero *)
    ffmpeg_ok : Cmd -> bool;
    (** [ffmpeg -version] started and exited with status zero *)
    ffmpeg_version_ok : bool;
    (** [ffmpeg -hide_banner -encoders]; [None] when the call raises *)
    ffmpeg_encoders : option CompletedProcess;
    (** [os.path.isfile], [os.path.isdir] on the paths the user typed *)
    isfile : string -> bool;
    isdir : string -> bool;
    (** whether the host lets [os.makedirs] make a directory at a path where
        no file is in the way (permissions, the parents of the path) *)
    makedirs_ok : string -> bool;
    (** [os.path.dirname], [os.path.basename] *)
    os_path_dirname : string -> string;
    os_path_basename : string -> string;
    (** the sorted result of the folder scan, [find_video_files] *)
    find_video_files : string -> list string }.

Section Common.

Context (W : World).

(** *** File-system and process primitives *)

Definition os_path_exists (p : string) : M bool :=
  fun s => (Ok (bool_decide (p ∈ fs s)), s).

Definition os_remove (p : string) : M unit :=
  fun s =>
    if bool_decide (p ∈ fs s)
    then (Ok tt, {| fs := fs s ∖ {[p]}; trace := trace s ++ [ERemove p] |})
    else (Raise (FileNotFoundError p), s).

(** [os.makedirs(p, exist_ok=True)].  The call raises [FileNotFoundError]
    for the empty path and [FileExistsError] when a file of that name is in
    the way; whether the host lets the directory be made otherwise is the
    oracle [makedirs_ok].  [OSError] stands for its subclasses
    ([FileExistsError], [PermissionError], [NotADirectoryError]).  The event
    records that the directory is in place. *)
Definition os_makedirs (p : string) : M unit :=
  fun s =>
    if bool_decide (p = "") then (Raise (FileNotFoundError p), s)
    else if bool_decide (p ∈ fs s) || negb (makedirs_ok W p)
    then (Raise OSError, s)
    else (Ok tt, {| fs := fs s; trace := trace s ++ [EMakedirs p] |}).

(** [with open(p, 'w') as f: for l in lines: f.write(l + newline)] *)
Definition write_lines (p : string) (lines : list string) : M unit :=
  fun s => (Ok tt, {| fs := {[p]} ∪ fs s; trace := trace s ++ [EWrite p lines] |}).

(** [with open(p, 'a') as f: f.write(line + newline)] *)
Definition append_line (p : string) (line : string) : M unit :=
  fun s => (Ok tt, {| fs := {[p]} ∪ fs s; trace := trace s ++ [EAppend p line] |}).

(** [if os.path.exists(p): os.remove(p)] *)
Definition remove_if_exists (p : string) : M unit :=
  e <- os_path_exists p ;;
  if e then os_remove p else ret tt.

(** [subprocess.run([ffmpeg ...], check=True)]: a zero exit leaves the
    output file in place, a non-zero exit raises. *)
Definition run_ffmpeg (c : Cmd) : M unit :=
  fun s =>
    let t := trace s ++ [ERun c] in
    if ffmpeg_ok W c
    then (Ok tt, {| fs := {[cmd_out c]} ∪ fs s; trace := t |})
    else (Raise (CalledProcessError c), {| fs := fs s; trace := t |}).

(** One line of a concat manifest (without its newline). *)
Definition manifest_line (p : string) : string := "file '" +:+ p +:+ "'".

(** *** [get_video_duration] *)

(** [float(result.stdout.strip())] *)
Definition parse_duration (result : CompletedProcess) : Res Q :=
  match py_float W (strip (stdout result)) with
  | Some d => Ok d
  | None => Raise ValueError
  end.

Definition get_video_duration (video_path : string) : M Q :=
  emit (EProbe video_path) ;;
  match ffprobe W video_path with
  | None => raise OSError
  | Some result => lift (parse_duration result)
  end.

(** *** [check_ffmpeg] and [detect_encoder] *)

Definition check_ffmpeg : bool := ffmpeg_version_ok W.

Definition hardware_profile : Profile :=
  ("h264_videotoolbox", "-b:v 10M -realtime 1 -prio_speed 1").
Definition software_profile : Profile :=
  ("libx264", "-crf 23 -preset fast").

Definition detect_encoder : Profile :=
  match ffmpeg_encoders W with
  | Some result =>
      if str_in "h264_videotoolbox" (stdout result)
      then hardware_profile
      else software_profile
  | None => software_profile
  end.

End Common.

(** ** [video_replacer.py] *)

Module VideoReplacer.

(** *** [process_replacement_video] *)

(** The variables of the [while] loop. *)
Record Loop : Type :=
  { current_duration : Q; remaining_needed : Q; filler_index : nat }.

(** Lines 127-129: the cyclic index of the next filler, moved one further
    when it lands on the current video. *)
Definition filler_video_index (current_index fi len : nat) : Res nat :=
  match py_mod (current_index + 1 + fi) len with
  | Ok i => if i =? current_index then py_mod (i + 1) len else Ok i
  | Raise e => Raise e
  | OutOfFuel => OutOfFuel
  end.

Section Replacement.

Context (W : World).
Context (target_length : Q) (enc : Profile) (work_dir : string)
        (output_number : nat) (video_files : list string) (current_index : nat).

Definition processed_path : string :=
  os_path_join work_dir ("temp_processed_" +:+ str output_number +:+ ".mp4").
Definition segments_path : string :=
  os_path_join work_dir ("temp_segments_" +:+ str output_number +:+ ".txt").
Definition original_path : string :=
  os_path_join work_dir ("temp_original_" +:+ str output_number +:+ ".mp4").
Definition filler_path (j : nat) : string :=
  os_path_join work_dir
    ("temp_filler_" +:+ str output_number +:+ "_" +:+ str j +:+ ".mp4").

(** [remaining_needed > 0 and filler_index <= len(video_files)] *)
Definition loop_cond (ls : Loop) : bool :=
  negb (Qle_bool (remaining_needed ls) 0)
  && (filler_index ls <=? length video_files).

(** One pass through the body of the [while] loop; the boolean tells
    whether the pass ended in [break]. *)
Definition add_filler (ls : Loop) : M (Loop * bool) :=
  i <- lift (filler_video_index current_index (filler_index ls)
               (length video_files)) ;;
  filler_video <- lift (py_index video_files i) ;;
  filler_duration <- get_video_duration W filler_video ;;
  let use_duration := py_min filler_duration (remaining_needed ls) in
  let filler_segment := filler_path (filler_index ls) in
  (if Qeq_bool use_duration filler_duration
   then run_ffmpeg W (MuteEncode enc filler_video None filler_segment)
   else run_ffmpeg W
          (MuteEncode enc filler_video (Some use_duration) filler_segment)) ;;
  append_line segments_path (manifest_line filler_segment) ;;
  let ls' :=
    {| current_duration := (current_duration ls + use_duration)%Q;
       remaining_needed := (remaining_needed ls - use_duration)%Q;
       filler_index := filler_index ls + 1 |} in
  if length video_files <? filler_index ls'
  then print (MsgUsedAll (current_duration ls')) ;; ret (ls', true)
  else ret (ls', false).

Fixpoint fill (fuel : nat) (ls : Loop) : M Loop :=
  match fuel with
  | O => out_of_fuel
  | S fuel' =>
      if loop_cond ls
      then
        r <- add_filler ls ;;
        if snd r then ret (fst r) else fill fuel' (fst r)
      else ret ls
  end.

(** Lines 170-186: join the segments, then remove them and the manifest. *)
Definition finish_composite (ls : Loop) : M string :=
  let processed_file := processed_path in
  let segment_list := segments_path in
  let original_segment := original_path in
  run_ffmpeg W (ConcatEncode enc segment_list false processed_file) ;;
  os_remove original_segment ;;
  for_each (seq 0 (filler_index ls))
    (fun j => remove_if_exists (filler_path j)) ;;
  os_remove segment_list ;;
  print (MsgComposite (current_duration ls)) ;;
  ret processed_file.

Definition process_replacement_video (fuel : nat) (video_file : string)
  : M string :=
  duration <- get_video_duration W video_file ;;
  let processed_file := processed_path in
  if Qle_bool target_length duration
  then
    run_ffmpeg W (MuteEncode enc video_file (Some target_length) processed_file) ;;
    ret processed_file
  else
    let segment_list := segments_path in
    let original_segment := original_path in
    run_ffmpeg W (MuteEncode enc video_file None original_segment) ;;
    write_lines segment_list [manifest_line original_segment] ;;
    ls <- fill fuel {| current_duration := duration;
                       remaining_needed := (target_length - duration)%Q;
                       filler_index := 0 |} ;;
    finish_composite ls.

End Replacement.

(** *** [main] and the script's entry point *)

(** What the user types at the three prompts (after [clean_path]). *)
Record Answers : Type :=
  { ans_main_video : string; ans_video_folder : string; ans_target : string }.

Section Script.

Context (W : World) (fuel : nat).

Definition main_audio_path (work_dir : string) (i : nat) : string :=
  os_path_join work_dir ("main_audio_" +:+ str i +:+ ".aac").
Definition main_segment_path (work_dir : string) (n : nat) : string :=
  os_path_join work_dir ("temp_main_segment_" +:+ str n +:+ ".mp4").
Definition list_path (work_dir : string) (n : nat) : string :=
  os_path_join work_dir ("temp_list_" +:+ str n +:+ ".txt").
Definition combined_path (work_dir : string) (n : nat) : string :=
  os_path_join work_dir ("temp_combined_" +:+ str n +:+ ".mp4").
Definition output_path (work_dir folder_name : string) (n : nat) : string :=
  os_path_join work_dir (folder_name +:+ "_" +:+ str n +:+ ".mp4").

(** The body of the [for] loop of [main], lines 260-321. *)
Definition process_video (main_video : string) (target_length : Q)
    (enc : Profile) (work_dir folder_name : string)
    (video_files : list string) (i : nat) (video_file : string) : M unit :=
  let output_number := i + 1 in
  print (MsgProcessing output_number (length video_files) video_file) ;;
  let main_audio := main_audio_path work_dir i in
  run_ffmpeg W (ExtractAudio main_video main_audio) ;;
  processed_file <-
    process_replacement_video W target_length enc work_dir output_number
      video_files i fuel video_file ;;
  let main_segment := main_segment_path work_dir output_number in
  run_ffmpeg W (SeekMute enc main_video target_length main_segment) ;;
  let output_file := output_path work_dir folder_name output_number in
  let concat_list := list_path work_dir output_number in
  write_lines concat_list
    [manifest_line processed_file; manifest_line main_segment] ;;
  let combined_video := combined_path work_dir output_number in
  run_ffmpeg W (ConcatScale enc concat_list combined_video) ;;
  run_ffmpeg W (Mux combined_video main_audio output_file) ;;
  for_each
    [processed_file; main_segment; concat_list; main_audio; combined_video]
    remove_if_exists ;;
  output_duration <- get_video_duration W output_file ;;
  print (MsgCreated output_number output_duration).

Definition main (a : Answers) : M unit :=
  if negb (check_ffmpeg W) then fatal "ffmpeg not found" else
  let enc := detect_encoder W in
  let main_video := ans_main_video a in
  if negb (isfile W main_video) then fatal "File not found" else
  let video_folder := ans_video_folder a in
  if negb (isdir W video_folder) then fatal "Directory not found" else
  target_length <-
    match py_float W (strip (ans_target a)) with
    | Some t => ret t
    | None => raise ValueError
    end ;;
  let main_video_dir := os_path_dirname W main_video in
  let folder_name := os_path_basename W main_video_dir in
  let work_dir := os_path_join main_video_dir folder_name in
  os_makedirs W work_dir ;;
  let video_files := find_video_files W video_folder in
  if bool_decide (video_files = []) then fatal "No video files found" else
  for_each (enumerate video_files)
    (fun iv =>
       process_video main_video target_length enc work_dir folder_name
         video_files (fst iv) (snd iv)) ;;
  print (MsgComplete (length video_files)) ;;
  let sample_output := output_path work_dir folder_name 1 in
  e <- os_path_exists sample_output ;;
  (if e
   then d <- get_video_duration W sample_output ;; print (MsgSample d)
   else ret tt) ;;
  print MsgDone.

(** The [if __name__ == '__main__'] block: the exit status of the process.
    [SystemExit] is not an [Exception] and passes through the handler. *)
Definition script (a : Answers) : M Z :=
  fun s =>
    match main a s with
    | (Ok _, s') => (Ok 0%Z, s')
    | (Raise (SystemExit code), s') => (Ok code, s')
    | (Raise e, s') => (print (MsgError e) ;; ret 1%Z) s'
    | (OutOfFuel, s') => (OutOfFuel, s')
    end.

End Script.

End VideoReplacer.

(** ** [upsell_video_replacer.py] *)

Module UpsellReplacer.

Record Answers : Type :=
  { ans_upsell_video : string; ans_video_folder : string;
    ans_start_time : string }.

(** [s.rstrip('/')] *)
Fixpoint rstrip_sep (s : string) : string :=
  match s with
  | String c r =>
      match rstrip_sep r with
      | EmptyString =>
          if Ascii.eqb c "/" then EmptyString else String c EmptyString
      | r' => String c r'
      end
  | EmptyString => EmptyString
  end.

Section Script.

Context (W : World).

Definition original_audio_path (work_dir : string) (i : nat) : string :=
  os_path_join work_dir ("original_audio_" +:+ str i +:+ ".aac").
Definition original_beginning_path (work_dir : string) (n : nat) : string :=
  os_path_join work_dir ("temp_original_beginning_" +:+ str n +:+ ".mp4").
Definition upsell_path (work_dir : string) (n : nat) : string :=
  os_path_join work_dir ("temp_upsell_" +:+ str n +:+ ".mp4").
Definition concat_path (work_dir : string) (n : nat) : string :=
  os_path_join work_dir ("temp_concat_" +:+ str n +:+ ".txt").
Definition combined_path (work_dir : string) (n : nat) : string :=
  os_path_join work_dir ("temp_combined_" +:+ str n +:+ ".mp4").
Definition output_path (work_dir folder_name : string) (n : nat) : string :=
  os_path_join work_dir (folder_name +:+ "_" +:+ str n +:+ ".mp4").
Definition loop_path (work_dir : string) (n : nat) : string :=
  os_path_join work_dir ("temp_loop_" +:+ str n +:+ ".txt").
Definition looped_path (work_dir : string) (n : nat) : string :=
  os_path_join work_dir ("temp_looped_" +:+ str n +:+ ".mp4").

(** Step 3 of the loop body, lines 192-230: the muted upsell section of
    length [upsell_needed], looped first when the clip is too short. *)
Definition prepare_upsell (upsell_video : string) (upsell_duration : Q)
    (enc : Profile) (work_dir : string) (output_number : nat)
    (upsell_needed : Q) : M unit :=
  let upsell_section := upsell_path work_dir output_number in
  if negb (Qle_bool upsell_needed upsell_duration)
  then
    ratio <- lift (py_div upsell_needed upsell_duration) ;;
    let loops_needed := (py_int ratio + 1)%Z in
    let loop_list := loop_path work_dir output_number in
    write_lines loop_list
      (repeat (manifest_line upsell_video) (Z.to_nat (loops_needed + 1))) ;;
    let looped_full := looped_path work_dir output_number in
    run_ffmpeg W (ConcatEncode enc loop_list true looped_full) ;;
    run_ffmpeg W
      (MuteEncode enc looped_full (Some upsell_needed) upsell_section) ;;
    os_remove loop_list ;;
    os_remove looped_full
  else
    run_ffmpeg W
      (MuteEncode enc upsell_video (Some upsell_needed) upsell_section).

(** The body of the [for] loop of [main], lines 158-261. *)
Definition process_video (upsell_video : string) (upsell_duration : Q)
    (start_time : Q) (enc : Profile) (work_dir folder_name : string)
    (video_files : list string) (i : nat) (video_file : string) : M unit :=
  let output_number := i + 1 in
  print (MsgProcessing output_number (length video_files) video_file) ;;
  original_duration <- get_video_duration W video_file ;;
  let upsell_needed := (original_duration - start_time)%Q in
  let original_audio := original_audio_path work_dir i in
  let original_beginning := original_beginning_path work_dir output_number in
  let upsell_section := upsell_path work_dir output_number in
  let concat_list := concat_path work_dir output_number in
  let combined_video := combined_path work_dir output_number in
  let output_file := output_path work_dir folder_name output_number in
  run_ffmpeg W (ExtractAudio video_file original_audio) ;;
  run_ffmpeg W
    (MuteEncode enc video_file (Some start_time) original_beginning) ;;
  prepare_upsell upsell_video upsell_duration enc work_dir output_number
    upsell_needed ;;
  write_lines concat_list
    [manifest_line original_beginning; manifest_line upsell_section] ;;
  run_ffmpeg W (ConcatScale enc concat_list combined_video) ;;
  run_ffmpeg W (Mux combined_video original_audio output_file) ;;
  for_each
    [original_audio; original_beginning; upsell_section; concat_list;
     combined_video]
    remove_if_exists ;;
  output_duration <- get_video_duration W output_file ;;
  print (MsgCreated output_number output_duration).

Definition main (a : Answers) : M unit :=
  if negb (check_ffmpeg W) then fatal "ffmpeg not found" else
  let enc := detect_encoder W in
  let upsell_video := ans_upsell_video a in
  if negb (isfile W upsell_video) then fatal "File not found" else
  upsell_duration <- get_video_duration W upsell_video ;;
  let video_folder := ans_video_folder a in
  if negb (isdir W video_folder) then fatal "Directory not found" else
  start_time <-
    match py_float W (strip (ans_start_time a)) with
    | Some t => ret t
    | None => raise ValueError
    end ;;
  let folder_name := os_path_basename W (rstrip_sep video_folder) in
  let work_dir := os_path_join video_folder (folder_name +:+ "_Upsell") in
  os_makedirs W work_dir ;;
  let video_files := find_video_files W video_folder in
  if bool_decide (video_files = []) then fatal "No video files found" else
  for_each (enumerate video_files)
    (fun iv =>
       process_video upsell_video upsell_duration start_time enc work_dir
         folder_name video_files (fst iv) (snd iv)) ;;
  print (MsgComplete (length video_files)) ;;
  let sample_output := output_path work_dir folder_name 1 in
  e <- os_path_exists sample_output ;;
  (if e
   then d <- get_video_duration W sample_output ;; print (MsgSample d)
   else ret tt) ;;
  print MsgDone.

Definition script (a : Answers) : M Z :=
  fun s =>
    match main a s with
    | (Ok _, s') => (Ok 0%Z, s')
    | (Raise (SystemExit code), s') => (Ok code, s')
    | (Raise e, s') => (print (MsgError e) ;; ret 1%Z) s'
    | (OutOfFuel, s') => (OutOfFuel, s')
    end.

End Script.

End UpsellReplacer.

(** * Properties *)

(** ** Reading a run: new events, plan steps, coverage *)

(** The events a computation added when it took [s] to [s']. *)
Definition new_events (s s' : St) : list Event :=
  drop (length (trace s)) (trace s').

(** One step of a segment plan, as the composer realises it: a muted
    re-encode of [sourceClip], cut to [trimSeconds] when present, written
    to [artifact]. *)
Record PlanStep : Type :=
  { sourceClip : string; trimSeconds : option Q; artifact : string }.

Definition step_of (e : Event) : option PlanStep :=
  match e with
  | ERun (MuteEncode _ src t out) =>
      Some {| sourceClip := src; trimSeconds := t; artifact := out |}
  | _ => None
  end.

Definition plan_steps (d : list Event) : list PlanStep := omap step_of d.

(** The value [get_video_duration] returns for a path. *)
Definition clip_duration (W : World) (p : string) : Res Q :=
  match ffprobe W p with
  | None => Raise OSError
  | Some result => parse_duration W result
  end.

(** [trimSeconds] where present, else the full duration of the clip. *)
Definition effective_duration (W : World) (st : PlanStep) : Q :=
  match trimSeconds st with
  | Some t => t
  | None => match clip_duration W (sourceClip st) with Ok d => d | _ => 0%Q end
  end.

Definition total_duration (W : World) (plan : list PlanStep) : Q :=
  foldr (fun st acc => (effective_duration W st + acc)%Q) 0%Q plan.


(** The composer reports partial coverage by its "used all available
    videos" warning. *)
Definition is_used_all (e : Event) : bool :=
  match e with EPrint (MsgUsedAll _) => true | _ => false end.

Definition partial_coverage (d : list Event) : bool := existsb is_used_all d.

(** The paths written by a list of events. *)
Definition written_by (e : Event) : option string :=
  match e with
  | ERun c => Some (cmd_out c)
  | EWrite p _ | EAppend p _ => Some p
  | _ => None
  end.

Definition created (d : list Event) : list string := omap written_by d.

(** ** Parts of the scripts, named for the proofs *)

(** [needle] occurs in [hay]. *)
Definition occurs (needle hay : string) : Prop :=
  exists a b, hay = a +:+ needle +:+ b.

Definition is_removal (e : Event) : Prop := exists p, e = ERemove p.

(** What [finish_composite] adds after the join command. *)
Definition tidy_event (e : Event) : Prop :=
  is_removal e \/ exists q, e = EPrint (MsgComposite q).

(** The loop variables the composer starts from. *)
Definition start_loop (target_length duration : Q) : VideoReplacer.Loop :=
  {| VideoReplacer.current_duration := duration;
     VideoReplacer.remaining_needed := (target_length - duration)%Q;
     VideoReplacer.filler_index := 0 |}.

(** The composer's own scratch files. *)
Definition composer_scratch (work_dir : string) (output_number : nat)
    (p : string) : Prop :=
  p = VideoReplacer.original_path work_dir output_number \/
  p = VideoReplacer.segments_path work_dir output_number \/
  exists j, p = VideoReplacer.filler_path work_dir output_number j.

(** Steps 3 and 4 of the head-replace loop body, the cleanup and the
    report: what follows the composer. *)
Definition after_composer (W : World) (main_video : string)
    (target_length : Q) (enc : Profile) (work_dir folder_name : string)
    (i : nat) (processed_file : string) : M unit :=
  let n := i + 1 in
  let main_audio := VideoReplacer.main_audio_path work_dir i in
  let main_segment := VideoReplacer.main_segment_path work_dir n in
  let output := VideoReplacer.output_path work_dir folder_name n in
  let concat_list := VideoReplacer.list_path work_dir n in
  let combined := VideoReplacer.combined_path work_dir n in
  run_ffmpeg W (SeekMute enc main_video target_length main_segment) ;;
  write_lines concat_list
    [manifest_line processed_file; manifest_line main_segment] ;;
  run_ffmpeg W (ConcatScale enc concat_list combined) ;;
  run_ffmpeg W (Mux combined main_audio output) ;;
  for_each [processed_file; main_segment; concat_list; main_audio; combined]
    remove_if_exists ;;
  output_duration <- get_video_duration W output ;;
  print (MsgCreated n output_duration).

(** The files the cleanup of the head-replace loop body goes through. *)
Definition head_cleanup_list (work_dir : string) (i : nat) : list string :=
  [VideoReplacer.processed_path work_dir (i + 1);
   VideoReplacer.main_segment_path work_dir (i + 1);
   VideoReplacer.list_path work_dir (i + 1);
   VideoReplacer.main_audio_path work_dir i;
   VideoReplacer.combined_path work_dir (i + 1)].

(** The number of lines of the loop manifest: [loops_needed + 1]. *)
Definition loop_copies (upsell_duration upsell_needed : Q) : Z :=
  (py_int (upsell_needed / upsell_duration) + 1 + 1)%Z.

(** The three transforms of [prepare_upsell]. *)
Definition loop_join (enc : Profile) (work_dir : string)
    (output_number : nat) : Cmd :=
  ConcatEncode enc (UpsellReplacer.loop_path work_dir output_number) true
    (UpsellReplacer.looped_path work_dir output_number).
Definition loop_cut (enc : Profile) (work_dir : string)
    (output_number : nat) (upsell_needed : Q) : Cmd :=
  MuteEncode enc (UpsellReplacer.looped_path work_dir output_number)
    (Some upsell_needed) (UpsellReplacer.upsell_path work_dir output_number).
Definition plain_cut (upsell_video : string) (enc : Profile)
    (work_dir : string) (output_number : nat) (upsell_needed : Q) : Cmd :=
  MuteEncode enc upsell_video (Some upsell_needed)
    (UpsellReplacer.upsell_path work_dir output_number).

(** The files the cleanup of the tail-replace loop body goes through. *)
Definition tail_cleanup_list (work_dir : string) (i : nat) : list string :=
  [UpsellReplacer.original_audio_path work_dir i;
   UpsellReplacer.original_beginning_path work_dir (i + 1);
   UpsellReplacer.upsell_path work_dir (i + 1);
   UpsellReplacer.concat_path work_dir (i + 1);
   UpsellReplacer.combined_path work_dir (i + 1)].

(** Steps 4 and 5 of the tail-replace loop body, the cleanup and the
    report. *)
Definition after_upsell (W : World) (enc : Profile)
    (work_dir folder_name : string) (i : nat) : M unit :=
  let n := i + 1 in
  let original_audio := UpsellReplacer.original_audio_path work_dir i in
  let original_beginning :=
    UpsellReplacer.original_beginning_path work_dir n in
  let section := UpsellReplacer.upsell_path work_dir n in
  let concat_list := UpsellReplacer.concat_path work_dir n in
  let combined := UpsellReplacer.combined_path work_dir n in
  let output := UpsellReplacer.output_path work_dir folder_name n in
  write_lines concat_list
    [manifest_line original_beginning; manifest_line section] ;;
  run_ffmpeg W (ConcatScale enc concat_list combined) ;;
  run_ffmpeg W (Mux combined original_audio output) ;;
  for_each
    [original_audio; original_beginning; section; concat_list; combined]
    remove_if_exists ;;
  output_duration <- get_video_duration W output ;;
  print (MsgCreated n output_duration).

(** ** Worlds for the examples *)

Definition newline : string := String (ascii_of_nat 10) EmptyString.

(** A process that exited with [code] after printing [out] and a newline. *)
Definition printed (code : Z) (out : string) : option CompletedProcess :=
  Some {| returncode := code; stdout := out +:+ newline |}.

(** A world with the decimal [float], a working [ffmpeg] binary without
    hardware encoder, the given probe and transform oracles and the given
    folder content. *)
Definition world_of (probe : string -> option CompletedProcess)
    (ok : Cmd -> bool) (files : list string) : World :=
  {| py_float := decimal_float;
     ffprobe := probe;
     ffmpeg_ok := ok;
     ffmpeg_version_ok := true;
     ffmpeg_encoders := printed 0 " V..... libx264  H.264";
     isfile := fun _ => true;
     isdir := fun _ => true;
     makedirs_ok := fun _ => true;
     os_path_dirname := fun _ => "/videos";
     os_path_basename := fun _ => "videos";
     find_video_files := fun _ => files |}.

Definition empty_state : St := {| fs := ∅; trace := [] |}.

(** A probe that exits with status 1 after printing a number. *)
Definition bad_exit_world : World :=
  world_of (fun _ => printed 1 "12.5") (fun _ => true) ["clip.mp4"].

(** ** The claims that fail, as the specification words them *)

(** The probe fails exactly when the engine exits non-zero or prints
    something that is not a number. *)
Definition probe_fails_on_bad_exit_or_output (W : World) (p : string) : Prop :=
  forall result s,
    ffprobe W p = Some result ->
    (exists e, fst (get_video_duration W p s) = Raise e) <->
    (returncode result <> 0%Z \/ py_float W (strip (stdout result)) = None).

(** ** One pass through the filler loop, as a relation *)

(** [s] with more events in its trace. *)
Definition logged (s : St) (d : list Event) : St :=
  {| fs := fs s; trace := trace s ++ d |}.

Section Pass.

Import VideoReplacer.

Context (W : World) (enc : Profile) (work_dir : string) (output_number : nat)
        (video_files : list string) (current_index : nat).

(** The command that builds the filler segment from a clip of duration
    [fd]: the whole clip, or its first [min fd remaining] seconds. *)
Definition filler_cmd (fv : string) (fd : Q) (ls : Loop) : Cmd :=
  let use_duration := py_min fd (remaining_needed ls) in
  MuteEncode enc fv
    (if Qeq_bool use_duration fd then None else Some use_duration)
    (VideoReplacer.filler_path work_dir output_number (filler_index ls)).

(** The loop variables after a filler of duration [fd] was added. *)
Definition next_loop (fd : Q) (ls : Loop) : Loop :=
  let use_duration := py_min fd (remaining_needed ls) in
  {| current_duration := (current_duration ls + use_duration)%Q;
     remaining_needed := (remaining_needed ls - use_duration)%Q;
     filler_index := filler_index ls + 1 |}.

(** The outcomes of one pass: the index arithmetic raises, the probe of
    the selected filler raises, the transform fails, or the filler is added
    (with the warning and a [break] once more fillers than pool entries
    were used). *)
Inductive pass (ls : Loop) (s : St) : Res (Loop * bool) -> St -> Prop :=
| pass_no_index e :
    filler_video_index current_index (filler_index ls) (length video_files)
      = Raise e ->
    pass ls s (Raise e) s
| pass_no_entry i :
    filler_video_index current_index (filler_index ls) (length video_files)
      = Ok i ->
    video_files !! i = None ->
    pass ls s (Raise IndexError) s
| pass_probe_failed i fv e :
    filler_video_index current_index (filler_index ls) (length video_files)
      = Ok i ->
    video_files !! i = Some fv ->
    clip_duration W fv = Raise e ->
    pass ls s (Raise e) (logged s [EProbe fv])
| pass_stage_failed i fv fd :
    filler_video_index current_index (filler_index ls) (length video_files)
      = Ok i ->
    video_files !! i = Some fv ->
    clip_duration W fv = Ok fd ->
    ffmpeg_ok W (filler_cmd fv fd ls) = false ->
    pass ls s (Raise (CalledProcessError (filler_cmd fv fd ls)))
      (logged s [EProbe fv; ERun (filler_cmd fv fd ls)])
| pass_added i fv fd :
    filler_video_index current_index (filler_index ls) (length video_files)
      = Ok i ->
    video_files !! i = Some fv ->
    clip_duration W fv = Ok fd ->
    ffmpeg_ok W (filler_cmd fv fd ls) = true ->
    let segment := VideoReplacer.filler_path work_dir output_number
                     (filler_index ls) in
    let manifest := VideoReplacer.segments_path work_dir output_number in
    let brk := length video_files <? filler_index ls + 1 in
    pass ls s (Ok (next_loop fd ls, brk))
      {| fs := {[manifest]} ∪ ({[segment]} ∪ fs s);
         trace := trace s ++
                  [EProbe fv; ERun (filler_cmd fv fd ls);
                   EAppend manifest (manifest_line segment)] ++
                  (if brk
                   then [EPrint (MsgUsedAll
                                   (current_duration (next_loop fd ls)))]
                   else []) |}.

End Pass.

Section PassEvents.

Import VideoReplacer.

Context (W : World) (enc : Profile) (work_dir : string) (output_number : nat)
        (video_files : list string) (current_index : nat).

(** The events a pass can add to the trace. *)
Inductive pass_event (ls : Loop) : Event -> Prop :=
| pe_probe i fv :
    filler_video_index current_index (filler_index ls) (length video_files)
      = Ok i ->
    video_files !! i = Some fv ->
    pass_event ls (EProbe fv)
| pe_run i fv fd :
    filler_video_index current_index (filler_index ls) (length video_files)
      = Ok i ->
    video_files !! i = Some fv ->
    clip_duration W fv = Ok fd ->
    pass_event ls (ERun (filler_cmd enc work_dir output_number fv fd ls))
| pe_append :
    pass_event ls
      (EAppend (segments_path work_dir output_number)
         (manifest_line
            (filler_path work_dir output_number (filler_index ls))))
| pe_warn d :
    length video_files < filler_index ls + 1 ->
    pass_event ls (EPrint (MsgUsedAll d)).

End PassEvents.

(** A filler step avoids the current video when its source is a pool entry
    at another index. *)
Definition avoids_current (video_files : list string) (current_index : nat)
    (st : PlanStep) : Prop :=
  exists j, j <> current_index /\ video_files !! j = Some (sourceClip st).

(** The steps of a plan after the anchor's own. *)
Definition filler_steps (d : list Event) : list PlanStep := tail (plan_steps d).

(** Events that are neither a plan step nor the coverage warning. *)
Definition quiet (e : Event) : Prop :=
  step_of e = None /\ is_used_all e = false.

(** One clip of ten seconds that is its own pool; every transform
    succeeds. *)
Definition lone_world : World :=
  world_of (fun _ => printed 0 "10") (fun _ => true) ["a.mp4"].

(** No filler step has the excluded clip, the pool entry at the current
    index, as its source. *)
Definition never_reuses_current (W : World) (target_length : Q)
    (enc : Profile) (work_dir : string) (output_number : nat)
    (video_files : list string) (current_index fuel : nat)
    (video_file : string) (s : St) : Prop :=
  Forall (fun st => video_files !! current_index <> Some (sourceClip st))
    (filler_steps
       (new_events s
          (snd (VideoReplacer.process_replacement_video W target_length enc
                  work_dir output_number video_files current_index fuel
                  video_file s)))).

(** The scenario of the specification: an anchor of 10 seconds in a
    folder with clips of 8, 6 and 5 seconds. *)
Definition scenario_files : list string :=
  ["anchor.mp4"; "a.mp4"; "b.mp4"; "c.mp4"].

Definition scenario_probe (p : string) : option CompletedProcess :=
  if bool_decide (p = "anchor.mp4") then printed 0 "10.000000"
  else if bool_decide (p = "a.mp4") then printed 0 "8.000000"
  else if bool_decide (p = "b.mp4") then printed 0 "6.000000"
  else printed 0 "5.000000".

Definition scenario_world : World :=
  world_of scenario_probe (fun _ => true) scenario_files.

(** Two clips of duration zero. *)
Definition empty_clips_world : World :=
  world_of (fun _ => printed 0 "0.000000") (fun _ => true)
    ["a.mp4"; "b.mp4"].

(** The scenario folder with an engine whose seek-and-mute transform
    (step 3 of the head-replace loop body) exits non-zero. *)
Definition failing_seek (c : Cmd) : bool :=
  match c with
  | SeekMute _ _ _ _ => false
  | _ => true
  end.

Definition seek_fails_world : World :=
  world_of scenario_probe failing_seek scenario_files.

(** The answers typed at the prompts of [video_replacer.py]. *)
Definition scenario_answers : VideoReplacer.Answers :=
  {| VideoReplacer.ans_main_video := "/videos/main.mp4";
     VideoReplacer.ans_video_folder := "/clips";
     VideoReplacer.ans_target := "25" |}.


(** The output numbers whose processing was started. *)
Definition started (d : list Event) : list nat :=
  omap (fun e => match e with
                 | EPrint (MsgProcessing n _ _) => Some n
                 | _ => None
                 end) d.

(** The batch goes on after a failed file: every file of the folder is
    started, whatever the engine does. *)
Definition batch_survives_failures (W : World) (fuel : nat)
    (a : VideoReplacer.Answers) (s : St) : Prop :=
  let r := VideoReplacer.script W fuel a s in
  forall n,
    1 <= n <= length (find_video_files W (VideoReplacer.ans_video_folder a)) ->
    n ∈ started (new_events s (snd r)).


(** ** The discipline of transforms in a trace *)

(** An event that is not a failed transform. *)
Definition succeeded (W : World) (e : Event) : Prop :=
  forall c, e = ERun c -> ffmpeg_ok W c = true.

(** A computation is orderly when, from every state, it only adds events
    to the trace and either every transform among them succeeded and the
    outcome is not a [CalledProcessError], or the events end with the first
    transform that failed and the outcome is the [CalledProcessError] of
    that transform. *)
Definition orderly (W : World) {A} (m : M A) : Prop :=
  forall s,
    exists d,
      trace (snd (m s)) = trace s ++ d /\
      ((Forall (succeeded W) d /\
        forall c, fst (m s) <> Raise (CalledProcessError c)) \/
       (exists d' c,
          d = d' ++ [ERun c] /\ Forall (succeeded W) d' /\
          ffmpeg_ok W c = false /\
          fst (m s) = Raise (CalledProcessError c))).

(** Whenever the deficit exceeds the duration of the upsell clip, the loop
    manifest is written with [int(deficit / duration) + 2] references to the
    clip, and that many copies are longer than the deficit. *)
Definition loop_manifest_covers (W : World) (upsell_video : string)
    (upsell_duration : Q) (enc : Profile) (work_dir : string)
    (output_number : nat) (upsell_needed : Q) (s : St) : Prop :=
  (upsell_duration < upsell_needed)%Q ->
  let copies := (py_int (upsell_needed / upsell_duration) + 2)%Z in
  EWrite (UpsellReplacer.loop_path work_dir output_number)
    (repeat (manifest_line upsell_video) (Z.to_nat copies))
  ∈ new_events s
      (snd (UpsellReplacer.prepare_upsell W upsell_video upsell_duration enc
              work_dir output_number upsell_needed s)) /\
  (upsell_needed < inject_Z copies * upsell_duration)%Q.

(** ** [clean_path] *)

(** [s.replace(old, new)] for a non-empty [old]: the occurrences of [old]
    are taken from the left and do not overlap.  [skip] counts the
    characters of the occurrence just replaced that are still to be passed
    over. *)
Fixpoint replace_from (old new : string) (skip : nat) (s : string) : string :=
  match s with
  | EmptyString => EmptyString
  | String c r =>
      match skip with
      | S k => replace_from old new k r
      | O =>
          if startswith old s
          then new +:+ replace_from old new (String.length old - 1) r
          else String c (replace_from old new 0 r)
      end
  end.

Definition str_replace (old new s : string) : string :=
  replace_from old new 0 s.

(** [s.endswith(suffix)] *)
Fixpoint endswith (suffix s : string) : bool :=
  String.eqb suffix s ||
  match s with
  | String _ r => endswith suffix r
  | EmptyString => false
  end.

(** [s[:-1]] and [s[1:-1]] *)
Fixpoint drop_last (s : string) : string :=
  match s with
  | EmptyString => EmptyString
  | String _ EmptyString => EmptyString
  | String c r => String c (drop_last r)
  end.

Definition slice_1_m1 (s : string) : string :=
  match s with
  | EmptyString => EmptyString
  | String _ r => drop_last r
  end.

Definition double_quote : string := String (ascii_of_nat 34) EmptyString.
Definition single_quote : string := "'".

(** A backslash followed by a space, and a space. *)
Definition escaped_space : string := "\ ".
Definition space : string := " ".

(** Lines 32-41 of the three scripts. *)
Definition clean_path (path_str : string) : string :=
  let cleaned := strip (str_replace escaped_space space path_str) in
  let cleaned :=
    if startswith double_quote cleaned && endswith double_quote cleaned
    then slice_1_m1 cleaned else cleaned in
  let cleaned :=
    if startswith single_quote cleaned && endswith single_quote cleaned
    then slice_1_m1 cleaned else cleaned in
  cleaned.

(** What a shell-escaping terminal puts in front of every space of a path
    that is dropped on it. *)
Fixpoint escape_spaces (s : string) : string :=
  match s with
  | EmptyString => EmptyString
  | String c r =>
      if Ascii.eqb c " " then escaped_space +:+ escape_spaces r
      else String c (escape_spaces r)
  end.

(** ** Reading a run: the text files *)

(** The lines of the text file [p] after the events [d], starting from a
    file that is not there: [open(p, 'w')] starts the file anew,
    [open(p, 'a')] adds a line at its end, [os.remove] takes it away. *)
Definition file_event (p : string) (acc : list string) (e : Event)
  : list string :=
  match e with
  | EWrite q lines => if bool_decide (q = p) then lines else acc
  | EAppend q line => if bool_decide (q = p) then acc ++ [line] else acc
  | ERemove q => if bool_decide (q = p) then [] else acc
  | _ => acc
  end.

Definition file_lines (p : string) (d : list Event) : list string :=
  foldl (file_event p) [] d.

(** Every step of a plan but the last one takes its clip whole. *)
Definition whole_but_last (plan : list PlanStep) : Prop :=
  forall k st,
    plan !! k = Some st -> k + 1 < length plan -> trimSeconds st = None.
(** The events that open the short case of the composer (the probe of
    the anchor, its muted copy, the manifest with its first line) and the
    state they lead to. *)
Definition anchor_events (enc : Profile) (work_dir : string)
    (output_number : nat) (video_file : string) : list Event :=
  [EProbe video_file;
   ERun (MuteEncode enc video_file None
           (VideoReplacer.original_path work_dir output_number));
   EWrite (VideoReplacer.segments_path work_dir output_number)
     [manifest_line (VideoReplacer.original_path work_dir output_number)]].

Definition anchor_state (enc : Profile) (work_dir : string)
    (output_number : nat) (video_file : string) (s : St) : St :=
  {| fs := {[VideoReplacer.segments_path work_dir output_number]}
           ∪ ({[VideoReplacer.original_path work_dir output_number]} ∪ fs s);
     trace := trace s ++ anchor_events enc work_dir output_number video_file |}.
(** An event of the filler loop is neither a removal nor a join. *)
Definition loop_event (e : Event) : Prop :=
  (forall p, e <> ERemove p) /\
  (forall p m an out, e <> ERun (ConcatEncode p m an out)).

(** The scenario folder with an engine whose last transform, the one that
    adds the audio track, exits non-zero. *)
Definition failing_mux (c : Cmd) : bool :=
  match c with
  | Mux _ _ _ => false
  | _ => true
  end.

Definition mux_fails_world : World :=
  world_of scenario_probe failing_mux scenario_files.

(** The answers typed at the prompts of [upsell_video_replacer.py]. *)
Definition upsell_answers : UpsellReplacer.Answers :=
  {| UpsellReplacer.ans_upsell_video := "/videos/upsell.mp4";
     UpsellReplacer.ans_video_folder := "/clips";
     UpsellReplacer.ans_start_time := "4" |}.

(** The [if __name__ == '__main__'] block around a [main]. *)
Definition handled (main : M unit) : M Z :=
  fun s =>
    match main s with
    | (Ok _, s') => (Ok 0%Z, s')
    | (Raise (SystemExit code), s') => (Ok code, s')
    | (Raise e, s') => (print (MsgError e) ;; ret 1%Z) s'
    | (OutOfFuel, s') => (OutOfFuel, s')
    end.
(** ** Reading a run: the files announced *)

(** The files a run has announced, each with its number and the size of
    the batch, from the lines [Processing n/total: file]. *)
Definition announced (d : list Event) : list (nat * nat * string) :=
  omap (fun e => match e with
                 | EPrint (MsgProcessing n total file) => Some (n, total, file)
                 | _ => None
                 end) d.

(** What the batch loop is to announce for the folder content [l]. *)
Definition batch_of (l : list string) : list (nat * nat * string) :=
  map (fun iv => (fst iv + 1, length l, snd iv)) (enumerate l).

(** An event other than the line that announces a file. *)
Definition inner (e : Event) : Prop :=
  forall n total file, e <> EPrint (MsgProcessing n total file).

(** A computation keeps track when, from every state, it only adds events
    to the trace, none of which announces a file, every file that is there
    afterwards was there before or was written by one of these events, and
    it leaves the script with no other status than 1. *)
Definition tracks {A} (m : M A) : Prop :=
  forall s,
    exists d,
      trace (snd (m s)) = trace s ++ d /\
      Forall inner d /\
      fs (snd (m s)) ⊆ fs s ∪ list_to_set (created d) /\
      forall code, fst (m s) = Raise (SystemExit code) -> code = 1%Z.

(** The body of a batch loop: it announces its file, then keeps track. *)
Definition loop_body (total : nat) (f : nat * string -> M unit) : Prop :=
  forall iv,
    exists body : M unit,
      tracks body /\
      forall s,
        f iv s = (print (MsgProcessing (fst iv + 1) total (snd iv)) ;; body) s.
(** What both [main]s do after the batch loop: the closing lines and the
    duration of the first output, if it is there. *)
Definition closing (W : World) (count : nat) (sample_output : string)
  : M unit :=
  print (MsgComplete count) ;;
  e <- os_path_exists sample_output ;;
  (if e
   then d <- get_video_duration W sample_output ;; print (MsgSample d)
   else ret tt) ;;
  print MsgDone.

(** The work directory and the folder name [video_replacer.py] derives
    from the path of the main video. *)
Definition head_folder_name (W : World) (a : VideoReplacer.Answers) : string :=
  os_path_basename W (os_path_dirname W (VideoReplacer.ans_main_video a)).

Definition head_work_dir (W : World) (a : VideoReplacer.Answers) : string :=
  os_path_join (os_path_dirname W (VideoReplacer.ans_main_video a))
    (head_folder_name W a).

(** The same for [upsell_video_replacer.py], from the folder of the
    videos. *)
Definition tail_folder_name (W : World) (a : UpsellReplacer.Answers) : string :=
  os_path_basename W
    (UpsellReplacer.rstrip_sep (UpsellReplacer.ans_video_folder a)).

Definition tail_work_dir (W : World) (a : UpsellReplacer.Answers) : string :=
  os_path_join (UpsellReplacer.ans_video_folder a)
    (tail_folder_name W a +:+ "_Upsell").

(** The answers pass the checks of [video_replacer.py]: [ffmpeg] is
    there, the main video is a file, the folder is a directory, the target
    length is a number [target] and the folder holds a video. *)
Definition head_accepted (W : World) (a : VideoReplacer.Answers)
    (target : Q) : Prop :=
  check_ffmpeg W = true /\
  isfile W (VideoReplacer.ans_main_video a) = true /\
  isdir W (VideoReplacer.ans_video_folder a) = true /\
  py_float W (strip (VideoReplacer.ans_target a)) = Some target /\
  find_video_files W (VideoReplacer.ans_video_folder a) <> [].

(** One of the checks of [video_replacer.py] fails. *)
Definition head_rejected (W : World) (a : VideoReplacer.Answers) : Prop :=
  check_ffmpeg W = false \/
  isfile W (VideoReplacer.ans_main_video a) = false \/
  isdir W (VideoReplacer.ans_video_folder a) = false \/
  py_float W (strip (VideoReplacer.ans_target a)) = None \/
  find_video_files W (VideoReplacer.ans_video_folder a) = [].

(** The checks of [upsell_video_replacer.py]; the upsell clip is probed
    between the check of its path and the check of the folder. *)
Definition tail_accepted (W : World) (a : UpsellReplacer.Answers)
    (upsell_duration start_time : Q) : Prop :=
  check_ffmpeg W = true /\
  isfile W (UpsellReplacer.ans_upsell_video a) = true /\
  clip_duration W (UpsellReplacer.ans_upsell_video a) = Ok upsell_duration /\
  isdir W (UpsellReplacer.ans_video_folder a) = true /\
  py_float W (strip (UpsellReplacer.ans_start_time a)) = Some start_time /\
  find_video_files W (UpsellReplacer.ans_video_folder a) <> [].

Definition tail_rejected (W : World) (a : UpsellReplacer.Answers) : Prop :=
  check_ffmpeg W = false \/
  isfile W (UpsellReplacer.ans_upsell_video a) = false \/
  (exists e, clip_duration W (UpsellReplacer.ans_upsell_video a) = Raise e) \/
  isdir W (UpsellReplacer.ans_video_folder a) = false \/
  py_float W (strip (UpsellReplacer.ans_start_time a)) = None \/
  find_video_files W (UpsellReplacer.ans_video_folder a) = [].

(** [os.makedirs(p, exist_ok=True)] returns from the state [s]: the path
    is not empty, no file of that name is in the way and the host lets the
    directory be made. *)
Definition makedirs_passes (W : World) (p : string) (s : St) : Prop :=
  p <> "" /\ (p ∉ fs s) /\ makedirs_ok W p = true.

(** [video_replacer.py] stops before the batch: a check fails or the work
    directory cannot be made. *)
Definition head_stops (W : World) (a : VideoReplacer.Answers) (s : St)
  : Prop :=
  head_rejected W a \/ ~ makedirs_passes W (head_work_dir W a) s.

Definition tail_stops (W : World) (a : UpsellReplacer.Answers) (s : St)
  : Prop :=
  tail_rejected W a \/ ~ makedirs_passes W (tail_work_dir W a) s.

(** The answers typed at the prompts of [video_replacer.py] pass the
    checks made before the work directory is created, or one of them
    fails. *)
Definition head_answers_pass (W : World) (a : VideoReplacer.Answers)
    (target : Q) : Prop :=
  check_ffmpeg W = true /\
  isfile W (VideoReplacer.ans_main_video a) = true /\
  isdir W (VideoReplacer.ans_video_folder a) = true /\
  py_float W (strip (VideoReplacer.ans_target a)) = Some target.

Definition head_answers_fail (W : World) (a : VideoReplacer.Answers) : Prop :=
  check_ffmpeg W = false \/
  isfile W (VideoReplacer.ans_main_video a) = false \/
  isdir W (VideoReplacer.ans_video_folder a) = false \/
  py_float W (strip (VideoReplacer.ans_target a)) = None.

(** The same for [upsell_video_replacer.py], whose probe of the upsell
    clip is one of the checks. *)
Definition tail_answers_pass (W : World) (a : UpsellReplacer.Answers)
    (upsell_duration start_time : Q) : Prop :=
  check_ffmpeg W = true /\
  isfile W (UpsellReplacer.ans_upsell_video a) = true /\
  clip_duration W (UpsellReplacer.ans_upsell_video a) = Ok upsell_duration /\
  isdir W (UpsellReplacer.ans_video_folder a) = true /\
  py_float W (strip (UpsellReplacer.ans_start_time a)) = Some start_time.

Definition tail_answers_fail (W : World) (a : UpsellReplacer.Answers) : Prop :=
  check_ffmpeg W = false \/
  isfile W (UpsellReplacer.ans_upsell_video a) = false \/
  (exists e, clip_duration W (UpsellReplacer.ans_upsell_video a) = Raise e) \/
  isdir W (UpsellReplacer.ans_video_folder a) = false \/
  py_float W (strip (UpsellReplacer.ans_start_time a)) = None.

(** ** An engine that cooperates *)

(** Every transform exits with status zero and every probe prints a
    number. *)
Definition cooperates (W : World) : Prop :=
  (forall c, ffmpeg_ok W c = true) /\
  (forall p, exists q, clip_duration W p = Ok q).

(** A computation that returns from every state. *)
Definition returns {A} (m : M A) : Prop :=
  forall s, exists a, fst (m s) = Ok a.

(** ** The folder scan

    [find_video_files] and [find_audio_files] (lines 75-84 and 73-82).  The
    directory listing is an oracle [listdir]: the names of the entries of a
    folder, in the order the host returns them.  [Path(folder).glob('*' +
    suffix)], for a suffix without wild cards, keeps the entries whose name
    ends in the suffix, in listing order; the match is case sensitive, as on
    a POSIX host.  The entries of one folder compare as their names do, and
    Python compares strings by code point. *)

Module Scan.

(** [str.upper()] on the ASCII letters, all the extensions are made of. *)
Definition upper_ascii (c : ascii) : ascii :=
  let n := nat_of_ascii c in
  if (97 <=? n) && (n <=? 122) then ascii_of_nat (n - 32) else c.

Fixpoint str_upper (s : string) : string :=
  match s with
  | String c r => String (upper_ascii c) (str_upper r)
  | EmptyString => EmptyString
  end.

Definition glob (listdir : string -> list string) (folder_path suffix : string)
  : list string :=
  filter (fun name => endswith suffix name = true) (listdir folder_path).

Definition name_le (a b : string) : Prop := String.leb a b = true.

#[global] Instance name_le_dec : RelDecision name_le :=
  fun a b => decide (String.leb a b = true).

Definition sorted (l : list string) : list string := merge_sort name_le l.

Definition video_extensions : list string :=
  [".mp4"; ".mov"; ".avi"; ".mkv"; ".m4v"; ".flv"; ".wmv"].

Definition audio_extensions : list string :=
  [".mp3"; ".m4a"; ".aac"; ".wav"; ".flac"; ".ogg"; ".wma"].

Definition find_video_files (listdir : string -> list string)
    (folder_path : string) : list string :=
  let extensions := video_extensions in
  let video_files :=
    extensions ≫= (fun ext =>
      glob listdir folder_path ext ++ glob listdir folder_path (str_upper ext)) in
  sorted video_files.

Definition find_audio_files (listdir : string -> list string)
    (folder_path : string) : list string :=
  let extensions := audio_extensions in
  let audio_files :=
    extensions ≫= (fun ext =>
      glob listdir folder_path ext ++ glob listdir folder_path (str_upper ext)) in
  sorted audio_files.

(** A name carries one of the extensions, all in lower or all in upper case. *)
Definition has_extension (extensions : list string) (name : string) : bool :=
  existsb (fun ext => endswith ext name || endswith (str_upper ext) name)
    extensions.

(** The patterns tried, in the order of the loop. *)
Definition patterns (extensions : list string) : list string :=
  extensions ≫= (fun ext => [ext; str_upper ext]).

(** No pattern of the list is the end of another one. *)
Fixpoint apart (ps : list string) : bool :=
  match ps with
  | [] => true
  | p :: ps' =>
      forallb (fun q => negb (endswith p q || endswith q p)) ps' && apart ps'
  end.

End Scan.

(** ** Strings *)

Lemma startswith_spec p s :
  startswith p s = true <-> exists r, s = p +:+ r.
Proof.
  revert s; induction p as [|a p IH]; intros s; simpl.
  - split; [intros _; by exists s | done].
  - destruct s as [|b s].
    + split; [done | intros [r Hr]; discriminate].
    + rewrite andb_true_iff, IH. split.
      * intros [Hab [r ->]]. apply Ascii.eqb_eq in Hab as ->. by exists r.
      * intros [r Hr]. injection Hr as -> ->. split; [apply Ascii.eqb_refl | by exists r].
Qed.

Lemma str_in_spec needle hay : str_in needle hay = true <-> occurs needle hay.
Proof.
  induction hay as [|c hay IH]; simpl.
  - rewrite orb_false_r, startswith_spec. split.
    + intros [r Hr]. by exists EmptyString, r.
    + intros [a [b Hab]]. destruct a; [by exists b |]. discriminate.
  - rewrite orb_true_iff, startswith_spec, IH. split.
    + intros [[r Hr] | [a [b Hab]]].
      * by exists EmptyString, r.
      * exists (String c a), b. simpl. by rewrite Hab.
    + intros [a [b Hab]]. destruct a as [|c' a]; simpl in Hab.
      * left. by exists b.
      * right. injection Hab as -> ->. by exists a, b.
Qed.

Lemma append_inv_head (w a b : string) : w +:+ a = w +:+ b -> a = b.
Proof. induction w; simpl; [done | intros H; injection H as H; auto]. Qed.

(** ** The monad *)

Lemma new_events_app s s' d : trace s' = trace s ++ d -> new_events s s' = d.
Proof. unfold new_events. intros ->. apply drop_app_length. Qed.

Lemma get_video_duration_run W p s :
  get_video_duration W p s =
  (clip_duration W p, {| fs := fs s; trace := trace s ++ [EProbe p] |}).
Proof.
  unfold get_video_duration, clip_duration, bind, emit, raise, lift.
  by destruct (ffprobe W p).
Qed.

(** ** Encoder resolution *)

(** C9. [detect_encoder] is a total function of the capability query: it
    yields the hardware encoder with the speed-biased arguments exactly when
    the query produced a listing in which the hardware encoder's name
    occurs, and the software encoder with the balanced arguments in every
    other case, a failed query included. *)
Theorem detect_encoder_total (W : World) :
  (detect_encoder W = hardware_profile <->
   exists listing,
     ffmpeg_encoders W = Some listing /\
     occurs "h264_videotoolbox" (stdout listing)) /\
  (detect_encoder W <> hardware_profile -> detect_encoder W = software_profile) /\
  (ffmpeg_encoders W = None -> detect_encoder W = software_profile).
Proof.
  unfold detect_encoder. destruct (ffmpeg_encoders W) as [listing|].
  - destruct (str_in "h264_videotoolbox" (stdout listing)) eqn:Hin.
    + repeat split; try done.
      intros _. exists listing. split; [done | by apply str_in_spec].
    + repeat split; try done.
      intros (l & [= <-] & Hocc). apply str_in_spec in Hocc. congruence.
  - repeat split; try done. by intros (l & Hl & _).
Qed.

(** ** The duration probe *)

(** C8, as amended. Once [ffprobe] has run, [get_video_duration] raises
    exactly when the stripped standard output is not accepted by [float],
    and returns the parsed value otherwise; the exit status plays no part. *)
Theorem probe_fails_iff_unparsable (W : World) (p : string) (s : St)
    (result : CompletedProcess) :
  ffprobe W p = Some result ->
  ((exists e, fst (get_video_duration W p s) = Raise e) <->
   py_float W (strip (stdout result)) = None) /\
  (forall d, py_float W (strip (stdout result)) = Some d ->
             fst (get_video_duration W p s) = Ok d).
Proof.
  intros Hrun. rewrite get_video_duration_run. unfold clip_duration.
  rewrite Hrun. unfold parse_duration. simpl.
  destruct (py_float W (strip (stdout result))) as [d|] eqn:Hparse.
  - split; [split; [by intros [e He] | done] | by intros d' [= ->]].
  - split; [split; [done | by exists ValueError] | done].
Qed.

Lemma probe_fails_iff_unparsable_witness :
  ffprobe bad_exit_world "clip.mp4" = printed 1 "12.5" /\
  ((exists e, fst (get_video_duration bad_exit_world "clip.mp4" empty_state)
              = Raise e) <->
   decimal_float (strip ("12.5" +:+ newline)) = None) /\
  fst (get_video_duration bad_exit_world "clip.mp4" empty_state)
  = Ok (25 # 2)%Q.
Proof.
  destruct (probe_fails_iff_unparsable bad_exit_world "clip.mp4" empty_state
              {| returncode := 1; stdout := "12.5" +:+ newline |} eq_refl)
    as (Hiff & Hval).
  split; [reflexivity | split; [exact Hiff | apply Hval; reflexivity]].
Defined.

(** C8, counterexample. The engine exits with status 1 after printing a
    number: the probe returns 12.5 seconds instead of failing. *)
Lemma probe_ignores_exit_status :
  ~ probe_fails_on_bad_exit_or_output bad_exit_world "clip.mp4".
Proof.
  intros H.
  destruct (H {| returncode := 1; stdout := "12.5" +:+ newline |} empty_state
              eq_refl) as [_ Hfail].
  destruct Hfail as [e He]; [by left |].
  vm_compute in He. discriminate.
Qed.

(** ** The composer: an anchor that is long enough *)

(** C5. When the probed duration of the anchor is at least the target,
    [process_replacement_video] probes the anchor and issues one command,
    the anchor cut to exactly the target; the plan has that single step, the
    call returns the processed file when the command succeeds, and nothing
    depends on the pool, the current index or the fuel. *)
Theorem long_anchor_single_step (W : World) (target_length : Q)
    (enc : Profile) (work_dir : string) (output_number : nat)
    (video_files : list string) (current_index fuel : nat)
    (video_file : string) (duration : Q) (s : St) :
  clip_duration W video_file = Ok duration ->
  (target_length <= duration)%Q ->
  let cut :=
    MuteEncode enc video_file (Some target_length)
      (VideoReplacer.processed_path work_dir output_number) in
  let run :=
    VideoReplacer.process_replacement_video W target_length enc work_dir
      output_number video_files current_index fuel video_file s in
  new_events s (snd run) = [EProbe video_file; ERun cut] /\
  plan_steps (new_events s (snd run)) =
    [{| sourceClip := video_file; trimSeconds := Some target_length;
        artifact := VideoReplacer.processed_path work_dir output_number |}] /\
  (ffmpeg_ok W cut = true ->
   fst run = Ok (VideoReplacer.processed_path work_dir output_number)) /\
  (forall video_files' current_index' fuel',
     VideoReplacer.process_replacement_video W target_length enc work_dir
       output_number video_files' current_index' fuel' video_file s = run).
Proof.
  intros Hprobe Hlong cut run.
  assert (Hrun : forall vf ci fl,
    VideoReplacer.process_replacement_video W target_length enc work_dir
      output_number vf ci fl video_file s =
    (if ffmpeg_ok W cut
     then (Ok (VideoReplacer.processed_path work_dir output_number),
           {| fs := {[VideoReplacer.processed_path work_dir output_number]} ∪ fs s;
              trace := trace s ++ [EProbe video_file; ERun cut] |})
     else (Raise (CalledProcessError cut),
           {| fs := fs s;
              trace := trace s ++ [EProbe video_file; ERun cut] |}))).
  { intros vf ci fl.
    unfold VideoReplacer.process_replacement_video, bind.
    rewrite get_video_duration_run, Hprobe.
    apply Qle_bool_iff in Hlong. rewrite Hlong.
    unfold run_ffmpeg, ret. simpl. fold cut.
    rewrite <- app_assoc. simpl. by destruct (ffmpeg_ok W cut). }
  assert (Hnew : new_events s (snd run) = [EProbe video_file; ERun cut]).
  { apply new_events_app. unfold run. rewrite Hrun.
    by destruct (ffmpeg_ok W cut). }
  split; [exact Hnew |]. split; [by rewrite Hnew |]. split.
  - intros Hok. unfold run. rewrite Hrun, Hok. done.
  - intros vf ci fl. unfold run. by rewrite !Hrun.
Qed.

(** ** The filler loop *)

Lemma clip_duration_fuel W p : clip_duration W p <> OutOfFuel.
Proof.
  unfold clip_duration, parse_duration.
  destruct (ffprobe W p); [|done]. by destruct (py_float W _).
Qed.

Lemma filler_video_index_fuel ci k len :
  VideoReplacer.filler_video_index ci k len <> OutOfFuel.
Proof.
  unfold VideoReplacer.filler_video_index, py_mod.
  destruct (len =? 0); [done |]. by destruct (_ =? ci).
Qed.

Lemma filler_video_index_lt ci k len i :
  VideoReplacer.filler_video_index ci k len = Ok i -> i < len.
Proof.
  unfold VideoReplacer.filler_video_index, py_mod.
  destruct (len =? 0) eqn:Hlen; [done |].
  apply Nat.eqb_neq in Hlen.
  destruct (_ =? ci); intros [= <-]; by apply Nat.mod_upper_bound.
Qed.

Lemma filler_video_index_raise ci k len e :
  VideoReplacer.filler_video_index ci k len = Raise e ->
  len = 0 /\ e = ZeroDivisionError.
Proof.
  unfold VideoReplacer.filler_video_index, py_mod.
  destruct (len =? 0) eqn:Hlen.
  - apply Nat.eqb_eq in Hlen. by intros [= <-].
  - by destruct (_ =? ci).
Qed.

(** With two entries or more, the index that comes out is never the
    current one. *)
Lemma filler_video_index_skips ci k len i :
  2 <= len ->
  VideoReplacer.filler_video_index ci k len = Ok i -> i <> ci.
Proof.
  intros Hlen. unfold VideoReplacer.filler_video_index, py_mod.
  destruct (len =? 0) eqn:H0; [done |].
  destruct (_ =? ci) eqn:Hhit.
  - apply Nat.eqb_eq in Hhit. intros [= <-].
    assert (ci < len) as Hci by (rewrite <- Hhit; apply Nat.mod_upper_bound; lia).
    rewrite Hhit.
    destruct (decide (ci + 1 < len)) as [Hsmall|Hlast].
    + rewrite Nat.mod_small by done. lia.
    + replace (ci + 1) with len by lia. rewrite Nat.Div0.mod_same. lia.
  - apply Nat.eqb_neq in Hhit. by intros [= <-].
Qed.

(** With one entry, it is always that entry. *)
Lemma filler_video_index_single ci k :
  VideoReplacer.filler_video_index ci k 1 = Ok 0.
Proof.
  unfold VideoReplacer.filler_video_index, py_mod.
  change (1 =? 0) with false. cbv iota.
  rewrite !Nat.mod_1_r. by destruct (0 =? ci).
Qed.

Section FillerLoop.

Import VideoReplacer.

Context (W : World) (enc : Profile) (work_dir : string) (output_number : nat)
        (video_files : list string) (current_index : nat).

Local Abbreviation add_filler :=
  (VideoReplacer.add_filler W enc work_dir output_number video_files
     current_index).
Local Abbreviation fill :=
  (VideoReplacer.fill W enc work_dir output_number video_files current_index).
Local Abbreviation loop_cond := (VideoReplacer.loop_cond video_files).
Local Abbreviation pass :=
  (pass W enc work_dir output_number video_files current_index).

(** Every run of the loop body is one of the passes. *)
Lemma add_filler_pass ls s :
  pass ls s (fst (add_filler ls s)) (snd (add_filler ls s)).
Proof.
  unfold VideoReplacer.add_filler, bind, lift.
  destruct (filler_video_index current_index (filler_index ls)
              (length video_files)) as [i|e|] eqn:Hi; simpl.
  - unfold py_index. destruct (video_files !! i) as [fv|] eqn:Hfv; simpl.
    + rewrite get_video_duration_run.
      destruct (clip_duration W fv) as [fd|e|] eqn:Hfd; simpl.
      * match goal with
        | |- context [if Qeq_bool ?a ?b then ?x else ?y] =>
            replace (if Qeq_bool a b then x else y)
              with (run_ffmpeg W (filler_cmd enc work_dir output_number
                                    fv fd ls))
              by (unfold filler_cmd; simpl; by destruct (Qeq_bool a b))
        end.
        unfold run_ffmpeg; simpl.
        destruct (ffmpeg_ok W (filler_cmd enc work_dir output_number fv fd ls))
          eqn:Hok; simpl.
        -- pose proof (pass_added W enc work_dir output_number video_files
                         current_index ls s i fv fd Hi Hfv Hfd Hok) as Hadd.
           simpl in Hadd. unfold append_line, print, emit, ret; simpl.
           destruct (length video_files <? filler_index ls + 1); simpl;
             rewrite <- !app_assoc; simpl; exact Hadd.
        -- rewrite <- app_assoc; simpl. by eapply pass_stage_failed.
      * by eapply pass_probe_failed.
      * by apply clip_duration_fuel in Hfd.
    + by eapply pass_no_entry.
  - by apply pass_no_index.
  - by apply filler_video_index_fuel in Hi.
Qed.

(** More fuel than pool entries is always enough. *)
Lemma fill_fuel fuel ls s :
  0 < fuel -> length video_files + 1 <= fuel + filler_index ls ->
  fst (fill fuel ls s) <> OutOfFuel.
Proof.
  revert ls s. induction fuel as [|fuel IH]; intros ls s Hpos Hfuel; [lia |].
  simpl. destruct (loop_cond ls) eqn:Hcond; [| done].
  unfold bind. pose proof (add_filler_pass ls s) as Hp.
  destruct (add_filler ls s) as [r s']. simpl in Hp.
  inversion Hp; subst; simpl; try done.
  unfold VideoReplacer.loop_cond in Hcond.
  apply andb_true_iff in Hcond as [_ Hfi]. apply Nat.leb_le in Hfi.
  destruct (length video_files <? filler_index ls + 1) eqn:Hbrk; simpl;
    [done |].
  apply Nat.ltb_ge in Hbrk. apply IH; simpl; lia.
Qed.

(** The loop rule: an invariant [I] kept by every pass that goes on, and a
    postcondition [Q] reached when the condition fails, when a pass ends in
    [break], when a pass raises and when the fuel is used up. *)
Lemma fill_inv (I : Loop -> St -> Prop) (Q : Res Loop -> St -> Prop) :
  (forall ls s, I ls s -> loop_cond ls = false -> Q (Ok ls) s) ->
  (forall ls s, I ls s -> Q OutOfFuel s) ->
  (forall ls s r s',
     I ls s -> loop_cond ls = true -> pass ls s r s' ->
     match r with
     | Ok (ls', true) => Q (Ok ls') s'
     | Ok (ls', false) => I ls' s'
     | Raise e => Q (Raise e) s'
     | OutOfFuel => True
     end) ->
  forall fuel ls s,
    I ls s -> Q (fst (fill fuel ls s)) (snd (fill fuel ls s)).
Proof.
  intros Hexit Hout Hpass. induction fuel as [|fuel IH]; intros ls s HI.
  - simpl. by eapply Hout.
  - simpl. destruct (loop_cond ls) eqn:Hcond; [| by apply Hexit].
    unfold bind. pose proof (add_filler_pass ls s) as Hp.
    pose proof (Hpass ls s _ _ HI Hcond Hp) as Hstep.
    destruct (add_filler ls s) as [r s']. simpl in Hp, Hstep.
    inversion Hp; subst; simpl in *; try done.
    destruct (length video_files <? filler_index ls + 1); simpl; [done |].
    by apply IH.
Qed.

Local Abbreviation pass_event :=
  (pass_event W enc work_dir output_number video_files current_index).

Lemma pass_emits ls s r s' :
  pass ls s r s' ->
  exists d, trace s' = trace s ++ d /\ Forall (pass_event ls) d /\
            fs s ⊆ fs s'.
Proof.
  intros Hp. inversion Hp; subst; simpl.
  - exists []. by rewrite app_nil_r.
  - exists []. by rewrite app_nil_r.
  - eexists. split; [done |]. split; [| done].
    repeat constructor. by eapply pe_probe.
  - eexists. split; [done |]. split; [| done].
    repeat constructor; [by eapply pe_probe | by eapply pe_run].
  - eexists. split; [done |]. split; [| set_solver].
    constructor; [by eapply pe_probe |].
    constructor; [by eapply pe_run |].
    constructor; [apply pe_append |].
    subst brk.
    destruct (length video_files <? filler_index ls + 1) eqn:Hbrk;
      [| constructor].
    apply Nat.ltb_lt in Hbrk. constructor; [by apply pe_warn | constructor].
Qed.

(** What holds of every event of every pass holds of every event the loop
    adds; the files that were there stay. *)
Lemma fill_emits (P : Event -> Prop) :
  (forall ls e, pass_event ls e -> P e) ->
  forall fuel ls s,
    exists d, trace (snd (fill fuel ls s)) = trace s ++ d /\ Forall P d /\
              fs s ⊆ fs (snd (fill fuel ls s)).
Proof.
  intros HP fuel ls s.
  apply (fill_inv
    (fun _ s' => exists d, trace s' = trace s ++ d /\ Forall P d /\
                           fs s ⊆ fs s')
    (fun _ s' => exists d, trace s' = trace s ++ d /\ Forall P d /\
                           fs s ⊆ fs s')); try done.
  - intros ls0 s0 r s' (d & Hd & HPd & Hfs) _ Hp.
    destruct (pass_emits _ _ _ _ Hp) as (d' & Hd' & HP' & Hfs').
    assert (exists d0, trace s' = trace s ++ d0 /\ Forall P d0 /\
                       fs s ⊆ fs s') as Hgoal.
    { exists (d ++ d'). rewrite Hd', Hd, app_assoc. split; [done |].
      split; [| set_solver]. apply Forall_app. split; [done |].
      eapply Forall_impl; [exact HP' | by intros e; apply HP]. }
    destruct r as [[ls' [|]] | e |]; done.
  - exists []. by rewrite app_nil_r.
Qed.

End FillerLoop.


(** ** Paths in the work directory *)

Lemma os_path_join_inj w a b :
  startswith "/" a = false -> startswith "/" b = false ->
  os_path_join w a = os_path_join w b -> a = b.
Proof.
  unfold os_path_join. intros -> ->.
  destruct (bool_decide (w = "") || endswith_sep w).
  - apply append_inv_head.
  - intros H. apply append_inv_head in H. by injection H.
Qed.

Ltac names_differ :=
  let H := fresh in
  intros H; apply os_path_join_inj in H; [| reflexivity | reflexivity];
  cbv beta iota delta [String.append] in H; discriminate H.

Lemma segments_not_original wd n :
  VideoReplacer.segments_path wd n <> VideoReplacer.original_path wd n.
Proof. names_differ. Qed.

Lemma segments_not_filler wd n j :
  VideoReplacer.segments_path wd n <> VideoReplacer.filler_path wd n j.
Proof. names_differ. Qed.

(** ** Removing files *)

Lemma remove_if_exists_run p s :
  remove_if_exists p s =
  (Ok tt, {| fs := fs s ∖ {[p]};
             trace := trace s ++
                      (if bool_decide (p ∈ fs s) then [ERemove p] else []) |}).
Proof.
  unfold remove_if_exists, bind, os_path_exists, os_remove, ret.
  simpl. repeat case_bool_decide; try done.
  destruct s as [files tr]; simpl in *.
  f_equal. f_equal; [set_solver | by rewrite app_nil_r].
Qed.

Lemma for_each_remove {A} (g : A -> string) (l : list A) (s : St) :
  exists d,
    for_each l (fun j => remove_if_exists (g j)) s =
    (Ok tt, {| fs := fs s ∖ list_to_set (g <$> l); trace := trace s ++ d |})
    /\ Forall is_removal d.
Proof.
  revert s. induction l as [|x l IH]; intros s.
  - exists []. split; [| constructor]. simpl. unfold ret.
    destruct s as [files tr]; simpl. f_equal. f_equal; [set_solver |].
    by rewrite app_nil_r.
  - simpl. unfold bind. rewrite remove_if_exists_run.
    edestruct IH as (d & -> & Hd). eexists. split.
    + simpl. f_equal. f_equal; [set_solver |]. by rewrite <- app_assoc.
    + apply Forall_app. split; [| done].
      destruct (bool_decide _); repeat constructor. by eexists.
Qed.


(** ** Joining the segments *)

Section Composite.

Import VideoReplacer.

Context (W : World) (target_length : Q) (enc : Profile) (work_dir : string)
        (output_number : nat) (video_files : list string)
        (current_index : nat).

Local Abbreviation processed := (processed_path work_dir output_number).
Local Abbreviation segments := (segments_path work_dir output_number).
Local Abbreviation original := (original_path work_dir output_number).
Local Abbreviation filler := (filler_path work_dir output_number).
Local Abbreviation join_cmd := (ConcatEncode enc segments false processed).

Lemma finish_composite_spec ls s :
  let r := finish_composite W enc work_dir output_number ls s in
  exists d,
    trace (snd r) = trace s ++ ERun join_cmd :: d /\
    Forall tidy_event d /\
    fst r <> OutOfFuel /\
    (forall x, fst r = Ok x ->
       x = processed /\
       fs (snd r) =
         ((({[processed]} ∪ fs s) ∖ {[original]})
            ∖ list_to_set (filler <$> seq 0 (filler_index ls)))
           ∖ {[segments]}) /\
    (ffmpeg_ok W join_cmd = true -> original ∈ fs s -> segments ∈ fs s ->
     fst r = Ok processed).
Proof.
  intros r. subst r.
  destruct (finish_composite W enc work_dir output_number ls s) as [r s']
    eqn:Hrun.
  unfold finish_composite, bind, run_ffmpeg in Hrun. simpl in *.
  destruct (ffmpeg_ok W join_cmd) eqn:Hok; simpl in Hrun.
  2: { injection Hrun as <- <-. exists []. split; [done |].
       split; [constructor |]. by repeat split. }
  unfold os_remove at 1 in Hrun. simpl in Hrun.
  case_bool_decide as Horig; simpl in Hrun.
  2: { injection Hrun as <- <-. exists []. split; [done |].
       split; [constructor |]. split; [done |]. split; [done |].
       intros _ Hin _. set_solver. }
  match type of Hrun with
  | context [for_each ?l ?f ?s0] =>
      destruct (for_each_remove filler l s0) as (d1 & Heach & Hd1)
  end.
  rewrite Heach in Hrun. clear Heach. simpl in Hrun.
  unfold os_remove in Hrun. simpl in Hrun.
  case_bool_decide as Hseg; simpl in Hrun; injection Hrun as <- <-; simpl.
  - eexists. split; [by rewrite <- !app_assoc |]. split.
    + constructor; [left; by eexists |]. apply Forall_app. split.
      * eapply Forall_impl; [exact Hd1 | by left].
      * constructor; [left; by eexists |]. constructor; [| constructor].
        right. by eexists.
    + split; [done |]. split; [| done]. by intros x [= <-].
  - eexists. split; [by rewrite <- !app_assoc |]. split.
    + constructor; [left; by eexists |].
      eapply Forall_impl; [exact Hd1 | by left].
    + split; [done |]. split; [done |].
      intros _ _ Hin. exfalso. apply Hseg.
      pose proof (segments_not_original work_dir output_number).
      assert (segments ∉ (list_to_set (filler <$> seq 0 (filler_index ls))
                            : gset string)).
      { rewrite elem_of_list_to_set, list_elem_of_fmap.
        intros (j & Hj & _).
        by apply (segments_not_filler work_dir output_number j). }
      set_solver.
Qed.

End Composite.

(** ** Plans read off a trace *)

Lemma plan_steps_app d d' : plan_steps (d ++ d') = plan_steps d ++ plan_steps d'.
Proof. apply omap_app. Qed.

Lemma created_app d d' : created (d ++ d') = created d ++ created d'.
Proof. apply omap_app. Qed.

Lemma partial_coverage_app d d' :
  partial_coverage (d ++ d') = partial_coverage d || partial_coverage d'.
Proof. apply existsb_app. Qed.

Lemma plan_steps_Forall (R : PlanStep -> Prop) d :
  Forall (fun e => forall st, step_of e = Some st -> R st) d ->
  Forall R (plan_steps d).
Proof.
  induction 1 as [|e d He _ IH]; simpl; [constructor |].
  unfold plan_steps in *. simpl. destruct (step_of e) as [st|] eqn:Hst; simpl.
  - constructor; [by apply He | done].
  - done.
Qed.

Lemma total_duration_app W p p' :
  (total_duration W (p ++ p') == total_duration W p + total_duration W p')%Q.
Proof.
  induction p as [|st p IH]; simpl; [lra |]. rewrite IH. lra.
Qed.

Lemma quiet_plan d : Forall quiet d -> plan_steps d = [].
Proof.
  induction 1 as [|e d [He _] _ IH]; [done |].
  unfold plan_steps in *. simpl. by rewrite He.
Qed.

Lemma quiet_coverage d : Forall quiet d -> partial_coverage d = false.
Proof.
  induction 1 as [|e d [_ He] _ IH]; [done |]. simpl. by rewrite He.
Qed.

(** ** What the filler loop guarantees *)

Section FillerFacts.

Import VideoReplacer.

Context (W : World) (enc : Profile) (work_dir : string) (output_number : nat)
        (video_files : list string) (current_index : nat).

Local Abbreviation fill :=
  (VideoReplacer.fill W enc work_dir output_number video_files current_index).
Local Abbreviation pass :=
  (pass W enc work_dir output_number video_files current_index).
Local Abbreviation pass_event :=
  (pass_event W enc work_dir output_number video_files current_index).

(** With two pool entries or more, no filler comes from the current index. *)
Lemma fill_avoids_current fuel ls s :
  2 <= length video_files ->
  Forall (avoids_current video_files current_index)
    (plan_steps (new_events s (snd (fill fuel ls s)))).
Proof.
  intros Hlen.
  destruct (fill_emits W enc work_dir output_number video_files current_index
              (fun e => forall st, step_of e = Some st ->
                                   avoids_current video_files current_index st))
    with (fuel := fuel) (ls := ls) (s := s) as (d & Hd & HP & _).
  - intros ls0 e He st Hst. inversion He; subst; try done.
    unfold filler_cmd in Hst. simpl in Hst. injection Hst as <-.
    exists i. split; [by eapply filler_video_index_skips | done].
  - rewrite (new_events_app _ _ _ Hd). by apply plan_steps_Forall.
Qed.



Lemma py_min_le_r a b : (py_min a b <= b)%Q.
Proof.
  unfold py_min. destruct (Qle_bool a b) eqn:Hab; [by apply Qle_bool_iff | lra].
Qed.

(** The plan step of a filler command, and what it is worth. *)
Lemma filler_cmd_step fv fd ls :
  step_of (ERun (filler_cmd enc work_dir output_number fv fd ls)) =
  Some {| sourceClip := fv;
          trimSeconds :=
            (if Qeq_bool (py_min fd (remaining_needed ls)) fd
             then None else Some (py_min fd (remaining_needed ls)));
          artifact := filler_path work_dir output_number (filler_index ls) |}.
Proof. reflexivity. Qed.

Lemma filler_cmd_duration fv fd ls st :
  clip_duration W fv = Ok fd ->
  step_of (ERun (filler_cmd enc work_dir output_number fv fd ls)) = Some st ->
  (effective_duration W st == py_min fd (remaining_needed ls))%Q.
Proof.
  intros Hfd. rewrite filler_cmd_step. intros [= <-].
  unfold effective_duration. simpl.
  destruct (Qeq_bool (py_min fd (remaining_needed ls)) fd) eqn:Heq; simpl.
  - rewrite Hfd. apply Qeq_bool_iff in Heq. by rewrite Heq.
  - reflexivity.
Qed.

(** The account of a run of the loop: at most one step per pass and never
    more than [len + 1] passes; on return the steps add up to what the
    deficit went down by, a deficit that was not negative is still not
    negative, and the loop either closed the deficit without the warning
    or warned after [len + 1] fillers. *)
Lemma fill_accounts fuel ls0 s0 :
  filler_index ls0 <= length video_files ->
  let r := fill fuel ls0 s0 in
  exists d,
    trace (snd r) = trace s0 ++ d /\
    length (plan_steps d) <= length video_files + 1 - filler_index ls0 /\
    (forall ls',
       fst r = Ok ls' ->
       length (plan_steps d) = filler_index ls' - filler_index ls0 /\
       filler_index ls0 <= filler_index ls' /\
       (total_duration W (plan_steps d) + remaining_needed ls'
        == remaining_needed ls0)%Q /\
       (current_duration ls'
        == current_duration ls0 + total_duration W (plan_steps d))%Q /\
       ((0 <= remaining_needed ls0)%Q -> (0 <= remaining_needed ls')%Q) /\
       ((partial_coverage d = false /\ (remaining_needed ls' <= 0)%Q) \/
        (partial_coverage d = true /\
         filler_index ls' = length video_files + 1))).
Proof.
  intros Hfi0 r. subst r.
  set (post := fun d ls' =>
       length (plan_steps d) = filler_index ls' - filler_index ls0 /\
       filler_index ls0 <= filler_index ls' /\
       (total_duration W (plan_steps d) + remaining_needed ls'
        == remaining_needed ls0)%Q /\
       (current_duration ls'
        == current_duration ls0 + total_duration W (plan_steps d))%Q /\
       ((0 <= remaining_needed ls0)%Q -> (0 <= remaining_needed ls')%Q)).
  cut (exists d, trace (snd (fill fuel ls0 s0)) = trace s0 ++ d /\
       length (plan_steps d) <= length video_files + 1 - filler_index ls0 /\
       (forall ls', fst (fill fuel ls0 s0) = Ok ls' -> post d ls' /\
          ((partial_coverage d = false /\ (remaining_needed ls' <= 0)%Q) \/
           (partial_coverage d = true /\
            filler_index ls' = length video_files + 1)))).
  { intros (d & Hd & Hlen & Hok). exists d. split; [done |]. split; [done |].
    intros ls' Hls'. destruct (Hok ls' Hls') as [(? & ? & ? & ? & ?) ?].
    done. }
  apply (fill_inv W enc work_dir output_number video_files current_index
    (fun ls s => exists d, trace s = trace s0 ++ d /\ post d ls /\
                           filler_index ls <= length video_files /\
                           partial_coverage d = false)
    (fun r s => exists d, trace s = trace s0 ++ d /\
       length (plan_steps d) <= length video_files + 1 - filler_index ls0 /\
       (forall ls', r = Ok ls' -> post d ls' /\
          ((partial_coverage d = false /\ (remaining_needed ls' <= 0)%Q) \/
           (partial_coverage d = true /\
            filler_index ls' = length video_files + 1))))).
  - (* the condition fails *)
    intros ls s (d & Hd & Hpost & Hfi & Hcov) Hcond.
    exists d. split; [done |]. destruct Hpost as (Hlen & Hge & Hsum & Hcd & Hpos).
    split; [lia |]. intros ls' [= <-]. split; [done |]. left. split; [done |].
    unfold loop_cond in Hcond. apply andb_false_iff in Hcond as [Hle | Hgt].
    + apply negb_false_iff, Qle_bool_iff in Hle. lra.
    + apply Nat.leb_gt in Hgt. lia.
  - (* no fuel left *)
    intros ls s (d & Hd & Hpost & Hfi & Hcov). exists d. split; [done |].
    destruct Hpost as (Hlen & Hge & _). split; [lia | done].
  - (* one pass *)
    intros ls s r s' (d & Hd & Hpost & Hfi & Hcov) Hcond Hp.
    destruct Hpost as (Hlen & Hge & Hsum & Hcd & Hpos).
    inversion Hp; subst; simpl.
    + exists d. split; [done |]. split; [lia | done].
    + exists d. split; [done |]. split; [lia | done].
    + exists (d ++ [EProbe fv]). split; [by rewrite Hd, app_assoc |].
      rewrite plan_steps_app. simpl. rewrite app_nil_r. split; [lia | done].
    + eexists (d ++ [EProbe fv; ERun _]).
      split; [by rewrite Hd, app_assoc |].
      rewrite plan_steps_app, length_app. simpl. split; [lia | done].
    + pose proof (filler_cmd_duration fv fd ls _ H1 (filler_cmd_step fv fd ls))
        as Hdur.
      pose proof (py_min_le_r fd (remaining_needed ls)) as Hmin.
      assert (Hnew : forall w, plan_steps w = [] ->
        post (d ++ [EProbe fv;
                    ERun (filler_cmd enc work_dir output_number fv fd ls);
                    EAppend manifest (manifest_line segment)] ++ w)
             (next_loop fd ls)).
      { intros w Hw. unfold post.
        rewrite !plan_steps_app, Hw, app_nil_r.
        change (plan_steps [EProbe fv;
                  ERun (filler_cmd enc work_dir output_number fv fd ls);
                  EAppend manifest (manifest_line segment)])
          with [ {| sourceClip := fv;
                    trimSeconds :=
                      (if Qeq_bool (py_min fd (remaining_needed ls)) fd
                       then None else Some (py_min fd (remaining_needed ls)));
                    artifact := filler_path work_dir output_number
                                  (filler_index ls) |} ].
        rewrite length_app, total_duration_app. simpl.
        rewrite Hdur. repeat split; try lia; try lra;
          try (intros Hr; specialize (Hpos Hr); lra). }
      subst brk.
      destruct (length video_files <? filler_index ls + 1) eqn:Hbrk.
      * apply Nat.ltb_lt in Hbrk. eexists. split.
        { rewrite Hd, <- app_assoc. reflexivity. }
        assert (Hpost' := Hnew [EPrint (MsgUsedAll
                  (current_duration (next_loop fd ls)))]).
        split.
        { destruct Hpost' as (Hl & _); [done |].
          simpl in Hl. rewrite Hl. simpl. lia. }
        intros ls' [= <-]. split.
        { by apply Hpost'. }
        right. split; [| simpl; lia].
        rewrite !partial_coverage_app. simpl. by rewrite orb_true_r.
      * apply Nat.ltb_ge in Hbrk. eexists. split.
        { rewrite Hd, <- app_assoc. reflexivity. }
        split; [by apply Hnew |]. split; [simpl; lia |].
        rewrite !partial_coverage_app, Hcov. done.
  - (* at the start *)
    exists []. rewrite app_nil_r. split; [done |]. split.
    + unfold post. simpl. repeat split; try lia; try lra; done.
    + done.
Qed.

(** The files the loop wrote when it returns: the manifest and one
    segment per filler. *)
Lemma fill_created fuel ls0 s0 :
  let r := fill fuel ls0 s0 in
  exists d,
    trace (snd r) = trace s0 ++ d /\
    (forall ls', fst r = Ok ls' ->
       forall p, p ∈ created d ->
         p = segments_path work_dir output_number \/
         exists j, j < filler_index ls' /\
                   p = filler_path work_dir output_number j).
Proof.
  intros r. subst r.
  set (ok := fun d ls' => forall p, p ∈ created d ->
         p = segments_path work_dir output_number \/
         exists j, j < filler_index ls' /\
                   p = filler_path work_dir output_number j).
  apply (fill_inv W enc work_dir output_number video_files current_index
    (fun ls s => exists d, trace s = trace s0 ++ d /\ ok d ls)
    (fun r s => exists d, trace s = trace s0 ++ d /\
                          forall ls', r = Ok ls' -> ok d ls')).
  - intros ls s (d & Hd & Hok) _. exists d. split; [done |].
    by intros ls' [= <-].
  - intros ls s (d & Hd & _). by exists d.
  - intros ls s r s' (d & Hd & Hok) _ Hp.
    inversion Hp; subst; simpl.
    + by exists d.
    + by exists d.
    + exists (d ++ [EProbe fv]). by rewrite Hd, app_assoc.
    + eexists (d ++ [EProbe fv; ERun _]). by rewrite Hd, app_assoc.
    + assert (Hnew : forall w, created w = [] ->
        ok (d ++ [EProbe fv;
                  ERun (filler_cmd enc work_dir output_number fv fd ls);
                  EAppend manifest (manifest_line segment)] ++ w)
           (next_loop fd ls)).
      { intros w Hw p. rewrite !created_app, Hw, app_nil_r.
        rewrite elem_of_app. intros [Hp' | Hp'].
        - destruct (Hok p Hp') as [-> | (j & Hj & ->)]; [by left |].
          right. exists j. simpl. split; [lia | done].
        - simpl in Hp'. apply elem_of_cons in Hp' as [-> | Hp'].
          + right. exists (filler_index ls). simpl. split; [lia | done].
          + apply list_elem_of_singleton in Hp' as ->. by left. }
      subst brk. destruct (length video_files <? filler_index ls + 1).
      * eexists. split; [rewrite Hd, <- app_assoc; reflexivity |].
        intros ls' [= <-]. by apply Hnew.
      * eexists. split; [rewrite Hd, <- app_assoc; reflexivity |].
        by apply Hnew.
  - exists []. rewrite app_nil_r. split; [done |]. intros p Hp.
    by apply elem_of_nil in Hp.
Qed.

(** With a pool that is not empty, probes that answer and transforms that
    succeed, the loop returns, whether or not the deficit was closed. *)
Lemma fill_succeeds fuel ls s :
  0 < length video_files ->
  (forall v, v ∈ video_files -> exists q, clip_duration W v = Ok q) ->
  (forall c, ffmpeg_ok W c = true) ->
  0 < fuel -> length video_files + 1 <= fuel + filler_index ls ->
  exists ls', fst (fill fuel ls s) = Ok ls'.
Proof.
  intros Hlen Hprobe Hok Hpos Hfuel.
  pose proof (fill_fuel W enc work_dir output_number video_files
                current_index fuel ls s Hpos Hfuel) as Hnot.
  assert (forall e, fst (fill fuel ls s) <> Raise e) as Hnoraise.
  { apply (fill_inv W enc work_dir output_number video_files current_index
      (fun _ _ => True) (fun r _ => forall e, r <> Raise e)); try done.
    intros ls0 s0 r s' _ _ Hp. inversion Hp; subst; simpl; try done.
    - apply filler_video_index_raise in H as [H _]. lia.
    - apply filler_video_index_lt in H.
      apply lookup_ge_None in H0. lia.
    - destruct (Hprobe fv) as [q Hq]; [by eapply list_elem_of_lookup_2 |].
      congruence.
    - rewrite Hok in H2. done.
    - by destruct brk. }
  destruct (fst (fill fuel ls s)) as [ls'|e|]; [by exists ls' | | done].
  by destruct (Hnoraise e).
Qed.

End FillerFacts.

(** ** [process_replacement_video], case by case *)

Section Composer.

Import VideoReplacer.

Context (W : World) (target_length : Q) (enc : Profile) (work_dir : string)
        (output_number : nat) (video_files : list string)
        (current_index : nat).

Local Abbreviation prv :=
  (process_replacement_video W target_length enc work_dir output_number
     video_files current_index).
Local Abbreviation fill :=
  (VideoReplacer.fill W enc work_dir output_number video_files current_index).
Local Abbreviation finish :=
  (finish_composite W enc work_dir output_number).
Local Abbreviation processed := (processed_path work_dir output_number).
Local Abbreviation segments := (segments_path work_dir output_number).
Local Abbreviation original := (original_path work_dir output_number).

(** The anchor's probe raises. *)
Lemma prv_probe_failed fuel video_file e s :
  clip_duration W video_file = Raise e ->
  prv fuel video_file s = (Raise e, logged s [EProbe video_file]).
Proof.
  intros Hprobe. unfold process_replacement_video, bind.
  by rewrite get_video_duration_run, Hprobe.
Qed.

(** The anchor is long enough: one cut. *)
Lemma prv_long_run fuel video_file duration s :
  clip_duration W video_file = Ok duration ->
  (target_length <= duration)%Q ->
  let cut := MuteEncode enc video_file (Some target_length) processed in
  prv fuel video_file s =
  if ffmpeg_ok W cut
  then (Ok processed,
        {| fs := {[processed]} ∪ fs s;
           trace := trace s ++ [EProbe video_file; ERun cut] |})
  else (Raise (CalledProcessError cut),
        logged s [EProbe video_file; ERun cut]).
Proof.
  intros Hprobe Hlong cut.
  unfold process_replacement_video, bind.
  rewrite get_video_duration_run, Hprobe.
  apply Qle_bool_iff in Hlong. rewrite Hlong.
  unfold run_ffmpeg, ret, logged. simpl. fold cut.
  rewrite <- app_assoc. simpl. by destruct (ffmpeg_ok W cut).
Qed.

(** The anchor is too short: the whole anchor, the filler loop, the join. *)
Lemma prv_short_run fuel video_file duration s :
  clip_duration W video_file = Ok duration ->
  ~ (target_length <= duration)%Q ->
  let whole := MuteEncode enc video_file None original in
  let s1 := {| fs := {[segments]} ∪ ({[original]} ∪ fs s);
               trace := trace s ++
                        [EProbe video_file; ERun whole;
                         EWrite segments [manifest_line original]] |} in
  prv fuel video_file s =
  if ffmpeg_ok W whole
  then
    match fill fuel (start_loop target_length duration) s1 with
    | (Ok ls, s2) => finish ls s2
    | (Raise e, s2) => (Raise e, s2)
    | (OutOfFuel, s2) => (OutOfFuel, s2)
    end
  else (Raise (CalledProcessError whole),
        logged s [EProbe video_file; ERun whole]).
Proof.
  intros Hprobe Hshort whole s1.
  unfold process_replacement_video, bind.
  rewrite get_video_duration_run, Hprobe.
  destruct (Qle_bool target_length duration) eqn:Hle;
    [by apply Qle_bool_iff in Hle |].
  unfold run_ffmpeg, write_lines, logged. simpl. fold whole.
  destruct (ffmpeg_ok W whole); simpl.
  - rewrite <- !app_assoc. simpl. reflexivity.
  - rewrite <- !app_assoc. simpl. reflexivity.
Qed.

Lemma tidy_quiet d : Forall tidy_event d -> Forall quiet d.
Proof.
  intros H. eapply Forall_impl; [exact H |].
  intros e [[p ->] | [q ->]]; by split.
Qed.

Lemma tidy_created d : Forall tidy_event d -> created d = [].
Proof.
  induction 1 as [|e d He _ IH]; [done |].
  change (created (e :: d))
    with (match written_by e with
          | Some p => p :: created d
          | None => created d
          end).
  rewrite IH. by destruct He as [[p ->] | [q ->]].
Qed.

(** The short case once the anchor segment is built: the trace is the
    anchor's events, then the loop's, then the join's; the call returns
    exactly when the loop returns and the join goes through. *)
Lemma prv_short_trace fuel video_file duration s :
  clip_duration W video_file = Ok duration ->
  ~ (target_length <= duration)%Q ->
  let whole := MuteEncode enc video_file None original in
  let join := ConcatEncode enc segments false processed in
  let s1 := {| fs := {[segments]} ∪ ({[original]} ∪ fs s);
               trace := trace s ++
                        [EProbe video_file; ERun whole;
                         EWrite segments [manifest_line original]] |} in
  let r := prv fuel video_file s in
  let rf := fill fuel (start_loop target_length duration) s1 in
  ffmpeg_ok W whole = true ->
  exists dfill dtail,
    trace (snd rf) = trace s1 ++ dfill /\
    trace (snd r) =
      trace s ++ [EProbe video_file; ERun whole;
                  EWrite segments [manifest_line original]]
              ++ dfill ++ dtail /\
    Forall quiet dtail /\
    (forall p, p ∈ created dtail -> p = processed) /\
    (forall x, fst r = Ok x ->
       x = processed /\
       exists ls, fst rf = Ok ls /\
         fs (snd r) =
           ((({[processed]} ∪ fs (snd rf)) ∖ {[original]})
              ∖ list_to_set (filler_path work_dir output_number
                               <$> seq 0 (filler_index ls)))
             ∖ {[segments]}) /\
    (forall ls, fst rf = Ok ls -> ffmpeg_ok W join = true ->
                fst r = Ok processed) /\
    (fst r = OutOfFuel -> fst rf = OutOfFuel).
Proof.
  intros Hprobe Hshort whole join s1 r rf Hwhole. subst r.
  rewrite (prv_short_run fuel video_file duration s Hprobe Hshort).
  fold whole. rewrite Hwhole. fold s1. fold rf.
  destruct (fill_emits W enc work_dir output_number video_files current_index
              (fun _ => True) (fun _ _ _ => I) fuel (start_loop target_length duration) s1)
    as (dfill & Hdfill & _ & Hfs).
  fold rf in Hdfill, Hfs.
  destruct rf as [[ls|e|] s2] eqn:Hrf; simpl in *.
  - destruct (finish_composite_spec W enc work_dir output_number ls s2)
      as (dt & Hdt & Htidy & Hfuel & Hret & Hgood).
    exists dfill, (ERun join :: dt). split; [done |]. split.
    { rewrite Hdt, Hdfill. subst s1. simpl. by rewrite <- !app_assoc. }
    split; [constructor; [by split | by apply tidy_quiet] |]. split.
    { intros p.
      change (created (ERun join :: dt)) with (processed :: created dt).
      rewrite (tidy_created dt Htidy). by intros ->%list_elem_of_singleton. }
    split.
    { intros x Hx. destruct (Hret x Hx) as [-> Hfinal]. split; [done |].
      by exists ls. }
    split; [| done].
    intros ls' [= <-] Hjoin. apply Hgood; [done | |].
    + apply Hfs. subst s1. simpl. set_solver.
    + apply Hfs. subst s1. simpl. set_solver.
  - exists dfill, []. rewrite app_nil_r. split; [done |]. split.
    { rewrite Hdfill. subst s1. simpl. by rewrite <- !app_assoc. }
    split; [constructor |]. split; [by intros p Hp%elem_of_nil |].
    by repeat split.
  - exists dfill, []. rewrite app_nil_r. split; [done |]. split.
    { rewrite Hdfill. subst s1. simpl. by rewrite <- !app_assoc. }
    split; [constructor |]. split; [by intros p Hp%elem_of_nil |].
    by repeat split.
Qed.

End Composer.

(** ** The composer: fillers *)

Section ComposerClaims.

Import VideoReplacer.

Context (W : World) (target_length : Q) (enc : Profile) (work_dir : string)
        (output_number : nat).

Local Abbreviation processed := (processed_path work_dir output_number).
Local Abbreviation segments := (segments_path work_dir output_number).
Local Abbreviation original := (original_path work_dir output_number).

Lemma short_trace_fillers video_file dfill dtail :
  Forall quiet dtail ->
  filler_steps
    ([EProbe video_file; ERun (MuteEncode enc video_file None original);
      EWrite segments [manifest_line original]] ++ dfill ++ dtail)
  = plan_steps dfill.
Proof.
  intros Hq. unfold filler_steps.
  change (plan_steps dfill) with
    (tail ({| sourceClip := video_file; trimSeconds := None;
              artifact := original |} :: plan_steps dfill)).
  f_equal.
  rewrite (plan_steps_app [_; _; _]), plan_steps_app, (quiet_plan _ Hq),
    app_nil_r.
  reflexivity.
Qed.

(** The fillers of any run of the composer are the plan steps of its
    filler loop. *)
Lemma prv_fillers (R : PlanStep -> Prop) video_files current_index fuel
    video_file s :
  (forall ls s1,
     Forall R (plan_steps
                 (new_events s1
                    (snd (fill W enc work_dir output_number video_files
                            current_index fuel ls s1))))) ->
  Forall R
    (filler_steps
       (new_events s
          (snd (process_replacement_video W target_length enc work_dir
                  output_number video_files current_index fuel video_file
                  s)))).
Proof.
  intros Hloop.
  destruct (clip_duration W video_file) as [d|e|] eqn:Hprobe.
  - destruct (Qle_bool target_length d) eqn:Hle.
    + apply Qle_bool_iff in Hle.
      rewrite (prv_long_run W target_length enc work_dir output_number
                 video_files current_index fuel video_file d s Hprobe Hle).
      destruct (ffmpeg_ok W _); simpl;
        erewrite new_events_app by reflexivity; constructor.
    + assert (~ (target_length <= d)%Q) as Hshort.
      { intros H. apply Qle_bool_iff in H. congruence. }
      destruct (ffmpeg_ok W (MuteEncode enc video_file None original))
        eqn:Hwhole.
      * destruct (prv_short_trace W target_length enc work_dir output_number
                    video_files current_index fuel video_file d s Hprobe
                    Hshort Hwhole)
          as (dfill & dtail & Hfill & Htrace & Hq & _).
        rewrite (new_events_app _ _ _ Htrace), short_trace_fillers by done.
        rewrite <- (new_events_app _ _ _ Hfill). apply Hloop.
      * rewrite (prv_short_run W target_length enc work_dir output_number
                   video_files current_index fuel video_file d s Hprobe
                   Hshort), Hwhole.
        erewrite new_events_app by reflexivity. constructor.
  - rewrite (prv_probe_failed W target_length enc work_dir output_number
               video_files current_index fuel video_file e s Hprobe).
    erewrite new_events_app by reflexivity. constructor.
  - by apply clip_duration_fuel in Hprobe.
Qed.

(** C3, as amended. When the pool has two entries or more, every filler
    step of [process_replacement_video] takes its source from a pool index
    other than the current one, whatever the engine does; when the pool's
    entries are pairwise distinct, the source is therefore never the
    excluded clip. *)
Theorem fillers_avoid_current (video_files : list string)
    (current_index fuel : nat) (video_file : string) (s : St) :
  2 <= length video_files ->
  Forall (avoids_current video_files current_index)
    (filler_steps
       (new_events s
          (snd (process_replacement_video W target_length enc work_dir
                  output_number video_files current_index fuel video_file
                  s)))) /\
  (NoDup video_files ->
   never_reuses_current W target_length enc work_dir output_number
     video_files current_index fuel video_file s).
Proof.
  intros Hlen.
  assert (Forall (avoids_current video_files current_index)
    (filler_steps
       (new_events s
          (snd (process_replacement_video W target_length enc work_dir
                  output_number video_files current_index fuel video_file
                  s))))) as Hmain.
  { apply prv_fillers. intros ls s1. by apply fill_avoids_current. }
  split; [exact Hmain |].
  intros Hnodup. unfold never_reuses_current.
  eapply Forall_impl; [exact Hmain |].
  intros st (j & Hj & Hsrc) Hcur.
  apply Hj. by eapply NoDup_lookup.
Qed.

End ComposerClaims.

Lemma fillers_avoid_current_witness :
  2 <= length ["a.mp4"; "b.mp4"; "c.mp4"] /\
  Forall (avoids_current ["a.mp4"; "b.mp4"; "c.mp4"] 0)
    (filler_steps
       (new_events empty_state
          (snd (VideoReplacer.process_replacement_video
                  (world_of (fun _ => printed 0 "10") (fun _ => true)
                     ["a.mp4"; "b.mp4"; "c.mp4"])
                  25 software_profile "/videos/videos" 1
                  ["a.mp4"; "b.mp4"; "c.mp4"] 0 4 "a.mp4" empty_state)))).
Proof.
  split; [simpl; lia |].
  apply (fillers_avoid_current
           (world_of (fun _ => printed 0 "10") (fun _ => true)
              ["a.mp4"; "b.mp4"; "c.mp4"])
           25 software_profile "/videos/videos" 1
           ["a.mp4"; "b.mp4"; "c.mp4"] 0 4 "a.mp4" empty_state).
  simpl; lia.
Defined.

(** C3, counterexample. A pool whose only entry is the anchor: the target
    of 12 seconds exceeds the anchor's 10, and the filler that closes the
    gap is cut from the anchor itself. *)
Lemma lone_clip_fills_itself :
  ~ never_reuses_current lone_world 12 software_profile "/videos/videos" 1
      ["a.mp4"] 0 3 "a.mp4" empty_state.
Proof.
  unfold never_reuses_current.
  assert (filler_steps
       (new_events empty_state
          (snd (VideoReplacer.process_replacement_video lone_world 12
                  software_profile "/videos/videos" 1 ["a.mp4"] 0 3 "a.mp4"
                  empty_state)))
     = [{| sourceClip := "a.mp4"; trimSeconds := Some (2 # 1)%Q;
           artifact := "/videos/videos/temp_filler_1_0.mp4" |}]) as ->
    by (vm_compute; reflexivity).
  intros H. apply Forall_inv in H. by apply H.
Qed.

(** ** The composer: coverage *)

Section Coverage.

Import VideoReplacer.

Context (W : World) (target_length : Q) (enc : Profile) (work_dir : string)
        (output_number : nat) (video_files : list string)
        (current_index : nat).

Local Abbreviation processed := (processed_path work_dir output_number).
Local Abbreviation segments := (segments_path work_dir output_number).
Local Abbreviation original := (original_path work_dir output_number).
Local Abbreviation prv :=
  (process_replacement_video W target_length enc work_dir output_number
     video_files current_index).

(** The composer's result on a short anchor when the engine cooperates:
    it returns, with the anchor's step followed by the loop's. *)
Lemma prv_short_coop fuel video_file duration s :
  video_files <> [] ->
  clip_duration W video_file = Ok duration ->
  (duration < target_length)%Q ->
  (forall v, v ∈ video_files -> exists q, clip_duration W v = Ok q) ->
  (forall c, ffmpeg_ok W c = true) ->
  length video_files < fuel ->
  let r := prv fuel video_file s in
  exists dfill dtail ls,
    fst r = Ok processed /\
    new_events s (snd r) =
      [EProbe video_file; ERun (MuteEncode enc video_file None original);
       EWrite segments [manifest_line original]] ++ dfill ++ dtail /\
    Forall quiet dtail /\
    length (plan_steps dfill) <= length video_files + 1 /\
    length (plan_steps dfill) = filler_index ls /\
    (total_duration W (plan_steps dfill) + remaining_needed ls
     == target_length - duration)%Q /\
    (0 <= remaining_needed ls)%Q /\
    ((partial_coverage dfill = false /\ (remaining_needed ls <= 0)%Q) \/
     (partial_coverage dfill = true /\
      filler_index ls = length video_files + 1)) /\
    Forall (fun e => exists ls0,
              pass_event W enc work_dir output_number video_files
                current_index ls0 e) dfill.
Proof.
  intros Hpool Hprobe Hlt Hprobes Hok Hfuel r.
  assert (~ (target_length <= duration)%Q) as Hshort by lra.
  destruct (prv_short_trace W target_length enc work_dir output_number
              video_files current_index fuel video_file duration s Hprobe
              Hshort (Hok _))
    as (dfill & dtail & Hfill & Htrace & Hq & _ & _ & Hret & _).
  fold r in Htrace, Hret.
  set (s1 := {| fs := {[segments]} ∪ ({[original]} ∪ fs s);
                trace := trace s ++
                  [EProbe video_file;
                   ERun (MuteEncode enc video_file None original);
                   EWrite segments [manifest_line original]] |}) in *.
  destruct (fill_succeeds W enc work_dir output_number video_files
              current_index fuel (start_loop target_length duration) s1)
    as [ls Hls]; try done; simpl; try lia.
  { destruct video_files; [done | simpl; lia]. }
  destruct (fill_accounts W enc work_dir output_number video_files
              current_index fuel (start_loop target_length duration) s1)
    as (d & Hd & Hbound & Hacc); [simpl; lia |].
  assert (d = dfill) as ->.
  { rewrite Hfill in Hd. by apply app_inv_head in Hd. }
  destruct (Hacc ls Hls) as (Hlen & _ & Hsum & _ & Hpos & Hexit).
  destruct (fill_emits W enc work_dir output_number video_files current_index
              (fun e => exists ls0,
                 pass_event W enc work_dir output_number video_files
                   current_index ls0 e)
              (fun ls0 e He => ex_intro _ ls0 He)
              fuel (start_loop target_length duration) s1)
    as (d' & Hd' & Hevents & _).
  assert (d' = dfill) as ->.
  { rewrite Hfill in Hd'. by apply app_inv_head in Hd'. }
  exists dfill, dtail, ls. simpl in *.
  split; [by apply (Hret ls) |].
  split; [by apply new_events_app |].
  split; [done |]. split; [lia |]. split; [lia |].
  split; [done |]. split; [apply Hpos; lra |]. split; done.
Qed.

End Coverage.

Section CoverageClaim.

Import VideoReplacer.

Context (W : World) (target_length : Q) (enc : Profile) (work_dir : string)
        (output_number : nat) (video_files : list string)
        (current_index : nat).

Local Abbreviation processed := (processed_path work_dir output_number).
Local Abbreviation segments := (segments_path work_dir output_number).
Local Abbreviation original := (original_path work_dir output_number).
Local Abbreviation prv :=
  (process_replacement_video W target_length enc work_dir output_number
     video_files current_index).

(** The total and the coverage flag of a short-case trace. *)
Lemma short_trace_total video_file duration dfill dtail :
  clip_duration W video_file = Ok duration ->
  Forall quiet dtail ->
  let d := [EProbe video_file; ERun (MuteEncode enc video_file None original);
            EWrite segments [manifest_line original]] ++ dfill ++ dtail in
  (total_duration W (plan_steps d)
   == duration + total_duration W (plan_steps dfill))%Q /\
  partial_coverage d = partial_coverage dfill.
Proof.
  intros Hprobe Hq d. subst d. split.
  - rewrite (plan_steps_app [_; _; _]), plan_steps_app, (quiet_plan _ Hq),
      app_nil_r.
    change (plan_steps [EProbe video_file;
              ERun (MuteEncode enc video_file None original);
              EWrite segments [manifest_line original]])
      with [{| sourceClip := video_file; trimSeconds := None;
               artifact := original |}].
    simpl. unfold effective_duration. simpl. rewrite Hprobe. reflexivity.
  - rewrite (partial_coverage_app [_; _; _]), partial_coverage_app,
      (quiet_coverage _ Hq). simpl. by rewrite orb_false_r.
Qed.


End CoverageClaim.

(** ** The composer: a pool of one *)

(** C10. When the pool holds the anchor alone, the filler index is always
    the anchor's own, so every filler step, whatever the engine does, is
    cut from the anchor; and when the target is beyond the anchor's
    duration and the probe and the transforms succeed, the composer
    returns without raising, after one or two such steps. *)
Theorem lone_pool_reuses_anchor (W : World) (target_length : Q)
    (enc : Profile) (work_dir : string) (output_number fuel : nat)
    (video_file : string) (s : St) :
  let r := VideoReplacer.process_replacement_video W target_length enc
             work_dir output_number [video_file] 0 fuel video_file s in
  let fillers := filler_steps (new_events s (snd r)) in
  (forall k, VideoReplacer.filler_video_index 0 k 1 = Ok 0) /\
  Forall (fun st => sourceClip st = video_file) fillers /\
  (forall duration,
     clip_duration W video_file = Ok duration ->
     (duration < target_length)%Q ->
     (forall c, ffmpeg_ok W c = true) ->
     1 < fuel ->
     fst r = Ok (VideoReplacer.processed_path work_dir output_number) /\
     1 <= length fillers <= 2).
Proof.
  intros r fillers.
  split; [intros k; apply filler_video_index_single |].
  split.
  - apply prv_fillers. intros ls s1.
    destruct (fill_emits W enc work_dir output_number [video_file] 0
                (fun e => forall st, step_of e = Some st ->
                                     sourceClip st = video_file))
      with (fuel := fuel) (ls := ls) (s := s1) as (d & Hd & HP & _).
    + intros ls0 e He st Hst. inversion He; subst; try done.
      rewrite filler_cmd_step in Hst. injection Hst as <-. simpl.
      by apply list_lookup_singleton_Some in H0 as [_ ->].
    + rewrite (new_events_app _ _ _ Hd). by apply plan_steps_Forall.
  - intros duration Hprobe Hlt Hok Hfuel.
    destruct (prv_short_coop W target_length enc work_dir output_number
                [video_file] 0 fuel video_file duration s)
      as (dfill & dtail & ls & Hret & Hnew & Hq & Hbound & Hlen & Hsum & Hpos
          & Hexit & _); try done.
    { intros v ->%list_elem_of_singleton. by exists duration. }
    fold r in Hret, Hnew. split; [exact Hret |].
    assert (fillers = plan_steps dfill) as ->.
    { subst fillers. rewrite Hnew. by apply short_trace_fillers. }
    split.
    + destruct Hexit as [[_ Hzero] | [_ Hfull]]; [| simpl in Hfull; lia].
      destruct (plan_steps dfill); [| simpl; lia].
      simpl in Hsum. lra.
    + simpl in Hbound. lia.
Qed.

(** ** The filler loop terminates *)


(** ** The composer on concrete folders *)

(** The scenario of the specification: 8 and 6 seconds in full, then one
    second of the third clip. *)
Example scenario_plan :
  let r := VideoReplacer.process_replacement_video scenario_world 25
             software_profile "/videos/videos" 1 scenario_files 0 5
             "anchor.mp4" empty_state in
  fst r = Ok "/videos/videos/temp_processed_1.mp4" /\
  map (fun st => (sourceClip st, trimSeconds st))
    (plan_steps (new_events empty_state (snd r)))
  = [("anchor.mp4", None); ("a.mp4", None); ("b.mp4", None);
     ("c.mp4", Some (1 # 1)%Q)] /\
  partial_coverage (new_events empty_state (snd r)) = false /\
  elements (fs (snd r)) = ["/videos/videos/temp_processed_1.mp4"].
Proof. vm_compute. done. Qed.

(** Clips of duration zero never close the gap: three fillers for a pool
    of two, the warning, and the composer returns all the same. *)
Example exhausted_pool :
  let r := VideoReplacer.process_replacement_video empty_clips_world 5
             software_profile "/videos/videos" 1 ["a.mp4"; "b.mp4"] 0 3
             "a.mp4" empty_state in
  fst r = Ok "/videos/videos/temp_processed_1.mp4" /\
  map sourceClip (plan_steps (new_events empty_state (snd r)))
  = ["a.mp4"; "b.mp4"; "b.mp4"; "b.mp4"] /\
  partial_coverage (new_events empty_state (snd r)) = true.
Proof. vm_compute. done. Qed.

Lemma long_anchor_single_step_witness :
  let run :=
    VideoReplacer.process_replacement_video scenario_world 5
      software_profile "/videos/videos" 1 scenario_files 0 5 "anchor.mp4"
      empty_state in
  clip_duration scenario_world "anchor.mp4" = Ok (10 # 1)%Q /\
  (5 <= 10 # 1)%Q /\
  plan_steps (new_events empty_state (snd run)) =
    [{| sourceClip := "anchor.mp4"; trimSeconds := Some 5%Q;
        artifact := VideoReplacer.processed_path "/videos/videos" 1 |}].
Proof.
  intros run.
  assert (clip_duration scenario_world "anchor.mp4" = Ok (10 # 1)%Q) as Hp
    by (vm_compute; reflexivity).
  assert (5 <= 10 # 1)%Q as Hle by (vm_compute; discriminate).
  split; [exact Hp |]. split; [exact Hle |].
  exact (proj1 (proj2
    (long_anchor_single_step scenario_world 5 software_profile
       "/videos/videos" 1 scenario_files 0 5 "anchor.mp4" (10 # 1)
       empty_state Hp Hle))).
Defined.



Lemma lone_pool_reuses_anchor_witness :
  let r := VideoReplacer.process_replacement_video lone_world 12
             software_profile "/videos/videos" 1 ["a.mp4"] 0 3 "a.mp4"
             empty_state in
  let fillers := filler_steps (new_events empty_state (snd r)) in
  Forall (fun st => sourceClip st = "a.mp4") fillers /\
  fst r = Ok (VideoReplacer.processed_path "/videos/videos" 1) /\
  1 <= length fillers <= 2.
Proof.
  intros r fillers.
  destruct (lone_pool_reuses_anchor lone_world 12 software_profile
              "/videos/videos" 1 3 "a.mp4" empty_state)
    as (_ & Hsrc & Hret).
  split; [exact Hsrc |].
  apply (Hret (10 # 1)%Q).
  - vm_compute; reflexivity.
  - vm_compute; reflexivity.
  - intros c; reflexivity.
  - lia.
Defined.


(** ** Files the composer leaves alone, files it leaves behind *)

Section ComposerFiles.

Import VideoReplacer.

Context (W : World) (target_length : Q) (enc : Profile) (work_dir : string)
        (output_number : nat) (video_files : list string)
        (current_index : nat).

Local Abbreviation processed := (processed_path work_dir output_number).
Local Abbreviation segments := (segments_path work_dir output_number).
Local Abbreviation original := (original_path work_dir output_number).
Local Abbreviation filler := (filler_path work_dir output_number).
Local Abbreviation prv :=
  (process_replacement_video W target_length enc work_dir output_number
     video_files current_index).

(** [finish_composite] removes scratch files only. *)
Lemma finish_composite_keeps ls s p :
  p ∈ fs s -> ~ composer_scratch work_dir output_number p ->
  p ∈ fs (snd (finish_composite W enc work_dir output_number ls s)).
Proof.
  intros Hin Hp.
  assert (p <> original) as Ho by (intros ->; apply Hp; by left).
  assert (p <> segments) as Hs by (intros ->; apply Hp; right; by left).
  assert (p ∉ (list_to_set (filler <$> seq 0 (filler_index ls))
                 : gset string)) as Hf.
  { rewrite elem_of_list_to_set, list_elem_of_fmap.
    intros (j & -> & _). apply Hp. right; right. by exists j. }
  unfold finish_composite, bind, run_ffmpeg. simpl.
  destruct (ffmpeg_ok W _); simpl; [| done].
  unfold os_remove at 1. simpl. case_bool_decide; simpl; [| set_solver].
  match goal with
  | |- context [for_each ?l ?f ?s0] =>
      destruct (for_each_remove filler l s0) as (d1 & -> & _)
  end.
  simpl. unfold os_remove. simpl. case_bool_decide; simpl; set_solver.
Qed.

(** So does the composer as a whole. *)
Lemma prv_keeps fuel video_file s p :
  p ∈ fs s -> ~ composer_scratch work_dir output_number p ->
  p ∈ fs (snd (prv fuel video_file s)).
Proof.
  intros Hin Hp.
  destruct (clip_duration W video_file) as [d|e|] eqn:Hprobe.
  - destruct (Qle_bool target_length d) eqn:Hle.
    + apply Qle_bool_iff in Hle.
      rewrite (prv_long_run W target_length enc work_dir output_number
                 video_files current_index fuel video_file d s Hprobe Hle).
      destruct (ffmpeg_ok W _); simpl; set_solver.
    + assert (~ (target_length <= d)%Q) as Hshort.
      { intros H. apply Qle_bool_iff in H. congruence. }
      rewrite (prv_short_run W target_length enc work_dir output_number
                 video_files current_index fuel video_file d s Hprobe
                 Hshort).
      destruct (ffmpeg_ok W _); simpl; [| done].
      match goal with
      | |- context [fill _ _ _ _ _ _ ?f ?l ?s1] =>
          destruct (fill_emits W enc work_dir output_number video_files
                      current_index (fun _ => True) (fun _ _ _ => I) f l s1)
            as (dfill & _ & _ & Hfs);
          destruct (fill W enc work_dir output_number video_files
                      current_index f l s1) as [[ls|e|] s2]
      end; simpl in *.
      * apply finish_composite_keeps; [| done]. apply Hfs. set_solver.
      * apply Hfs. set_solver.
      * apply Hfs. set_solver.
  - by rewrite (prv_probe_failed W target_length enc work_dir output_number
                  video_files current_index fuel video_file e s Hprobe).
  - by apply clip_duration_fuel in Hprobe.
Qed.

(** When the composer returns, it returns the processed file, and every
    other file it wrote is gone. *)
Lemma prv_created fuel video_file s x :
  fst (prv fuel video_file s) = Ok x ->
  x = processed /\
  exists d,
    trace (snd (prv fuel video_file s)) = trace s ++ d /\
    (forall p, p ∈ created d ->
               p = processed \/ p ∉ fs (snd (prv fuel video_file s))).
Proof.
  intros Hx.
  destruct (clip_duration W video_file) as [d|e|] eqn:Hprobe.
  - destruct (Qle_bool target_length d) eqn:Hle.
    + apply Qle_bool_iff in Hle.
      rewrite (prv_long_run W target_length enc work_dir output_number
                 video_files current_index fuel video_file d s Hprobe Hle)
        in *.
      destruct (ffmpeg_ok W _); simpl in *; [| done].
      injection Hx as <-. split; [done |]. eexists. split; [done |].
      intros p Hp. left. simpl in Hp. by apply list_elem_of_singleton in Hp.
    + assert (~ (target_length <= d)%Q) as Hshort.
      { intros H. apply Qle_bool_iff in H. congruence. }
      destruct (ffmpeg_ok W (MuteEncode enc video_file None original))
        eqn:Hwhole.
      * destruct (prv_short_trace W target_length enc work_dir output_number
                    video_files current_index fuel video_file d s Hprobe
                    Hshort Hwhole)
          as (dfill & dtail & Hfill & Htrace & Hq & Htail & Hret & _).
        destruct (Hret x Hx) as (-> & ls & Hls & Hfs).
        split; [done |]. eexists. split; [exact Htrace |].
        destruct (fill_created W enc work_dir output_number video_files
                    current_index fuel (start_loop target_length d)
                    {| fs := {[segments]} ∪ ({[original]} ∪ fs s);
                       trace := trace s ++
                         [EProbe video_file;
                          ERun (MuteEncode enc video_file None original);
                          EWrite segments [manifest_line original]] |})
          as (d' & Hd' & Hcr).
        assert (d' = dfill) as ->.
        { rewrite Hfill in Hd'. by apply app_inv_head in Hd'. }
        intros p. rewrite (created_app [_; _; _]), created_app, !elem_of_app.
        rewrite Hfs. intros [Hp | [Hp | Hp]].
        -- right. simpl in Hp.
           apply elem_of_cons in Hp as [-> | Hp]; [set_solver |].
           apply list_elem_of_singleton in Hp as ->. set_solver.
        -- right. destruct (Hcr ls Hls p Hp) as [-> | (j & Hj & ->)];
             [set_solver |].
           assert (filler j ∈ (list_to_set (filler <$> seq 0 (filler_index ls))
                                 : gset string)).
           { rewrite elem_of_list_to_set, list_elem_of_fmap. exists j.
             split; [done |]. apply elem_of_seq. lia. }
           set_solver.
        -- left. by apply Htail.
      * rewrite (prv_short_run W target_length enc work_dir output_number
                   video_files current_index fuel video_file d s Hprobe
                   Hshort), Hwhole in Hx.
        done.
  - rewrite (prv_probe_failed W target_length enc work_dir output_number
               video_files current_index fuel video_file e s Hprobe) in Hx.
    done.
  - by apply clip_duration_fuel in Hprobe.
Qed.

End ComposerFiles.

(** ** One output file of [video_replacer.py] *)

Lemma for_each_remove_list (l : list string) (s : St) :
  exists d,
    for_each l remove_if_exists s =
    (Ok tt, {| fs := fs s ∖ list_to_set l; trace := trace s ++ d |})
    /\ Forall is_removal d.
Proof.
  destruct (for_each_remove id l s) as (d & Hrun & Hd).
  exists d. split; [| done]. by rewrite list_fmap_id in Hrun.
Qed.

Lemma removals_created d : Forall is_removal d -> created d = [].
Proof.
  induction 1 as [|e d [p ->] _ IH]; [done |]. exact IH.
Qed.

Lemma main_audio_not_scratch wd n i :
  ~ composer_scratch wd n (VideoReplacer.main_audio_path wd i).
Proof.
  intros [H | [H | [j H]]]; revert H; names_differ.
Qed.

Lemma clip_duration_raise W p e :
  clip_duration W p = Raise e -> e = OSError \/ e = ValueError.
Proof.
  unfold clip_duration, parse_duration. destruct (ffprobe W p).
  - destruct (py_float W _); [done |]. intros [= <-]. by right.
  - intros [= <-]. by left.
Qed.

Section HeadReplace.

Import VideoReplacer.

Context (W : World) (fuel : nat) (main_video : string) (target_length : Q)
        (enc : Profile) (work_dir folder_name : string)
        (video_files : list string) (i : nat) (video_file : string).

Local Abbreviation n := (i + 1).
Local Abbreviation main_audio := (main_audio_path work_dir i).
Local Abbreviation main_segment := (main_segment_path work_dir n).
Local Abbreviation concat_list := (list_path work_dir n).
Local Abbreviation combined := (combined_path work_dir n).
Local Abbreviation output := (output_path work_dir folder_name n).
Local Abbreviation processed := (processed_path work_dir n).
Local Abbreviation extract := (ExtractAudio main_video main_audio).
Local Abbreviation process_video :=
  (VideoReplacer.process_video W fuel main_video target_length enc work_dir
     folder_name video_files i video_file).
Local Abbreviation later_stages :=
  (after_composer W main_video target_length enc work_dir folder_name i).

Lemma process_video_split s :
  process_video s =
  (print (MsgProcessing n (length video_files) video_file) ;;
   run_ffmpeg W extract ;;
   processed_file <-
     process_replacement_video W target_length enc work_dir n video_files i
       fuel video_file ;;
   later_stages processed_file) s.
Proof. reflexivity. Qed.

Local Arguments for_each : simpl never.
Local Arguments after_composer : simpl never.

Lemma after_composer_spec pf s :
  let r := later_stages pf s in
  exists d,
    trace (snd r) = trace s ++ d /\
    (forall p, p ∈ created d ->
               p ∈ [main_segment; concat_list; combined; output]) /\
    fst r <> OutOfFuel /\
    (fst r = Ok tt ->
     fs (snd r) =
       ({[output]} ∪ ({[combined]} ∪ ({[concat_list]} ∪
          ({[main_segment]} ∪ fs s))))
         ∖ list_to_set [pf; main_segment; concat_list; main_audio; combined])
    /\
    (forall c, fst r = Raise (CalledProcessError c) -> fs s ⊆ fs (snd r)).
Proof.
  intros r. subst r.
  destruct (later_stages pf s) as [r s'] eqn:Hrun.
  unfold after_composer, bind, run_ffmpeg, write_lines in Hrun.
  simpl in Hrun.
  destruct (ffmpeg_ok W (SeekMute _ _ _ _)); simpl in Hrun.
  2: { injection Hrun as <- <-. eexists. split; [done |]. simpl.
       split; [| by repeat split].
       intros p ->%list_elem_of_singleton. set_solver. }
  destruct (ffmpeg_ok W (ConcatScale _ _ _)); simpl in Hrun.
  2: { injection Hrun as <- <-. eexists. simpl.
       split; [by rewrite <- !app_assoc |]. simpl.
       split; [| repeat split; try done; set_solver].
       intros p Hp. set_solver. }
  destruct (ffmpeg_ok W (Mux _ _ _)); simpl in Hrun.
  2: { injection Hrun as <- <-. eexists. simpl.
       split; [by rewrite <- !app_assoc |]. simpl.
       split; [| repeat split; try done; set_solver].
       intros p Hp. set_solver. }
  match type of Hrun with
  | context [for_each ?l remove_if_exists ?s0] =>
      destruct (for_each_remove_list l s0) as (dc & Hclean & Hdc)
  end.
  rewrite Hclean in Hrun. clear Hclean. simpl in Hrun.
  rewrite get_video_duration_run in Hrun. simpl in Hrun.
  assert (Hcr : forall w, created w = [] -> forall p,
    p ∈ created ([ERun (SeekMute enc main_video target_length main_segment);
                  EWrite concat_list
                    [manifest_line pf; manifest_line main_segment];
                  ERun (ConcatScale enc concat_list combined);
                  ERun (Mux combined main_audio output)] ++ dc ++ w) ->
    p ∈ [main_segment; concat_list; combined; output]).
  { intros w Hw p. rewrite (created_app [_; _; _; _]), created_app,
      (removals_created dc Hdc), Hw. simpl. set_solver. }
  destruct (clip_duration W output) as [q|e|] eqn:Hprobe; simpl in Hrun;
    injection Hrun as <- <-; simpl.
  - eexists. split; [by rewrite <- !app_assoc |].
    split; [apply (Hcr [_; _]); done |].
    split; [done |]. split; [done |]. intros c Hc. discriminate Hc.
  - eexists. split; [by rewrite <- !app_assoc |].
    split; [apply (Hcr [_]); done |].
    split; [done |]. split; [done |]. intros c [= ->].
    by destruct (clip_duration_raise _ _ _ Hprobe).
  - by apply clip_duration_fuel in Hprobe.
Qed.

(** One pass through the loop body: on success every file it wrote other
    than the output is gone; when a transform fails after the audio was
    extracted, the extracted audio is still there. *)
Lemma head_replace_files s :
  let r := process_video s in
  (fst r = Ok tt ->
   forall p, p ∈ created (new_events s (snd r)) -> p <> output ->
             p ∉ fs (snd r)) /\
  (forall c, fst r = Raise (CalledProcessError c) ->
             ffmpeg_ok W extract = true -> main_audio ∈ fs (snd r)).
Proof.
  intros r. subst r. destruct (process_video s) as [r s'] eqn:Hrun. simpl.
  rewrite process_video_split in Hrun.
  unfold bind at 1 2 3 in Hrun. unfold print, emit, run_ffmpeg in Hrun.
  simpl in Hrun.
  destruct (ffmpeg_ok W extract) eqn:Hextract; simpl in Hrun.
  2: { injection Hrun as <- <-. by split. }
  set (s1 := {| fs := {[main_audio]} ∪ fs s;
                trace := (trace s ++
                          [EPrint (MsgProcessing n (length video_files)
                                     video_file)]) ++ [ERun extract] |})
    in Hrun.
  pose proof (prv_created W target_length enc work_dir n video_files i fuel
                video_file s1) as Hcreated.
  pose proof (prv_keeps W target_length enc work_dir n video_files i fuel
                video_file s1 main_audio) as Hkeeps.
  destruct (process_replacement_video W target_length enc work_dir n
              video_files i fuel video_file s1) as [[pf|e|] s2] eqn:Hprv;
    simpl in Hcreated, Hkeeps, Hrun.
  - destruct (Hcreated pf eq_refl) as (-> & dprv & Hdprv & Hgone).
    destruct (after_composer_spec processed s2)
      as (da & Hda & Hcr & _ & Hfs & Hfail).
    rewrite Hrun in Hda, Hfs, Hfail. simpl in Hda, Hfs, Hfail.
    split.
    + intros Hok p Hp Hne. rewrite (Hfs Hok).
      erewrite new_events_app in Hp.
      2: { rewrite Hda, Hdprv. rewrite <- !app_assoc. reflexivity. }
      rewrite !created_app, !elem_of_app in Hp.
      destruct Hp as [Hp | [Hp | [Hp | Hp]]].
      * simpl in Hp. by apply elem_of_nil in Hp.
      * simpl in Hp. apply list_elem_of_singleton in Hp as ->. set_solver.
      * destruct (Hgone p Hp) as [-> | Hnot]; set_solver.
      * specialize (Hcr p Hp). set_solver.
    + intros c Hc _. apply (Hfail c Hc). apply Hkeeps.
      * set_solver.
      * apply main_audio_not_scratch.
  - injection Hrun as <- <-. split; [done |]. intros c _ _. apply Hkeeps.
    + set_solver.
    + apply main_audio_not_scratch.
  - injection Hrun as <- <-. by split.
Qed.

End HeadReplace.

(** ** The cleanup of the loop body runs once *)

(** Removing files that are all there and pairwise distinct removes each
    of them, once, in order. *)
Lemma for_each_remove_all (l : list string) (s : St) :
  NoDup l -> (forall p, p ∈ l -> p ∈ fs s) ->
  for_each l remove_if_exists s =
  (Ok tt, {| fs := fs s ∖ list_to_set l;
             trace := trace s ++ map ERemove l |}).
Proof.
  revert s. induction l as [|x l IH]; intros s Hnd Hin.
  - simpl. unfold ret. destruct s as [files tr]; simpl.
    f_equal. f_equal; [set_solver | by rewrite app_nil_r].
  - apply NoDup_cons in Hnd as [Hx Hnd].
    simpl. unfold bind. rewrite remove_if_exists_run.
    rewrite bool_decide_eq_true_2 by (apply Hin; set_solver).
    rewrite IH; [| done |].
    + simpl. f_equal. f_equal; [set_solver | by rewrite <- app_assoc].
    + intros p Hp. simpl. assert (p <> x) by (intros ->; done).
      specialize (Hin p). set_solver.
Qed.

Ltac names_nodup :=
  repeat (apply NoDup_cons; split;
          [ rewrite ?elem_of_cons, elem_of_nil;
            intros H; repeat destruct H as [H | H]; try done;
            revert H; names_differ
          | ]);
  apply NoDup_nil_2.

Lemma head_cleanup_nodup wd i :
  NoDup [VideoReplacer.processed_path wd (i + 1);
         VideoReplacer.main_segment_path wd (i + 1);
         VideoReplacer.list_path wd (i + 1);
         VideoReplacer.main_audio_path wd i;
         VideoReplacer.combined_path wd (i + 1)].
Proof. names_nodup. Qed.

Lemma processed_not_scratch wd n :
  ~ composer_scratch wd n (VideoReplacer.processed_path wd n).
Proof.
  intros [H | [H | [j H]]]; revert H; names_differ.
Qed.

Lemma prv_returns_file W target_length enc wd n video_files ci fuel
    video_file s x :
  fst (VideoReplacer.process_replacement_video W target_length enc wd n
         video_files ci fuel video_file s) = Ok x ->
  VideoReplacer.processed_path wd n
  ∈ fs (snd (VideoReplacer.process_replacement_video W target_length enc wd
               n video_files ci fuel video_file s)).
Proof.
  intros Hx.
  pose proof (processed_not_scratch wd n) as Hns.
  destruct (clip_duration W video_file) as [d|e|] eqn:Hprobe.
  - destruct (Qle_bool target_length d) eqn:Hle.
    + apply Qle_bool_iff in Hle.
      rewrite (prv_long_run W target_length enc wd n video_files ci fuel
                 video_file d s Hprobe Hle) in *.
      destruct (ffmpeg_ok W _); simpl in *; [set_solver | done].
    + assert (~ (target_length <= d)%Q) as Hshort.
      { intros H. apply Qle_bool_iff in H. congruence. }
      destruct (ffmpeg_ok W (MuteEncode enc video_file None
                               (VideoReplacer.original_path wd n)))
        eqn:Hwhole.
      * destruct (prv_short_trace W target_length enc wd n video_files ci
                    fuel video_file d s Hprobe Hshort Hwhole)
          as (dfill & dtail & _ & _ & _ & _ & Hret & _).
        destruct (Hret x Hx) as (_ & ls & _ & ->).
        assert (VideoReplacer.processed_path wd n
                ∉ (list_to_set (VideoReplacer.filler_path wd n
                                  <$> seq 0 (VideoReplacer.filler_index ls))
                     : gset string)) as Hf.
        { rewrite elem_of_list_to_set, list_elem_of_fmap.
          intros (j & Hj & _). apply Hns. right; right. by exists j. }
        assert (VideoReplacer.processed_path wd n
                <> VideoReplacer.original_path wd n) as Ho
          by (intros Heq; apply Hns; by left).
        assert (VideoReplacer.processed_path wd n
                <> VideoReplacer.segments_path wd n) as Hs
          by (intros Heq; apply Hns; right; by left).
        set_solver.
      * rewrite (prv_short_run W target_length enc wd n video_files ci fuel
                   video_file d s Hprobe Hshort), Hwhole in Hx.
        done.
  - rewrite (prv_probe_failed W target_length enc wd n video_files ci fuel
               video_file e s Hprobe) in Hx.
    done.
  - by apply clip_duration_fuel in Hprobe.
Qed.

Section HeadReplaceOnce.

Import VideoReplacer.

Context (W : World) (fuel : nat) (main_video : string) (target_length : Q)
        (enc : Profile) (work_dir folder_name : string)
        (video_files : list string) (i : nat) (video_file : string).

Local Abbreviation n := (i + 1).
Local Abbreviation main_audio := (main_audio_path work_dir i).
Local Abbreviation main_segment := (main_segment_path work_dir n).
Local Abbreviation concat_list := (list_path work_dir n).
Local Abbreviation combined := (combined_path work_dir n).
Local Abbreviation output := (output_path work_dir folder_name n).
Local Abbreviation processed := (processed_path work_dir n).
Local Abbreviation extract := (ExtractAudio main_video main_audio).
Local Abbreviation process_video :=
  (VideoReplacer.process_video W fuel main_video target_length enc work_dir
     folder_name video_files i video_file).
Local Abbreviation later_stages :=
  (after_composer W main_video target_length enc work_dir folder_name i).

Local Arguments for_each : simpl never.

Lemma after_composer_once s :
  processed ∈ fs s -> main_audio ∈ fs s ->
  fst (later_stages processed s) = Ok tt ->
  exists q,
    trace (snd (later_stages processed s)) =
    trace s ++
    [ERun (SeekMute enc main_video target_length main_segment);
     EWrite concat_list [manifest_line processed; manifest_line main_segment];
     ERun (ConcatScale enc concat_list combined);
     ERun (Mux combined main_audio output)] ++
    map ERemove (head_cleanup_list work_dir i) ++
    [EProbe output; EPrint (MsgCreated n q)].
Proof.
  intros Hpf Haudio.
  destruct (later_stages processed s) as [r s'] eqn:Hrun. simpl.
  unfold after_composer, bind, run_ffmpeg, write_lines in Hrun.
  simpl in Hrun.
  destruct (ffmpeg_ok W (SeekMute _ _ _ _)); simpl in Hrun.
  2: { by injection Hrun as <- <-. }
  destruct (ffmpeg_ok W (ConcatScale _ _ _)); simpl in Hrun.
  2: { by injection Hrun as <- <-. }
  destruct (ffmpeg_ok W (Mux _ _ _)); simpl in Hrun.
  2: { by injection Hrun as <- <-. }
  rewrite for_each_remove_all in Hrun.
  2: { apply head_cleanup_nodup. }
  2: { intros p Hp. simpl. set_solver. }
  simpl in Hrun. rewrite get_video_duration_run in Hrun. simpl in Hrun.
  destruct (clip_duration W output) as [q|e|]; simpl in Hrun;
    injection Hrun as <- <-; simpl; try done.
  intros _. exists q. by rewrite <- !app_assoc.
Qed.

(** On success the cleanup ran once, after the last transform: the trace
    of the loop body is the composer's events between the audio extraction
    and the three remaining transforms, then one removal per cleanup file,
    then the report. *)
Lemma head_replace_once s :
  fst (process_video s) = Ok tt ->
  exists dprv q,
    new_events s (snd (process_video s)) =
    [EPrint (MsgProcessing n (length video_files) video_file);
     ERun extract] ++ dprv ++
    [ERun (SeekMute enc main_video target_length main_segment);
     EWrite concat_list [manifest_line processed; manifest_line main_segment];
     ERun (ConcatScale enc concat_list combined);
     ERun (Mux combined main_audio output)] ++
    map ERemove (head_cleanup_list work_dir i) ++
    [EProbe output; EPrint (MsgCreated n q)].
Proof.
  destruct (process_video s) as [r s'] eqn:Hrun. simpl. intros ->.
  rewrite process_video_split in Hrun.
  unfold bind at 1 2 3 in Hrun. unfold print, emit, run_ffmpeg in Hrun.
  simpl in Hrun.
  destruct (ffmpeg_ok W extract) eqn:Hextract; simpl in Hrun; [| done].
  set (s1 := {| fs := {[main_audio]} ∪ fs s;
                trace := (trace s ++
                          [EPrint (MsgProcessing n (length video_files)
                                     video_file)]) ++ [ERun extract] |})
    in Hrun.
  pose proof (prv_created W target_length enc work_dir n video_files i fuel
                video_file s1) as Hcreated.
  pose proof (prv_keeps W target_length enc work_dir n video_files i fuel
                video_file s1 main_audio) as Hkeeps.
  pose proof (prv_returns_file W target_length enc work_dir n video_files i
                fuel video_file s1) as Hfile.
  destruct (process_replacement_video W target_length enc work_dir n
              video_files i fuel video_file s1) as [[pf|e|] s2] eqn:Hprv;
    simpl in Hcreated, Hkeeps, Hfile, Hrun; [| done | done].
  destruct (Hcreated pf eq_refl) as (-> & dprv & Hdprv & _).
  destruct (after_composer_once s2) as [q Hq].
  - by apply (Hfile processed).
  - apply Hkeeps; [set_solver | apply main_audio_not_scratch].
  - by rewrite Hrun.
  - rewrite Hrun in Hq. simpl in Hq. exists dprv, q.
    apply new_events_app. rewrite Hq, Hdprv. by rewrite <- !app_assoc.
Qed.

End HeadReplaceOnce.

(** ** One output file of [upsell_video_replacer.py] *)

Lemma loop_not_looped wd n :
  UpsellReplacer.loop_path wd n <> UpsellReplacer.looped_path wd n.
Proof. names_differ. Qed.

Lemma upsell_not_loop wd n :
  UpsellReplacer.upsell_path wd n <> UpsellReplacer.loop_path wd n.
Proof. names_differ. Qed.

Lemma upsell_not_looped wd n :
  UpsellReplacer.upsell_path wd n <> UpsellReplacer.looped_path wd n.
Proof. names_differ. Qed.

Section UpsellSection.

Import UpsellReplacer.

Context (W : World) (upsell_video : string) (upsell_duration : Q)
        (enc : Profile) (work_dir : string) (output_number : nat)
        (upsell_needed : Q).

Local Abbreviation loop_list := (loop_path work_dir output_number).
Local Abbreviation looped := (looped_path work_dir output_number).
Local Abbreviation section := (upsell_path work_dir output_number).
Local Abbreviation prepare :=
  (prepare_upsell W upsell_video upsell_duration enc work_dir output_number
     upsell_needed).
Local Abbreviation copies := (loop_copies upsell_duration upsell_needed).
Local Abbreviation join := (loop_join enc work_dir output_number).
Local Abbreviation cut :=
  (loop_cut enc work_dir output_number upsell_needed).
Local Abbreviation one_cut :=
  (plain_cut upsell_video enc work_dir output_number upsell_needed).

(** The upsell clip fits: one cut. *)
Lemma prepare_plain_run s :
  (upsell_needed <= upsell_duration)%Q ->
  prepare s =
  if ffmpeg_ok W one_cut
  then (Ok tt, {| fs := {[section]} ∪ fs s;
                  trace := trace s ++ [ERun one_cut] |})
  else (Raise (CalledProcessError one_cut), logged s [ERun one_cut]).
Proof.
  intros Hfit. apply Qle_bool_iff in Hfit.
  unfold prepare_upsell. rewrite Hfit. simpl.
  unfold run_ffmpeg, logged. fold one_cut. by destruct (ffmpeg_ok W _).
Qed.

(** The upsell clip is too short and has no duration at all: the
    division raises before anything is written. *)
Lemma prepare_zero_run s :
  ~ (upsell_needed <= upsell_duration)%Q ->
  (upsell_duration == 0)%Q ->
  prepare s = (Raise ZeroDivisionError, s).
Proof.
  intros Hshort Hzero. unfold prepare_upsell.
  destruct (Qle_bool upsell_needed upsell_duration) eqn:Hle;
    [by apply Qle_bool_iff in Hle |].
  simpl. unfold bind, lift, py_div.
  apply Qeq_bool_iff in Hzero. by rewrite Hzero.
Qed.

(** The upsell clip is too short: the manifest, the join, the cut, and
    the two removals. *)
Lemma prepare_loop_run s :
  ~ (upsell_needed <= upsell_duration)%Q ->
  ~ (upsell_duration == 0)%Q ->
  let manifest :=
    EWrite loop_list
      (repeat (manifest_line upsell_video) (Z.to_nat copies)) in
  prepare s =
  if ffmpeg_ok W join
  then
    if ffmpeg_ok W cut
    then (Ok tt,
          {| fs := (({[section]} ∪ ({[looped]} ∪ ({[loop_list]} ∪ fs s)))
                      ∖ {[loop_list]}) ∖ {[looped]};
             trace := trace s ++
                      [manifest; ERun join; ERun cut;
                       ERemove loop_list; ERemove looped] |})
    else (Raise (CalledProcessError cut),
          {| fs := {[looped]} ∪ ({[loop_list]} ∪ fs s);
             trace := trace s ++ [manifest; ERun join; ERun cut] |})
  else (Raise (CalledProcessError join),
        {| fs := {[loop_list]} ∪ fs s;
           trace := trace s ++ [manifest; ERun join] |}).
Proof.
  intros Hshort Hnz manifest. unfold prepare_upsell.
  destruct (Qle_bool upsell_needed upsell_duration) eqn:Hle;
    [by apply Qle_bool_iff in Hle |].
  simpl. unfold bind at 1. unfold lift, py_div.
  destruct (Qeq_bool upsell_duration 0) eqn:Hz;
    [by apply Qeq_bool_iff in Hz |].
  unfold bind, write_lines, run_ffmpeg. simpl.
  fold join cut copies. fold manifest.
  destruct (ffmpeg_ok W join); simpl.
  2: { by rewrite <- !app_assoc. }
  destruct (ffmpeg_ok W cut); simpl.
  2: { by rewrite <- !app_assoc. }
  unfold os_remove. simpl.
  rewrite bool_decide_eq_true_2 by set_solver. simpl.
  rewrite bool_decide_eq_true_2.
  2: { pose proof (loop_not_looped work_dir output_number). set_solver. }
  by rewrite <- !app_assoc.
Qed.

End UpsellSection.

(** *** The arithmetic of the loop *)

Lemma py_int_floor x : (0 <= x)%Q -> py_int x = Qfloor x.
Proof. intros H. unfold py_int. apply Qle_bool_iff in H. by rewrite H. Qed.

(** For a clip of positive duration shorter than the deficit, the loop
    manifest lists at least three copies, and they are longer than the
    deficit. *)
Lemma loop_copies_cover (upsell_duration upsell_needed : Q) :
  (0 < upsell_duration)%Q -> (upsell_duration < upsell_needed)%Q ->
  (3 <= loop_copies upsell_duration upsell_needed)%Z /\
  (upsell_needed
   < inject_Z (loop_copies upsell_duration upsell_needed) * upsell_duration)%Q.
Proof.
  intros Hpos Hshort. unfold loop_copies.
  set (x := (upsell_needed / upsell_duration)%Q).
  assert (x * upsell_duration == upsell_needed)%Q as Hx.
  { unfold x. field. lra. }
  assert (1 < x)%Q as Hone.
  { unfold x. apply Qlt_shift_div_l; lra. }
  rewrite py_int_floor by lra.
  assert (1 <= Qfloor x)%Z as Hfloor.
  { change 1%Z with (Qfloor (inject_Z 1)). apply Qfloor_resp_le.
    change (inject_Z 1) with 1%Q. lra. }
  split; [lia |].
  pose proof (Qlt_floor x) as Hlt.
  rewrite !inject_Z_plus in *. change (inject_Z 1) with 1%Q in *.
  nra.
Qed.

Section UpsellFiles.

Import UpsellReplacer.

Context (W : World) (upsell_video : string) (upsell_duration : Q)
        (enc : Profile) (work_dir : string) (output_number : nat)
        (upsell_needed : Q).

Local Abbreviation loop_list := (loop_path work_dir output_number).
Local Abbreviation looped := (looped_path work_dir output_number).
Local Abbreviation section := (upsell_path work_dir output_number).
Local Abbreviation prepare :=
  (prepare_upsell W upsell_video upsell_duration enc work_dir output_number
     upsell_needed).

(** Whatever happens, [prepare_upsell] removes none but its own two
    scratch files; when it returns, the upsell section is there and
    everything else it wrote is gone. *)
Lemma prepare_upsell_spec s :
  let r := prepare s in
  exists d,
    trace (snd r) = trace s ++ d /\
    fst r <> OutOfFuel /\
    (forall p, p ∈ fs s -> p <> loop_list -> p <> looped -> p ∈ fs (snd r)) /\
    (fst r = Ok tt ->
     section ∈ fs (snd r) /\
     forall p, p ∈ created d -> p = section \/ p ∉ fs (snd r)).
Proof.
  intros r. subst r.
  destruct (Qle_bool upsell_needed upsell_duration) eqn:Hle.
  - apply Qle_bool_iff in Hle. rewrite prepare_plain_run by done.
    destruct (ffmpeg_ok W _); simpl.
    + eexists. split; [done |]. split; [done |]. split; [set_solver |].
      intros _. split; [set_solver |].
      intros p ->%list_elem_of_singleton. by left.
    + eexists. split; [done |]. split; [done |]. split; done.
  - assert (~ (upsell_needed <= upsell_duration)%Q) as Hshort.
    { intros H. apply Qle_bool_iff in H. congruence. }
    destruct (Qeq_bool upsell_duration 0) eqn:Hz.
    + apply Qeq_bool_iff in Hz. rewrite prepare_zero_run by done.
      exists []. rewrite app_nil_r. split; [done |]. split; [done |].
      split; done.
    + assert (~ (upsell_duration == 0)%Q) as Hnz.
      { intros H. apply Qeq_bool_iff in H. congruence. }
      rewrite prepare_loop_run by done.
      pose proof (upsell_not_loop work_dir output_number).
      pose proof (upsell_not_looped work_dir output_number).
      destruct (ffmpeg_ok W (loop_join _ _ _)); simpl.
      2: { eexists. split; [done |]. split; [done |].
           split; [set_solver | done]. }
      destruct (ffmpeg_ok W (loop_cut _ _ _ _)); simpl.
      2: { eexists. split; [done |]. split; [done |].
           split; [set_solver | done]. }
      eexists. split; [done |]. split; [done |]. split; [set_solver |].
      intros _. split; [set_solver |].
      intros p Hp. simpl in Hp.
      repeat (apply elem_of_cons in Hp as [-> | Hp]);
        [right; set_solver | right; set_solver | by left |].
      by apply elem_of_nil in Hp.
Qed.

End UpsellFiles.

Lemma audio_not_loop wd i n :
  UpsellReplacer.original_audio_path wd i <> UpsellReplacer.loop_path wd n.
Proof. names_differ. Qed.

Lemma audio_not_looped wd i n :
  UpsellReplacer.original_audio_path wd i <> UpsellReplacer.looped_path wd n.
Proof. names_differ. Qed.

Lemma beginning_not_loop wd n :
  UpsellReplacer.original_beginning_path wd n <> UpsellReplacer.loop_path wd n.
Proof. names_differ. Qed.

Lemma beginning_not_looped wd n :
  UpsellReplacer.original_beginning_path wd n
  <> UpsellReplacer.looped_path wd n.
Proof. names_differ. Qed.

Lemma tail_cleanup_nodup wd i :
  NoDup [UpsellReplacer.original_audio_path wd i;
         UpsellReplacer.original_beginning_path wd (i + 1);
         UpsellReplacer.upsell_path wd (i + 1);
         UpsellReplacer.concat_path wd (i + 1);
         UpsellReplacer.combined_path wd (i + 1)].
Proof. names_nodup. Qed.

Section TailReplace.

Import UpsellReplacer.

Context (W : World) (upsell_video : string) (upsell_duration : Q)
        (start_time : Q) (enc : Profile) (work_dir folder_name : string)
        (video_files : list string) (i : nat) (video_file : string).

Local Abbreviation n := (i + 1).
Local Abbreviation original_audio := (original_audio_path work_dir i).
Local Abbreviation original_beginning := (original_beginning_path work_dir n).
Local Abbreviation section := (upsell_path work_dir n).
Local Abbreviation concat_list := (concat_path work_dir n).
Local Abbreviation combined := (combined_path work_dir n).
Local Abbreviation output := (output_path work_dir folder_name n).
Local Abbreviation extract := (ExtractAudio video_file original_audio).
Local Abbreviation head_cut :=
  (MuteEncode enc video_file (Some start_time) original_beginning).
Local Abbreviation process_video :=
  (UpsellReplacer.process_video W upsell_video upsell_duration start_time enc
     work_dir folder_name video_files i video_file).
Local Abbreviation last_stages :=
  (after_upsell W enc work_dir folder_name i).
Local Abbreviation cleanup_files := (tail_cleanup_list work_dir i).

Lemma tail_process_video_split s :
  process_video s =
  (print (MsgProcessing n (length video_files) video_file) ;;
   original_duration <- get_video_duration W video_file ;;
   run_ffmpeg W extract ;;
   run_ffmpeg W head_cut ;;
   prepare_upsell W upsell_video upsell_duration enc work_dir n
     (original_duration - start_time)%Q ;;
   last_stages) s.
Proof. reflexivity. Qed.

Local Arguments for_each : simpl never.
Local Arguments after_upsell : simpl never.

Lemma after_upsell_spec s :
  let r := last_stages s in
  exists d,
    trace (snd r) = trace s ++ d /\
    (forall p, p ∈ created d -> p ∈ [concat_list; combined; output]) /\
    fst r <> OutOfFuel /\
    (fst r = Ok tt ->
     fs (snd r) =
       ({[output]} ∪ ({[combined]} ∪ ({[concat_list]} ∪ fs s)))
         ∖ list_to_set cleanup_files) /\
    (forall c, fst r = Raise (CalledProcessError c) -> fs s ⊆ fs (snd r)) /\
    (original_audio ∈ fs s -> original_beginning ∈ fs s -> section ∈ fs s ->
     fst r = Ok tt ->
     exists q,
       d = [EWrite concat_list
              [manifest_line original_beginning; manifest_line section];
            ERun (ConcatScale enc concat_list combined);
            ERun (Mux combined original_audio output)] ++
           map ERemove cleanup_files ++
           [EProbe output; EPrint (MsgCreated n q)]).
Proof.
  intros r. subst r.
  destruct (last_stages s) as [r s'] eqn:Hrun.
  unfold after_upsell, bind, run_ffmpeg, write_lines in Hrun.
  simpl in Hrun.
  destruct (ffmpeg_ok W (ConcatScale _ _ _)); simpl in Hrun.
  2: { injection Hrun as <- <-. eexists. simpl.
       split; [by rewrite <- !app_assoc |]. simpl.
       split; [intros p Hp; set_solver |].
       split; [done |]. split; [done |]. split; [set_solver | done]. }
  destruct (ffmpeg_ok W (Mux _ _ _)); simpl in Hrun.
  2: { injection Hrun as <- <-. eexists. simpl.
       split; [by rewrite <- !app_assoc |]. simpl.
       split; [intros p Hp; set_solver |].
       split; [done |]. split; [done |]. split; [set_solver | done]. }
  match type of Hrun with
  | context [for_each ?l remove_if_exists ?s0] =>
      destruct (for_each_remove_list l s0) as (dc & Hclean & Hdc);
      pose proof (for_each_remove_all l s0 (tail_cleanup_nodup work_dir i))
        as Hall
  end.
  rewrite Hclean in Hall, Hrun. simpl in Hrun, Hall.
  rewrite get_video_duration_run in Hrun. simpl in Hrun.
  assert (Hcr : forall w, created w = [] -> forall p,
    p ∈ created ([EWrite concat_list
                    [manifest_line original_beginning; manifest_line section];
                  ERun (ConcatScale enc concat_list combined);
                  ERun (Mux combined original_audio output)] ++ dc ++ w) ->
    p ∈ [concat_list; combined; output]).
  { intros w Hw p. rewrite (created_app [_; _; _]), created_app,
      (removals_created dc Hdc), Hw. simpl. set_solver. }
  assert (Hexact : original_audio ∈ fs s -> original_beginning ∈ fs s ->
                   section ∈ fs s -> dc = map ERemove cleanup_files).
  { intros Ha Hb Hc. assert (forall p : string,
      p ∈ [original_audio; original_beginning; section; concat_list;
           combined] ->
      p ∈ {[output]} ∪ ({[combined]} ∪ ({[concat_list]} ∪ fs s))) as Hthere
      by set_solver.
    specialize (Hall Hthere). injection Hall as Hall.
    by apply app_inv_head in Hall. }
  destruct (clip_duration W output) as [q|e|] eqn:Hprobe; simpl in Hrun;
    injection Hrun as <- <-; simpl.
  - eexists. split; [by rewrite <- !app_assoc |].
    split; [apply (Hcr [_; _]); done |].
    split; [done |]. split; [done |]. split; [intros c Hc; discriminate Hc |].
    intros Ha Hb Hc _. exists q. by rewrite (Hexact Ha Hb Hc).
  - eexists. split; [by rewrite <- !app_assoc |].
    split; [apply (Hcr [_]); done |].
    split; [done |]. split; [done |]. split; [| done].
    intros c [= ->]. by destruct (clip_duration_raise _ _ _ Hprobe).
  - by apply clip_duration_fuel in Hprobe.
Qed.

(** One pass through the loop body: on success every file it wrote other
    than the output is gone, and the cleanup ran once, after the last
    transform; when a transform fails after the audio was extracted, the
    extracted audio is still there. *)
Lemma tail_replace_files s :
  let r := process_video s in
  (fst r = Ok tt ->
   (forall p, p ∈ created (new_events s (snd r)) -> p <> output ->
              p ∉ fs (snd r)) /\
   exists dprep q,
     new_events s (snd r) =
     [EPrint (MsgProcessing n (length video_files) video_file);
      EProbe video_file; ERun extract; ERun head_cut] ++ dprep ++
     [EWrite concat_list
        [manifest_line original_beginning; manifest_line section];
      ERun (ConcatScale enc concat_list combined);
      ERun (Mux combined original_audio output)] ++
     map ERemove cleanup_files ++
     [EProbe output; EPrint (MsgCreated n q)]) /\
  (forall c, fst r = Raise (CalledProcessError c) ->
             ffmpeg_ok W extract = true -> original_audio ∈ fs (snd r)).
Proof.
  intros r. subst r. destruct (process_video s) as [r s'] eqn:Hrun. simpl.
  rewrite tail_process_video_split in Hrun.
  unfold bind at 1 2 in Hrun. unfold print, emit in Hrun. simpl in Hrun.
  rewrite get_video_duration_run in Hrun. simpl in Hrun.
  destruct (clip_duration W video_file) as [od|e|] eqn:Hprobe.
  2: { injection Hrun as <- <-. split; [done |]. intros c [= ->].
       by destruct (clip_duration_raise _ _ _ Hprobe). }
  2: { by apply clip_duration_fuel in Hprobe. }
  unfold bind at 1 2 in Hrun. unfold run_ffmpeg in Hrun. simpl in Hrun.
  destruct (ffmpeg_ok W extract) eqn:Hextract; simpl in Hrun.
  2: { injection Hrun as <- <-. by split. }
  destruct (ffmpeg_ok W head_cut) eqn:Hhead; simpl in Hrun.
  2: { injection Hrun as <- <-. split; [done |]. intros c _ _. simpl.
       set_solver. }
  unfold bind in Hrun.
  match type of Hrun with
  | context [prepare_upsell _ _ _ _ _ _ _ ?s3] =>
      destruct (prepare_upsell_spec W upsell_video upsell_duration enc
                  work_dir n (od - start_time)%Q s3)
        as (dprep & Hdprep & _ & Hkeeps & Hprep);
      destruct (prepare_upsell W upsell_video upsell_duration enc work_dir n
                  (od - start_time)%Q s3) as [[[]|e|] s4] eqn:Hprun
  end; simpl in Hdprep, Hkeeps, Hprep, Hrun.
  - destruct (Hprep eq_refl) as [Hsection Hgone].
    assert (original_audio ∈ fs s4) as Haudio.
    { apply Hkeeps; [set_solver | apply audio_not_loop
                                 | apply audio_not_looped]. }
    assert (original_beginning ∈ fs s4) as Hbegin.
    { apply Hkeeps; [set_solver | apply beginning_not_loop
                                 | apply beginning_not_looped]. }
    destruct (after_upsell_spec s4) as (da & Hda & Hcr & _ & Hfs & Hfail
                                        & Honce).
    rewrite Hrun in Hda, Hfs, Hfail, Honce. simpl in Hda, Hfs, Hfail, Honce.
    split.
    + intros Hok.
      assert (new_events s s' =
              [EPrint (MsgProcessing n (length video_files) video_file);
               EProbe video_file; ERun extract; ERun head_cut]
              ++ dprep ++ da) as Hnew.
      { apply new_events_app. rewrite Hda, Hdprep.
        by rewrite <- !app_assoc. }
      split.
      * intros p Hp Hne. rewrite (Hfs Hok).
        rewrite Hnew, (created_app [_; _; _; _]), created_app,
          !elem_of_app in Hp.
        unfold cleanup_files.
        destruct Hp as [Hp | [Hp | Hp]].
        -- simpl in Hp. set_solver.
        -- destruct (Hgone p Hp) as [-> | Hnot]; set_solver.
        -- specialize (Hcr p Hp). set_solver.
      * destruct (Honce Haudio Hbegin Hsection Hok) as [q ->].
        by exists dprep, q.
    + intros c Hc _. by apply (Hfail c Hc).
  - injection Hrun as <- <-. split; [done |]. intros c _ _.
    apply Hkeeps; [set_solver | apply audio_not_loop | apply audio_not_looped].
  - injection Hrun as <- <-. by split.
Qed.

End TailReplace.

(** ** Cleanup of intermediates *)




Example failed_stage_state :
  let r := VideoReplacer.process_video seek_fails_world 5 "/videos/main.mp4"
             25 software_profile "/videos/videos" "videos" scenario_files 0
             "anchor.mp4" empty_state in
  fst r = Raise (CalledProcessError
                   (SeekMute software_profile "/videos/main.mp4" 25
                      "/videos/videos/temp_main_segment_1.mp4")) /\
  elements (fs (snd r)) =
    ["/videos/videos/main_audio_0.aac";
     "/videos/videos/temp_processed_1.mp4"].
Proof. vm_compute. done. Qed.

(** ** A failed transform ends the run *)

Section Orderly.

Context (W : World).

Lemma orderly_quiet {A} (m : M A) :
  (forall s, exists d, trace (snd (m s)) = trace s ++ d /\
                       Forall (succeeded W) d /\
                       forall c, fst (m s) <> Raise (CalledProcessError c)) ->
  orderly W m.
Proof.
  intros H s. destruct (H s) as (d & Hd & Hok & Hno).
  exists d. split; [done |]. left. by split.
Qed.

Lemma orderly_ret {A} (a : A) : orderly W (ret a).
Proof.
  apply orderly_quiet. intros s. exists []. rewrite app_nil_r.
  split; [done |]. split; [constructor | done].
Qed.

Lemma orderly_lift {A} (r : Res A) :
  (forall c, r <> Raise (CalledProcessError c)) -> orderly W (lift r).
Proof.
  intros Hr. apply orderly_quiet. intros s. exists []. rewrite app_nil_r.
  split; [done |]. split; [constructor | done].
Qed.

Lemma orderly_raise {A} (e : Exn) :
  (forall c, e <> CalledProcessError c) -> orderly W (@raise A e).
Proof.
  intros He. apply orderly_quiet. intros s. exists []. rewrite app_nil_r.
  split; [done |]. split; [constructor |]. intros c [= ->]. by eapply He.
Qed.

Lemma orderly_out_of_fuel {A} : orderly W (@out_of_fuel A).
Proof.
  apply orderly_quiet. intros s. exists []. rewrite app_nil_r.
  split; [done |]. split; [constructor | done].
Qed.

Lemma orderly_emit (e : Event) :
  (forall c, e <> ERun c) -> orderly W (emit e).
Proof.
  intros He. apply orderly_quiet. intros s. exists [e].
  split; [done |]. split; [| done].
  constructor; [| constructor]. intros c ->. by destruct (He c).
Qed.

Lemma orderly_print (m : Msg) : orderly W (print m).
Proof. by apply orderly_emit. Qed.

Lemma orderly_write p lines : orderly W (write_lines p lines).
Proof.
  apply orderly_quiet. intros s. exists [EWrite p lines].
  split; [done |]. split; [| done]. constructor; [| constructor]. by intros c.
Qed.

Lemma orderly_append p line : orderly W (append_line p line).
Proof.
  apply orderly_quiet. intros s. exists [EAppend p line].
  split; [done |]. split; [| done]. constructor; [| constructor]. by intros c.
Qed.

Lemma orderly_exists p : orderly W (os_path_exists p).
Proof.
  apply orderly_quiet. intros s. exists []. rewrite app_nil_r.
  split; [done |]. split; [constructor | done].
Qed.

Lemma orderly_remove p : orderly W (os_remove p).
Proof.
  apply orderly_quiet. intros s. unfold os_remove.
  case_bool_decide; simpl.
  - exists [ERemove p]. split; [done |]. split; [| done].
    constructor; [| constructor]. by intros c.
  - exists []. rewrite app_nil_r. split; [done |]. split; [constructor | done].
Qed.

Lemma orderly_run c : orderly W (run_ffmpeg W c).
Proof.
  intros s. unfold run_ffmpeg. exists [ERun c].
  destruct (ffmpeg_ok W c) eqn:Hok; simpl.
  - split; [done |]. left. split; [| done].
    constructor; [| constructor]. by intros c' [= <-].
  - split; [done |]. right. exists [], c.
    split; [done |]. split; [constructor | done].
Qed.

Lemma orderly_bind {A B} (m : M A) (k : A -> M B) :
  orderly W m -> (forall a, orderly W (k a)) -> orderly W (bind m k).
Proof.
  intros Hm Hk s. unfold bind.
  destruct (Hm s) as (d1 & Hd1 & Hcase).
  destruct (m s) as [[a|e|] s1]; simpl in *.
  - destruct Hcase as [[Hgood _] | (d' & c & _ & _ & _ & Hbad)]; [| done].
    destruct (Hk a s1) as (d2 & Hd2 & Hcase2).
    exists (d1 ++ d2). split; [by rewrite Hd2, Hd1, app_assoc |].
    destruct Hcase2 as [[Hgood2 Hno] | (d' & c & -> & Hd' & Hc & Hbad)].
    + left. split; [by apply Forall_app | done].
    + right. exists (d1 ++ d'), c. rewrite app_assoc.
      split; [done |]. split; [by apply Forall_app | done].
  - exists d1. split; [done |].
    destruct Hcase as [[Hgood Hno] | (d' & c & -> & Hd' & Hc & Hbad)].
    + left. split; [done |]. intros c [= ->]. by apply (Hno c).
    + right. exists d', c. injection Hbad as ->. by repeat split.
  - exists d1. split; [done |].
    destruct Hcase as [[Hgood Hno] | (d' & c & -> & Hd' & Hc & Hbad)];
      [left; by split | done].
Qed.

Lemma orderly_for_each {A} (l : list A) (f : A -> M unit) :
  (forall x, orderly W (f x)) -> orderly W (for_each l f).
Proof.
  intros Hf. induction l as [|x l IH]; simpl.
  - apply orderly_ret.
  - apply orderly_bind; [apply Hf | by intros _].
Qed.

Lemma orderly_probe p : orderly W (get_video_duration W p).
Proof.
  unfold get_video_duration. apply orderly_bind; [by apply orderly_emit |].
  intros _. destruct (ffprobe W p) as [result|].
  - apply orderly_lift. unfold parse_duration.
    by destruct (py_float W _).
  - by apply orderly_raise.
Qed.

Lemma orderly_remove_if_exists p : orderly W (remove_if_exists p).
Proof.
  unfold remove_if_exists. apply orderly_bind; [apply orderly_exists |].
  intros [|]; [apply orderly_remove | apply orderly_ret].
Qed.

Lemma orderly_fatal {A} what : orderly W (@fatal A what).
Proof.
  unfold fatal. apply orderly_bind; [apply orderly_print |].
  intros _. by apply orderly_raise.
Qed.

End Orderly.

Section OrderlyScript.

Import VideoReplacer.

Context (W : World).

Lemma orderly_add_filler enc wd n vf ci ls :
  orderly W (add_filler W enc wd n vf ci ls).
Proof.
  unfold add_filler. apply orderly_bind.
  { apply orderly_lift. intros c Hc.
    by apply filler_video_index_raise in Hc as [_ ?]. }
  intros i. apply orderly_bind.
  { apply orderly_lift. unfold py_index. by destruct (vf !! i). }
  intros fv. apply orderly_bind; [apply orderly_probe |].
  intros fd. apply orderly_bind.
  { destruct (Qeq_bool _ _); apply orderly_run. }
  intros _. apply orderly_bind; [apply orderly_append |].
  intros _. destruct (_ <? _).
  - apply orderly_bind; [apply orderly_print | intros _; apply orderly_ret].
  - apply orderly_ret.
Qed.

Lemma orderly_fill enc wd n vf ci fuel ls :
  orderly W (fill W enc wd n vf ci fuel ls).
Proof.
  revert ls. induction fuel as [|fuel IH]; intros ls; simpl.
  - apply orderly_out_of_fuel.
  - destruct (loop_cond vf ls); [| apply orderly_ret].
    apply orderly_bind; [apply orderly_add_filler |].
    intros [ls' [|]]; simpl; [apply orderly_ret | apply IH].
Qed.

Lemma orderly_finish enc wd n ls :
  orderly W (finish_composite W enc wd n ls).
Proof.
  unfold finish_composite.
  apply orderly_bind; [apply orderly_run | intros _].
  apply orderly_bind; [apply orderly_remove | intros _].
  apply orderly_bind.
  { apply orderly_for_each. intros j. apply orderly_remove_if_exists. }
  intros _. apply orderly_bind; [apply orderly_remove | intros _].
  apply orderly_bind; [apply orderly_print | intros _; apply orderly_ret].
Qed.

Lemma orderly_prv target enc wd n vf ci fuel video_file :
  orderly W (process_replacement_video W target enc wd n vf ci fuel
               video_file).
Proof.
  unfold process_replacement_video.
  apply orderly_bind; [apply orderly_probe | intros d].
  destruct (Qle_bool target d).
  - apply orderly_bind; [apply orderly_run | intros _; apply orderly_ret].
  - apply orderly_bind; [apply orderly_run | intros _].
    apply orderly_bind; [apply orderly_write | intros _].
    apply orderly_bind; [apply orderly_fill | intros ls].
    apply orderly_finish.
Qed.

Lemma orderly_process_video fuel main_video target enc wd folder vf i
    video_file :
  orderly W (process_video W fuel main_video target enc wd folder vf i
               video_file).
Proof.
  unfold process_video.
  apply orderly_bind; [apply orderly_print | intros _].
  apply orderly_bind; [apply orderly_run | intros _].
  apply orderly_bind; [apply orderly_prv | intros pf].
  apply orderly_bind; [apply orderly_run | intros _].
  apply orderly_bind; [apply orderly_write | intros _].
  apply orderly_bind; [apply orderly_run | intros _].
  apply orderly_bind; [apply orderly_run | intros _].
  apply orderly_bind.
  { apply orderly_for_each. intros p. apply orderly_remove_if_exists. }
  intros _. apply orderly_bind; [apply orderly_probe | intros q].
  apply orderly_print.
Qed.

Lemma orderly_makedirs p : orderly W (os_makedirs W p).
Proof.
  apply orderly_quiet. intros s. unfold os_makedirs.
  case_bool_decide; simpl.
  - exists []. rewrite app_nil_r. split; [done |]. split; [constructor | done].
  - destruct (_ || _); simpl.
    + exists []. rewrite app_nil_r. split; [done |].
      split; [constructor | done].
    + exists [EMakedirs p]. split; [done |]. split; [| done].
      constructor; [| constructor]. by intros c.
Qed.

Lemma orderly_main fuel a : orderly W (main W fuel a).
Proof.
  unfold main.
  destruct (negb (check_ffmpeg W)); [apply orderly_fatal |].
  destruct (negb (isfile W _)); [apply orderly_fatal |].
  destruct (negb (isdir W _)); [apply orderly_fatal |].
  apply orderly_bind.
  { destruct (py_float W _); [apply orderly_ret | by apply orderly_raise]. }
  intros target. apply orderly_bind; [apply orderly_makedirs | intros _].
  case_bool_decide; [apply orderly_fatal |].
  apply orderly_bind.
  { apply orderly_for_each. intros iv. apply orderly_process_video. }
  intros _. apply orderly_bind; [apply orderly_print | intros _].
  apply orderly_bind; [apply orderly_exists | intros e].
  apply orderly_bind.
  { destruct e; [| apply orderly_ret].
    apply orderly_bind; [apply orderly_probe | intros q; apply orderly_print]. }
  intros _. apply orderly_print.
Qed.

End OrderlyScript.

(** C2, as amended. In [video_replacer.py], a transform that exits
    non-zero ends the whole run, not only the file being processed: it is
    the last thing the script does before it prints the error and exits
    with status 1, and every transform before it had succeeded. No later
    file of the batch is processed. *)
Theorem failed_transform_ends_batch (W : World) (fuel : nat)
    (a : VideoReplacer.Answers) (s : St) (c : Cmd) :
  let r := VideoReplacer.script W fuel a s in
  ERun c ∈ new_events s (snd r) ->
  ffmpeg_ok W c = false ->
  fst r = Ok 1%Z /\
  exists before,
    new_events s (snd r) =
      before ++ [ERun c; EPrint (MsgError (CalledProcessError c))] /\
    Forall (succeeded W) before.
Proof.
  intros r Hin Hfail. subst r.
  destruct (orderly_main W fuel a s) as (d & Hd & Hcase).
  assert (Hclean : Forall (succeeded W) d -> ERun c ∉ d).
  { intros Hall Hc. rewrite Forall_forall in Hall.
    specialize (Hall _ Hc c eq_refl). congruence. }
  unfold VideoReplacer.script in *.
  destruct (VideoReplacer.main W fuel a s) as [[u|e|] s1]; simpl in *.
  - rewrite (new_events_app _ _ _ Hd) in Hin.
    destruct Hcase as [[Hgood _] | (d' & c0 & _ & _ & _ & Hbad)]; [| done].
    by destruct (Hclean Hgood).
  - destruct Hcase as [[Hgood Hno] | (d' & c0 & -> & Hd' & Hc0 & [= ->])].
    + exfalso. destruct e; simpl in *.
      all: try (rewrite (new_events_app _ _ _ Hd) in Hin;
                by destruct (Hclean Hgood)).
      all: erewrite new_events_app in Hin
             by (simpl; rewrite Hd, <- app_assoc; reflexivity);
           apply elem_of_app in Hin as [Hin | Hin];
           [by destruct (Hclean Hgood) | set_solver].
    + simpl in *. split; [done |].
      erewrite new_events_app in Hin
        by (rewrite Hd, <- !app_assoc; reflexivity).
      erewrite new_events_app by (rewrite Hd, <- !app_assoc; reflexivity).
      assert (c = c0) as ->.
      { apply elem_of_app in Hin as [Hin | Hin].
        - rewrite Forall_forall in Hd'.
          specialize (Hd' _ Hin c eq_refl). congruence.
        - simpl in Hin. set_solver. }
      by exists d'.
  - rewrite (new_events_app _ _ _ Hd) in Hin.
    destruct Hcase as [[Hgood _] | (d' & c0 & _ & _ & _ & Hbad)]; [| done].
    by destruct (Hclean Hgood).
Qed.

Lemma failed_transform_ends_batch_witness :
  let c := SeekMute software_profile "/videos/main.mp4" 25
             "/videos/videos/temp_main_segment_1.mp4" in
  let r := VideoReplacer.script seek_fails_world 5 scenario_answers
             empty_state in
  ERun c ∈ new_events empty_state (snd r) /\
  ffmpeg_ok seek_fails_world c = false /\
  fst r = Ok 1%Z.
Proof.
  intros c r.
  assert (ERun c ∈ new_events empty_state (snd r)) as Hin.
  { assert (nth_error (rev (new_events empty_state (snd r))) 1
            = Some (ERun c)) as Hnth by (vm_compute; reflexivity).
    apply nth_error_In, in_rev in Hnth. by apply list_elem_of_In. }
  split; [exact Hin |]. split; [reflexivity |].
  exact (proj1 (failed_transform_ends_batch seek_fails_world 5
                  scenario_answers empty_state c Hin eq_refl)).
Defined.

(** C2, counterexample. The third stage of the first of four files fails:
    the second file is never started. *)
Lemma batch_stops_at_first_failure :
  ~ batch_survives_failures seek_fails_world 5 scenario_answers empty_state.
Proof.
  intros H. unfold batch_survives_failures in H. cbv zeta in H.
  specialize (H 2).
  assert (started (new_events empty_state
                     (snd (VideoReplacer.script seek_fails_world 5
                             scenario_answers empty_state))) = [1]) as Hs
    by (vm_compute; reflexivity).
  rewrite Hs in H.
  assert (2 ∈ [1]) as Hin by (apply H; change (1 <= 2 <= 4); lia).
  apply list_elem_of_singleton in Hin. discriminate.
Qed.

(** ** The looped upsell section *)

Section UpsellLoop.

Import UpsellReplacer.

Context (W : World) (upsell_video : string) (upsell_duration : Q)
        (enc : Profile) (work_dir : string).

(** In the loop body, once the probe, the audio extraction and the head
    cut went through, the upsell section is prepared for the deficit
    [original_duration - start_time], and its events are part of the
    trace. *)
Lemma tail_pass_prepares start_time folder_name video_files i video_file
    original_duration s :
  clip_duration W video_file = Ok original_duration ->
  ffmpeg_ok W (ExtractAudio video_file (original_audio_path work_dir i))
    = true ->
  ffmpeg_ok W (MuteEncode enc video_file (Some start_time)
                 (original_beginning_path work_dir (i + 1))) = true ->
  exists s3 before rest,
    trace s3 = trace s ++ before /\
    new_events s
      (snd (process_video W upsell_video upsell_duration start_time enc
              work_dir folder_name video_files i video_file s))
    = before ++
      new_events s3
        (snd (prepare_upsell W upsell_video upsell_duration enc work_dir
                (i + 1) (original_duration - start_time)%Q s3)) ++ rest.
Proof.
  intros Hprobe Hextract Hhead.
  rewrite tail_process_video_split.
  unfold bind at 1 2. unfold print, emit. simpl.
  rewrite get_video_duration_run, Hprobe. simpl.
  unfold bind at 1 2. unfold run_ffmpeg. simpl.
  rewrite Hextract. simpl. rewrite Hhead. simpl. unfold bind.
  match goal with
  | |- context [prepare_upsell _ _ _ _ _ _ _ ?s0] => set (s3 := s0)
  end.
  exists s3.
  destruct (prepare_upsell_spec W upsell_video upsell_duration enc
              work_dir (i + 1) (original_duration - start_time)%Q s3)
    as (dprep & Hdprep & _).
  rewrite (new_events_app _ _ _ Hdprep).
  assert (trace s3 = trace s ++
            [EPrint (MsgProcessing (i + 1) (length video_files) video_file);
             EProbe video_file;
             ERun (ExtractAudio video_file (original_audio_path work_dir i));
             ERun (MuteEncode enc video_file (Some start_time)
                     (original_beginning_path work_dir (i + 1)))]) as Hs3.
  { subst s3. simpl. by rewrite <- !app_assoc. }
  destruct (prepare_upsell W upsell_video upsell_duration enc work_dir
              (i + 1) (original_duration - start_time)%Q s3)
    as [[[]|e|] s4] eqn:Hprun; cbn [fst snd] in Hdprep |- *.
  - destruct (after_upsell_spec W enc work_dir folder_name i s4)
      as (da & Hda & _).
    eexists _, da. split; [exact Hs3 |].
    apply new_events_app. rewrite Hda, Hdprep, Hs3.
    by rewrite <- !app_assoc.
  - eexists _, []. split; [exact Hs3 |]. rewrite app_nil_r.
    apply new_events_app. rewrite Hdprep, Hs3. by rewrite <- !app_assoc.
  - eexists _, []. split; [exact Hs3 |]. rewrite app_nil_r.
    apply new_events_app. rewrite Hdprep, Hs3. by rewrite <- !app_assoc.
Qed.

End UpsellLoop.

(** C7, as amended. For an upsell clip of positive duration that is
    shorter than the deficit, [prepare_upsell] writes a loop manifest with
    [int(deficit / duration) + 2] references to the clip, at least three,
    whose total duration is strictly greater than the deficit; it joins
    them and, when the join succeeds, cuts the joined artifact to exactly
    the deficit. In the loop body the deficit is
    [original_duration - start_time]. *)
Theorem upsell_loop_covers_deficit (W : World) (upsell_video : string)
    (upsell_duration : Q) (enc : Profile) (work_dir : string)
    (output_number : nat) (upsell_needed : Q) (s : St) :
  (0 < upsell_duration)%Q ->
  (upsell_duration < upsell_needed)%Q ->
  let copies := (py_int (upsell_needed / upsell_duration) + 2)%Z in
  let loop_list := UpsellReplacer.loop_path work_dir in
  let looped := UpsellReplacer.looped_path work_dir in
  let section := UpsellReplacer.upsell_path work_dir in
  let manifest :=
    EWrite (loop_list output_number)
      (repeat (manifest_line upsell_video) (Z.to_nat copies)) in
  let join :=
    ConcatEncode enc (loop_list output_number) true (looped output_number) in
  let cut :=
    MuteEncode enc (looped output_number) (Some upsell_needed)
      (section output_number) in
  let r := UpsellReplacer.prepare_upsell W upsell_video upsell_duration enc
             work_dir output_number upsell_needed s in
  (3 <= copies)%Z /\
  (upsell_needed < inject_Z copies * upsell_duration)%Q /\
  new_events s (snd r) =
    [manifest; ERun join] ++
    (if ffmpeg_ok W join
     then ERun cut ::
          (if ffmpeg_ok W cut
           then [ERemove (loop_list output_number);
                 ERemove (looped output_number)]
           else [])
     else []) /\
  (fst r = Ok tt <-> ffmpeg_ok W join = true /\ ffmpeg_ok W cut = true) /\
  (forall start_time folder_name video_files i video_file original_duration
          s0,
     clip_duration W video_file = Ok original_duration ->
     (upsell_duration < original_duration - start_time)%Q ->
     ffmpeg_ok W (ExtractAudio video_file
                    (UpsellReplacer.original_audio_path work_dir i)) = true ->
     ffmpeg_ok W (MuteEncode enc video_file (Some start_time)
                    (UpsellReplacer.original_beginning_path work_dir (i + 1)))
       = true ->
     ffmpeg_ok W (ConcatEncode enc (loop_list (i + 1)) true (looped (i + 1)))
       = true ->
     ERun (MuteEncode enc (looped (i + 1))
             (Some (original_duration - start_time)%Q) (section (i + 1)))
     ∈ new_events s0
         (snd (UpsellReplacer.process_video W upsell_video upsell_duration
                 start_time enc work_dir folder_name video_files i
                 video_file s0))).
Proof.
  intros Hpos Hshort copies loop_list looped section manifest join cut r.
  destruct (loop_copies_cover upsell_duration upsell_needed Hpos Hshort)
    as [Hthree Hcover].
  assert (loop_copies upsell_duration upsell_needed = copies) as Hcopies
    by (unfold loop_copies; subst copies; lia).
  rewrite Hcopies in Hthree, Hcover.
  split; [exact Hthree |]. split; [exact Hcover |].
  assert (forall needed n s1,
    (upsell_duration < needed)%Q ->
    new_events s1
      (snd (UpsellReplacer.prepare_upsell W upsell_video upsell_duration enc
              work_dir n needed s1)) =
    [EWrite (loop_list n)
       (repeat (manifest_line upsell_video)
          (Z.to_nat (loop_copies upsell_duration needed)));
     ERun (ConcatEncode enc (loop_list n) true (looped n))] ++
    (if ffmpeg_ok W (ConcatEncode enc (loop_list n) true (looped n))
     then ERun (MuteEncode enc (looped n) (Some needed) (section n)) ::
          (if ffmpeg_ok W (MuteEncode enc (looped n) (Some needed)
                             (section n))
           then [ERemove (loop_list n); ERemove (looped n)]
           else [])
     else []) /\
    (fst (UpsellReplacer.prepare_upsell W upsell_video upsell_duration enc
            work_dir n needed s1) = Ok tt <->
     ffmpeg_ok W (ConcatEncode enc (loop_list n) true (looped n)) = true /\
     ffmpeg_ok W (MuteEncode enc (looped n) (Some needed) (section n))
       = true)) as Hrun.
  { intros needed n s1 Hlt.
    rewrite prepare_loop_run by lra.
    unfold loop_join, loop_cut. fold (loop_list n) (looped n) (section n).
    destruct (ffmpeg_ok W (ConcatEncode _ _ _ _)); simpl.
    - destruct (ffmpeg_ok W (MuteEncode _ _ _ _)); simpl.
      + split; [by apply new_events_app | done].
      + split; [by apply new_events_app |]. split; [done | by intros []].
    - split; [by apply new_events_app |]. split; [done | by intros []]. }
  destruct (Hrun upsell_needed output_number s Hshort) as [Hnew Hiff].
  rewrite Hcopies in Hnew.
  split; [exact Hnew |]. split; [exact Hiff |].
  intros start_time folder_name video_files i video_file original_duration
    s0 Hprobe Hlt Hextract Hhead Hjoin.
  destruct (tail_pass_prepares W upsell_video upsell_duration enc work_dir
              start_time folder_name video_files i video_file
              original_duration s0 Hprobe Hextract Hhead)
    as (s3 & before & rest & _ & ->).
  destruct (Hrun (original_duration - start_time)%Q (i + 1) s3 Hlt)
    as [-> _].
  rewrite Hjoin. set_solver.
Qed.

Lemma upsell_loop_covers_deficit_witness :
  (0 < 5)%Q /\ (5 < 12)%Q /\
  (3 <= py_int (12 / 5) + 2)%Z /\
  (12 < inject_Z (py_int (12 / 5) + 2) * 5)%Q /\
  (fst (UpsellReplacer.prepare_upsell scenario_world "upsell.mp4" 5
          software_profile "/videos/videos" 1 12 empty_state) = Ok tt <->
   ffmpeg_ok scenario_world
     (ConcatEncode software_profile
        (UpsellReplacer.loop_path "/videos/videos" 1) true
        (UpsellReplacer.looped_path "/videos/videos" 1)) = true /\
   ffmpeg_ok scenario_world
     (MuteEncode software_profile
        (UpsellReplacer.looped_path "/videos/videos" 1) (Some 12%Q)
        (UpsellReplacer.upsell_path "/videos/videos" 1)) = true).
Proof.
  assert (0 < 5)%Q as Hpos by reflexivity.
  assert (5 < 12)%Q as Hshort by reflexivity.
  destruct (upsell_loop_covers_deficit scenario_world "upsell.mp4" 5
              software_profile "/videos/videos" 1 12 empty_state Hpos Hshort)
    as (Hthree & Hcover & _ & Hiff & _).
  split; [exact Hpos |]. split; [exact Hshort |].
  split; [exact Hthree |]. split; [exact Hcover | exact Hiff].
Defined.

(** C7, counterexample. An upsell clip of duration zero and a deficit of
    five seconds: the division raises, and no manifest is written. *)
Lemma zero_length_upsell_raises :
  ~ loop_manifest_covers scenario_world "upsell.mp4" 0 software_profile
      "/videos/videos" 1 5 empty_state.
Proof.
  intros H. destruct H as [Hin _]; [reflexivity |].
  assert (new_events empty_state
            (snd (UpsellReplacer.prepare_upsell scenario_world "upsell.mp4" 0
                    software_profile "/videos/videos" 1 5 empty_state))
          = []) as Hnone by (vm_compute; reflexivity).
  rewrite Hnone in Hin. by apply elem_of_nil in Hin.
Qed.

Example zero_length_upsell_outcome :
  fst (UpsellReplacer.prepare_upsell scenario_world "upsell.mp4" 0
         software_profile "/videos/videos" 1 5 empty_state)
  = Raise ZeroDivisionError.
Proof. vm_compute. reflexivity. Qed.

(** ** Cleaning a typed path *)

Lemma replace_absent old new s :
  str_in old s = false -> str_replace old new s = s.
Proof.
  unfold str_replace. induction s as [|c s IH]; [done |].
  cbn [str_in]. intros [Hhead Htail]%orb_false_iff.
  cbn [replace_from]. rewrite Hhead. f_equal. by apply IH.
Qed.

Lemma startswith_cons a p b s :
  startswith (String a p) (String b s) = Ascii.eqb a b && startswith p s.
Proof. reflexivity. Qed.

Lemma escape_spaces_head s : startswith space (escape_spaces s) = false.
Proof.
  destruct s as [|c s]; [done |]. cbn [escape_spaces].
  destruct (Ascii.eqb c " ") eqn:Hc; [done |].
  unfold space. rewrite startswith_cons. by rewrite Ascii.eqb_sym, Hc.
Qed.

Lemma replace_escape_spaces s :
  str_replace escaped_space space (escape_spaces s) = s.
Proof.
  unfold str_replace. induction s as [|c s IH]; [done |].
  cbn [escape_spaces]. destruct (Ascii.eqb c " ") eqn:Hc.
  - apply Ascii.eqb_eq in Hc as ->.
    change (replace_from escaped_space space 0
              (escaped_space +:+ escape_spaces s))
      with (String " " (replace_from escaped_space space 0 (escape_spaces s))).
    by rewrite IH.
  - cbn [replace_from].
    replace (startswith escaped_space (String c (escape_spaces s)))
      with false.
    + by rewrite IH.
    + unfold escaped_space. rewrite startswith_cons.
      fold space. by rewrite escape_spaces_head, andb_false_r.
Qed.

Lemma append_cons a s t : String a s +:+ t = String a (s +:+ t).
Proof. reflexivity. Qed.

Lemma append_assoc (s t u : string) : (s +:+ t) +:+ u = s +:+ (t +:+ u).
Proof.
  induction s as [|a s IH]; [done |]. rewrite !append_cons. by rewrite IH.
Qed.

Lemma snoc_not_empty s c : s +:+ String c "" <> "".
Proof. by destruct s. Qed.

Lemma rstrip_snoc s c :
  is_space c = false -> rstrip (s +:+ String c "") = s +:+ String c "".
Proof.
  intros Hc. induction s as [|a s IH].
  - change (rstrip ("" +:+ String c "")) with (if is_space c then "" else String c "").
    by rewrite Hc.
  - rewrite append_cons. cbn [rstrip]. rewrite IH.
    pose proof (snoc_not_empty s c) as Hne.
    by destruct (s +:+ String c "").
Qed.

Lemma endswith_app suffix s : endswith suffix (s +:+ suffix) = true.
Proof.
  induction s as [|a s IH].
  - change ("" +:+ suffix) with suffix.
    destruct suffix; cbn [endswith]; by rewrite String.eqb_refl.
  - rewrite append_cons. cbn [endswith]. by rewrite IH, orb_true_r.
Qed.

Lemma drop_last_snoc s c : drop_last (s +:+ String c "") = s.
Proof.
  induction s as [|a s IH]; [done |].
  rewrite append_cons. cbn [drop_last]. rewrite IH.
  pose proof (snoc_not_empty s c) as Hne.
  by destruct (s +:+ String c "").
Qed.

Lemma escaped_space_cons c s :
  c <> "\"%char ->
  str_in escaped_space (String c s) = str_in escaped_space s.
Proof.
  intros Hc. cbn [str_in]. unfold escaped_space at 1.
  rewrite startswith_cons.
  destruct (Ascii.eqb_spec "\" c) as [<- | _]; done.
Qed.

Lemma startswith_space_snoc s c :
  c <> " "%char ->
  startswith space (s +:+ String c "") = startswith space s.
Proof.
  intros Hc. destruct s as [|a s]; [| done].
  change (startswith space ("" +:+ String c ""))
    with (Ascii.eqb " " c && true).
  destruct (Ascii.eqb_spec " " c) as [<- | _]; done.
Qed.

Lemma escaped_space_snoc s c :
  c <> " "%char ->
  str_in escaped_space (s +:+ String c "") = str_in escaped_space s.
Proof.
  intros Hc. induction s as [|a s IH].
  - change (str_in escaped_space ("" +:+ String c ""))
      with ((Ascii.eqb "\" c && false) || false).
    by rewrite andb_false_r.
  - rewrite append_cons. cbn [str_in]. rewrite IH. f_equal.
    unfold escaped_space. rewrite !startswith_cons. fold space.
    by rewrite startswith_space_snoc.
Qed.

(** A path between two quote characters [q]. *)
Lemma quoted_cleaned (q : ascii) (body : string) :
  is_space q = false -> q <> "\"%char -> q <> " "%char ->
  str_in escaped_space body = false ->
  strip (str_replace escaped_space space
           (String q "" +:+ body +:+ String q ""))
  = String q "" +:+ body +:+ String q "".
Proof.
  intros Hsp Hbs Hbl Hbody.
  rewrite replace_absent.
  - unfold strip.
    change (lstrip (String q "" +:+ body +:+ String q ""))
      with (if is_space q then lstrip (body +:+ String q "")
            else String q (body +:+ String q "")).
    rewrite Hsp.
    change (String q (body +:+ String q ""))
      with (String q body +:+ String q "").
    by rewrite rstrip_snoc.
  - change (String q "" +:+ body +:+ String q "")
      with (String q (body +:+ String q "")).
    by rewrite escaped_space_cons, escaped_space_snoc.
Qed.

(** X1. [clean_path] gives back a path that is typed between quotes: one
    pair of single quotes is taken off, whatever is inside; a pair of
    double quotes is taken off and then, when what is left sits between
    single quotes, those as well. *)
Theorem clean_path_unquotes (body : string) :
  str_in escaped_space body = false ->
  clean_path (single_quote +:+ body +:+ single_quote) = body /\
  clean_path (double_quote +:+ body +:+ double_quote) =
    (if startswith single_quote body && endswith single_quote body
     then slice_1_m1 body else body).
Proof.
  intros Hbody. unfold clean_path. cbv zeta. split.
  - unfold single_quote.
    rewrite (quoted_cleaned "'" body); [| done | done | done | done].
    change (startswith double_quote (String "'" "" +:+ body +:+ String "'" ""))
      with false.
    cbn [andb].
    change (startswith (String "'" "")
              (String "'" "" +:+ body +:+ String "'" ""))
      with true.
    rewrite <- append_assoc, endswith_app. cbn [andb].
    rewrite append_assoc.
    change (slice_1_m1 (String "'" "" +:+ body +:+ String "'" ""))
      with (drop_last (body +:+ String "'" "")).
    apply drop_last_snoc.
  - unfold double_quote.
    rewrite (quoted_cleaned (ascii_of_nat 34) body); [| done | done | done | done].
    set (dq := String (ascii_of_nat 34) "").
    change (startswith dq (dq +:+ body +:+ dq)) with true.
    rewrite <- append_assoc, endswith_app. cbn [andb].
    rewrite append_assoc.
    change (slice_1_m1 (dq +:+ body +:+ dq)) with (drop_last (body +:+ dq)).
    subst dq. by rewrite drop_last_snoc.
Qed.

Lemma clean_path_unquotes_witness :
  clean_path "'/clips/my file.mp4'" = "/clips/my file.mp4".
Proof.
  exact (proj1 (clean_path_unquotes "/clips/my file.mp4" eq_refl)).
Defined.

(** [str.strip] takes a no-break space off the end of a path, as it takes
    a blank. *)
Example strip_no_break_space :
  strip ("/clips/a" +:+ String (ascii_of_nat 160) "") = "/clips/a" /\
  clean_path ("/clips/a" +:+ String (ascii_of_nat 160) "") = "/clips/a".
Proof. split; vm_compute; reflexivity. Qed.

(** X2. A path without surrounding white space and quotes comes back from
    [clean_path] as it was when every space of it was typed with a
    backslash in front, and also when it was typed as it is and holds no
    backslash followed by a space. *)
Theorem clean_path_unescapes (p : string) :
  strip p = p ->
  startswith double_quote p && endswith double_quote p = false ->
  startswith single_quote p && endswith single_quote p = false ->
  clean_path (escape_spaces p) = p /\
  (str_in escaped_space p = false -> clean_path p = p).
Proof.
  intros Hstrip Hdq Hsq. unfold clean_path. split.
  - by rewrite replace_escape_spaces, Hstrip, Hdq, Hsq.
  - intros Hraw. by rewrite replace_absent, Hstrip, Hdq, Hsq.
Qed.

Lemma clean_path_unescapes_witness :
  clean_path "/clips/my\ best\ file.mp4" = "/clips/my best file.mp4".
Proof.
  exact (proj1 (clean_path_unescapes "/clips/my best file.mp4"
                  eq_refl eq_refl eq_refl)).
Defined.

(** ** The rotation of the filler index *)

Lemma mod_wrap a d len :
  a < len -> d <= len ->
  (a + d) mod len = if a + d <? len then a + d else a + d - len.
Proof.
  intros Ha Hd. destruct (a + d <? len) eqn:Hlt.
  - apply Nat.ltb_lt in Hlt. by apply Nat.mod_small.
  - apply Nat.ltb_ge in Hlt.
    symmetry. apply (Nat.mod_unique _ _ 1); lia.
Qed.

Lemma filler_video_index_plain ci k len :
  ci < len -> k < len - 1 ->
  VideoReplacer.filler_video_index ci k len
  = Ok (if ci + 1 + k <? len then ci + 1 + k else ci + 1 + k - len).
Proof.
  intros Hci Hk. unfold VideoReplacer.filler_video_index, py_mod.
  destruct (len =? 0) eqn:Hlen; [apply Nat.eqb_eq in Hlen; lia |].
  replace (ci + 1 + k) with (ci + (1 + k)) by lia.
  rewrite mod_wrap by lia.
  destruct (ci + (1 + k) <? len) eqn:Hlt.
  - destruct (ci + (1 + k) =? ci) eqn:Heq; [| done].
    apply Nat.eqb_eq in Heq. lia.
  - apply Nat.ltb_ge in Hlt.
    destruct (ci + (1 + k) - len =? ci) eqn:Heq; [| done].
    apply Nat.eqb_eq in Heq. lia.
Qed.

(** X3. For a current index inside a pool of [len] clips the filler index
    never raises and stays inside the pool; the first [len - 1] fillers are
    the other clips, each once, in cyclic order after the current one; the
    two fillers the loop can still take after them both go back to the
    first filler's clip. *)
Theorem filler_rotation (current_index len : nat) :
  current_index < len ->
  (forall k, exists i,
     VideoReplacer.filler_video_index current_index k len = Ok i /\ i < len) /\
  (forall k, k < len - 1 ->
     VideoReplacer.filler_video_index current_index k len
     = Ok ((current_index + 1 + k) mod len)) /\
  (forall k k', k < len - 1 -> k' < len - 1 ->
     VideoReplacer.filler_video_index current_index k len
     = VideoReplacer.filler_video_index current_index k' len -> k = k') /\
  (forall j, j < len -> j <> current_index ->
     exists k, k < len - 1 /\
       VideoReplacer.filler_video_index current_index k len = Ok j) /\
  VideoReplacer.filler_video_index current_index (len - 1) len
  = Ok ((current_index + 1) mod len) /\
  VideoReplacer.filler_video_index current_index len len
  = Ok ((current_index + 1) mod len).
Proof.
  intros Hci. repeat split.
  - intros k.
    destruct (VideoReplacer.filler_video_index current_index k len)
      as [i|e|] eqn:Hi.
    + exists i. split; [done | by eapply filler_video_index_lt].
    + apply filler_video_index_raise in Hi as [Hi _]. lia.
    + by apply filler_video_index_fuel in Hi.
  - intros k Hk. rewrite filler_video_index_plain by done.
    replace (current_index + 1 + k) with (current_index + (1 + k)) by lia.
    by rewrite mod_wrap by lia.
  - intros k k' Hk Hk'. rewrite !filler_video_index_plain by done.
    intros [= Heq].
    destruct (current_index + 1 + k <? len) eqn:H1;
      destruct (current_index + 1 + k' <? len) eqn:H2;
      try apply Nat.ltb_lt in H1; try apply Nat.ltb_ge in H1;
      try apply Nat.ltb_lt in H2; try apply Nat.ltb_ge in H2; lia.
  - intros j Hj Hne.
    destruct (decide (current_index < j)) as [Hgt | Hle].
    + exists (j - current_index - 1). split; [lia |].
      rewrite filler_video_index_plain by lia.
      destruct (_ <? len) eqn:H1;
        [| apply Nat.ltb_ge in H1; lia].
      f_equal. lia.
    + exists (j + len - current_index - 1). split; [lia |].
      rewrite filler_video_index_plain by lia.
      destruct (_ <? len) eqn:H1;
        [apply Nat.ltb_lt in H1; lia |].
      f_equal. lia.
  - unfold VideoReplacer.filler_video_index, py_mod.
    destruct (len =? 0) eqn:Hlen; [apply Nat.eqb_eq in Hlen; lia |].
    replace (current_index + 1 + (len - 1)) with (current_index + len) by lia.
    rewrite mod_wrap by lia.
    replace (current_index + len <? len) with false
      by (symmetry; apply Nat.ltb_ge; lia).
    replace (current_index + len - len) with current_index by lia.
    by rewrite Nat.eqb_refl.
  - unfold VideoReplacer.filler_video_index, py_mod.
    destruct (len =? 0) eqn:Hlen; [apply Nat.eqb_eq in Hlen; lia |].
    replace (current_index + 1 + len) with (current_index + 1 + 1 * len)
      by lia.
    rewrite Nat.Div0.mod_add.
    destruct (_ =? current_index) eqn:Heq; [| done].
    apply Nat.eqb_eq in Heq.
    assert (len = 1) as ->.
    { pose proof (mod_wrap current_index 1 len Hci ltac:(lia)) as Hw.
      rewrite Heq in Hw. destruct (current_index + 1 <? len) eqn:H1; [lia |].
      apply Nat.ltb_ge in H1. lia. }
    by rewrite !Nat.mod_1_r.
Qed.

Lemma filler_rotation_witness :
  VideoReplacer.filler_video_index 2 0 4 = Ok 3 /\
  VideoReplacer.filler_video_index 2 1 4 = Ok 0 /\
  VideoReplacer.filler_video_index 2 2 4 = Ok 1 /\
  VideoReplacer.filler_video_index 2 3 4 = Ok 3 /\
  VideoReplacer.filler_video_index 2 4 4 = Ok 3.
Proof.
  assert (2 < 4) as Hin by lia.
  destruct (filler_rotation 2 4 Hin) as (_ & Hrot & _ & _ & H3 & H4).
  split; [apply (Hrot 0); simpl; lia |].
  split; [apply (Hrot 1); simpl; lia |].
  split; [apply (Hrot 2); simpl; lia |].
  split; [exact H3 | exact H4].
Defined.

(** ** The looped upsell section is longer than it has to be *)

(** X4. For an upsell clip of positive duration shorter than the deficit,
    the loop manifest is the first thing [prepare_upsell] writes, all its
    lines name the upsell clip, and the copies it lists last for more than
    the deficit plus one whole clip and for at most the deficit plus two:
    the manifest would cover the deficit without its last line. *)
Theorem upsell_loop_spare_copy (W : World) (upsell_video : string)
    (upsell_duration : Q) (enc : Profile) (work_dir : string)
    (output_number : nat) (upsell_needed : Q) (s : St) :
  (0 < upsell_duration)%Q ->
  (upsell_duration < upsell_needed)%Q ->
  exists lines rest,
    new_events s
      (snd (UpsellReplacer.prepare_upsell W upsell_video upsell_duration enc
              work_dir output_number upsell_needed s))
    = EWrite (UpsellReplacer.loop_path work_dir output_number) lines :: rest /\
    Forall (fun l => l = manifest_line upsell_video) lines /\
    (upsell_needed + upsell_duration
     < inject_Z (Z.of_nat (length lines)) * upsell_duration)%Q /\
    (inject_Z (Z.of_nat (length lines)) * upsell_duration
     <= upsell_needed + 2 * upsell_duration)%Q.
Proof.
  intros Hpos Hshort.
  assert (~ (upsell_needed <= upsell_duration)%Q) as Hnot by lra.
  assert (~ (upsell_duration == 0)%Q) as Hnz by lra.
  pose proof (prepare_loop_run W upsell_video upsell_duration enc work_dir
                output_number upsell_needed s Hnot Hnz) as Hrun.
  cbv zeta in Hrun.
  set (k := loop_copies upsell_duration upsell_needed) in *.
  exists (repeat (manifest_line upsell_video) (Z.to_nat k)).
  assert (exists rest,
    new_events s
      (snd (UpsellReplacer.prepare_upsell W upsell_video upsell_duration enc
              work_dir output_number upsell_needed s))
    = EWrite (UpsellReplacer.loop_path work_dir output_number)
        (repeat (manifest_line upsell_video) (Z.to_nat k)) :: rest)
    as [rest Hrest].
  { rewrite Hrun.
    destruct (ffmpeg_ok W (loop_join _ _ _));
      [destruct (ffmpeg_ok W (loop_cut _ _ _ _)) |];
      eexists; apply new_events_app; simpl; reflexivity. }
  exists rest. split; [exact Hrest |]. split.
  { generalize (Z.to_nat k). intros j. induction j; by constructor. }
  rewrite repeat_length.
  destruct (loop_copies_cover upsell_duration upsell_needed Hpos Hshort)
    as [Hthree _]. fold k in Hthree.
  rewrite Z2Nat.id by lia.
  subst k. unfold loop_copies.
  set (x := (upsell_needed / upsell_duration)%Q).
  assert (x * upsell_duration == upsell_needed)%Q as Hx.
  { unfold x. field. lra. }
  assert (1 < x)%Q as Hone.
  { unfold x. apply Qlt_shift_div_l; lra. }
  rewrite py_int_floor by lra.
  pose proof (Qlt_floor x) as Hlt.
  pose proof (Qfloor_le x) as Hle.
  rewrite !inject_Z_plus in *. change (inject_Z 1) with 1%Q in *.
  split; nra.
Qed.

Lemma upsell_loop_spare_copy_witness :
  exists lines rest,
    new_events empty_state
      (snd (UpsellReplacer.prepare_upsell scenario_world "upsell.mp4" 5
              software_profile "/videos/videos" 1 12 empty_state))
    = EWrite (UpsellReplacer.loop_path "/videos/videos" 1) lines :: rest /\
    Forall (fun l => l = manifest_line "upsell.mp4") lines /\
    (12 + 5 < inject_Z (Z.of_nat (length lines)) * 5)%Q /\
    (inject_Z (Z.of_nat (length lines)) * 5 <= 12 + 2 * 5)%Q.
Proof.
  apply (upsell_loop_spare_copy scenario_world "upsell.mp4" 5
           software_profile "/videos/videos" 1 12 empty_state);
    reflexivity.
Defined.

(** ** Output names *)

Lemma append_length s t :
  String.length (s +:+ t) = String.length s + String.length t.
Proof.
  induction s as [|a s IH]; [done |]. rewrite append_cons. simpl. by rewrite IH.
Qed.

Lemma append_inv_tail (a b w : string) : a +:+ w = b +:+ w -> a = b.
Proof.
  revert b. induction a as [|x a IH]; intros [|y b] H.
  - done.
  - apply (f_equal String.length) in H.
    change ("" +:+ w) with w in H. rewrite append_length in H. simpl in H. lia.
  - apply (f_equal String.length) in H.
    change ("" +:+ w) with w in H. rewrite append_length in H. simpl in H. lia.
  - rewrite !append_cons in H. injection H as -> H. f_equal. by apply IH.
Qed.

Lemma os_path_join_inj_same w a b :
  startswith "/" a = startswith "/" b ->
  os_path_join w a = os_path_join w b -> a = b.
Proof.
  unfold os_path_join. intros <-.
  destruct (startswith "/" a); [done |].
  destruct (bool_decide (w = "") || endswith_sep w).
  - apply append_inv_head.
  - intros H. apply append_inv_head in H. by injection H.
Qed.

Lemma output_name_inj folder n m :
  folder +:+ "_" +:+ str n +:+ ".mp4" = folder +:+ "_" +:+ str m +:+ ".mp4" ->
  n = m.
Proof.
  intros H. apply append_inv_head in H.
  change ("_" +:+ str n +:+ ".mp4") with (String "_" (str n +:+ ".mp4")) in H.
  change ("_" +:+ str m +:+ ".mp4") with (String "_" (str m +:+ ".mp4")) in H.
  injection H as H. apply append_inv_tail in H.
  by apply pretty_nat_inj in H.
Qed.

Lemma output_name_head folder n m :
  startswith "/" (folder +:+ "_" +:+ str n +:+ ".mp4")
  = startswith "/" (folder +:+ "_" +:+ str m +:+ ".mp4").
Proof. by destruct folder. Qed.

(** X5. The output files of one batch have pairwise different paths, in
    [video_replacer.py] and in [upsell_video_replacer.py]: no output is
    written over by the output of another input file. *)
Theorem outputs_distinct (work_dir folder_name : string) (n m : nat) :
  (VideoReplacer.output_path work_dir folder_name n
   = VideoReplacer.output_path work_dir folder_name m -> n = m) /\
  (UpsellReplacer.output_path work_dir folder_name n
   = UpsellReplacer.output_path work_dir folder_name m -> n = m).
Proof.
  split; intros H;
    apply os_path_join_inj_same in H;
    try apply output_name_head; by apply output_name_inj in H.
Qed.

(** ** Only the last segment is cut *)

Lemma whole_but_last_all plan :
  Forall (fun st => trimSeconds st = None) plan -> whole_but_last plan.
Proof.
  intros Hall k st Hk _. rewrite Forall_forall in Hall.
  apply Hall. by eapply list_elem_of_lookup_2.
Qed.

Lemma whole_but_last_snoc plan st :
  Forall (fun st => trimSeconds st = None) plan ->
  whole_but_last (plan ++ [st]).
Proof.
  intros Hall k st' Hk Hlen. rewrite length_app in Hlen. simpl in Hlen.
  rewrite lookup_app_l in Hk by lia.
  rewrite Forall_forall in Hall. apply Hall. by eapply list_elem_of_lookup_2.
Qed.

Lemma whole_but_last_cons st plan :
  trimSeconds st = None -> whole_but_last plan -> whole_but_last (st :: plan).
Proof.
  intros Hst Hplan [|k] st' Hk Hlen; simpl in *.
  - by injection Hk as <-.
  - apply (Hplan k); [done | lia].
Qed.

Section LastCut.

Import VideoReplacer.

Context (W : World) (enc : Profile) (work_dir : string) (output_number : nat)
        (video_files : list string) (current_index : nat).

Local Abbreviation fill :=
  (VideoReplacer.fill W enc work_dir output_number video_files current_index).

(** A filler that is cut closes the deficit. *)
Lemma cut_filler_ends fd ls :
  Qeq_bool (py_min fd (remaining_needed ls)) fd = false ->
  loop_cond video_files
    (next_loop fd ls) = false.
Proof.
  intros Hcut. unfold loop_cond, next_loop. simpl.
  unfold py_min in *.
  destruct (Qle_bool fd (remaining_needed ls)).
  - by rewrite Qeq_bool_refl in Hcut.
  - replace (Qle_bool (remaining_needed ls - remaining_needed ls) 0) with true;
      [done |].
    symmetry. apply Qle_bool_iff. lra.
Qed.

Lemma fill_cuts_last fuel ls0 s0 :
  exists d,
    trace (snd (fill fuel ls0 s0)) = trace s0 ++ d /\
    whole_but_last (plan_steps d).
Proof.
  apply (fill_inv W enc work_dir output_number video_files current_index
    (fun ls s => exists d, trace s = trace s0 ++ d /\
       (Forall (fun st => trimSeconds st = None) (plan_steps d) \/
        (loop_cond video_files ls = false /\ whole_but_last (plan_steps d))))
    (fun _ s => exists d, trace s = trace s0 ++ d /\
                          whole_but_last (plan_steps d))).
  - intros ls s (d & Hd & [Hall | [_ Hlast]]) _; exists d;
      (split; [done |]); [by apply whole_but_last_all | done].
  - intros ls s (d & Hd & [Hall | [_ Hlast]]); exists d;
      (split; [done |]); [by apply whole_but_last_all | done].
  - intros ls s r s' (d & Hd & Hcase) Hcond Hp.
    destruct Hcase as [Hall | [Hoff _]]; [| congruence].
    inversion Hp; subst; simpl.
    + exists d. split; [done | by apply whole_but_last_all].
    + exists d. split; [done | by apply whole_but_last_all].
    + exists (d ++ [EProbe fv]). split; [by rewrite Hd, app_assoc |].
      rewrite plan_steps_app. simpl. rewrite app_nil_r.
      by apply whole_but_last_all.
    + eexists (d ++ [EProbe fv; ERun _]).
      split; [by rewrite Hd, app_assoc |].
      rewrite plan_steps_app. by apply whole_but_last_snoc.
    + set (cmd := filler_cmd enc work_dir output_number fv fd ls) in *.
      assert (Hnew : forall w, plan_steps w = [] ->
        exists st,
          plan_steps (d ++ [EProbe fv; ERun cmd;
                            EAppend manifest (manifest_line segment)] ++ w)
          = plan_steps d ++ [st] /\
          trimSeconds st =
            (if Qeq_bool (py_min fd (remaining_needed ls)) fd
             then None else Some (py_min fd (remaining_needed ls)))).
      { intros w Hw. eexists. rewrite !plan_steps_app, Hw, app_nil_r.
        split; reflexivity. }
      subst brk.
      destruct (length video_files <? filler_index ls + 1) eqn:Hbrk.
      * destruct (Hnew [EPrint (MsgUsedAll
                   (current_duration (next_loop fd ls)))] eq_refl)
          as (st & Hst & _).
        exists (d ++ [EProbe fv; ERun cmd;
                      EAppend manifest (manifest_line segment)] ++
                  [EPrint (MsgUsedAll (current_duration (next_loop fd ls)))]).
        split; [rewrite Hd, <- app_assoc; reflexivity |].
        rewrite Hst. by apply whole_but_last_snoc.
      * destruct (Hnew [] eq_refl) as (st & Hst & Htrim).
        exists (d ++ [EProbe fv; ERun cmd;
                      EAppend manifest (manifest_line segment)] ++ []).
        split; [rewrite Hd, <- app_assoc; reflexivity |].
        rewrite Hst.
        destruct (Qeq_bool (py_min fd (remaining_needed ls)) fd) eqn:Hcut.
        -- left. apply Forall_app. split; [done |]. by repeat constructor.
        -- right. split; [by apply cut_filler_ends |].
           by apply whole_but_last_snoc.
  - exists []. rewrite app_nil_r. split; [done |]. left. constructor.
Qed.

End LastCut.

(** X6. In the plan of every run of [process_replacement_video], whatever
    its outcome, every step but the last takes its clip whole: the only
    segment that is ever cut is the last one. *)
Theorem only_last_step_cut (W : World) (target_length : Q) (enc : Profile)
    (work_dir : string) (output_number : nat) (video_files : list string)
    (current_index fuel : nat) (video_file : string) (s : St) :
  whole_but_last
    (plan_steps
       (new_events s
          (snd (VideoReplacer.process_replacement_video W target_length enc
                  work_dir output_number video_files current_index fuel
                  video_file s)))).
Proof.
  destruct (clip_duration W video_file) as [duration|e|] eqn:Hprobe.
  - destruct (Qle_bool target_length duration) eqn:Hle.
    + apply Qle_bool_iff in Hle.
      rewrite (prv_long_run W target_length enc work_dir output_number
                 video_files current_index fuel video_file duration s
                 Hprobe Hle).
      destruct (ffmpeg_ok W _); unfold logged;
        (erewrite new_events_app; [| simpl; reflexivity]);
        intros [|k] st Hk Hlen; simpl in *; lia.
    + assert (~ (target_length <= duration)%Q) as Hshort.
      { intros H. apply Qle_bool_iff in H. congruence. }
      destruct (ffmpeg_ok W (MuteEncode enc video_file None
                  (VideoReplacer.original_path work_dir output_number)))
        eqn:Hwhole.
      * destruct (prv_short_trace W target_length enc work_dir output_number
                    video_files current_index fuel video_file duration s
                    Hprobe Hshort Hwhole)
          as (dfill & dtail & Hfill & Htrace & Hquiet & _).
        rewrite (new_events_app _ _ _ Htrace).
        destruct (fill_cuts_last W enc work_dir output_number video_files
                    current_index fuel (start_loop target_length duration)
                    {| fs := {[VideoReplacer.segments_path work_dir output_number]}
                             ∪ ({[VideoReplacer.original_path work_dir
                                    output_number]} ∪ fs s);
                       trace := trace s ++
                         [EProbe video_file;
                          ERun (MuteEncode enc video_file None
                                  (VideoReplacer.original_path work_dir
                                     output_number));
                          EWrite (VideoReplacer.segments_path work_dir
                                    output_number)
                            [manifest_line
                               (VideoReplacer.original_path work_dir
                                  output_number)]] |})
          as (d & Hd & Hlast).
        rewrite Hfill in Hd. apply app_inv_head in Hd. subst d.
        rewrite !plan_steps_app, (quiet_plan dtail Hquiet), app_nil_r.
        by apply whole_but_last_cons.
      * rewrite (prv_short_run W target_length enc work_dir output_number
                   video_files current_index fuel video_file duration s
                   Hprobe Hshort).
        rewrite Hwhole. unfold logged.
        erewrite new_events_app; [| simpl; reflexivity].
        intros [|k] st Hk Hlen; simpl in *; lia.
  - rewrite (prv_probe_failed W target_length enc work_dir output_number
               video_files current_index fuel video_file e s Hprobe).
    unfold logged. erewrite new_events_app; [| simpl; reflexivity].
    intros k st Hk. by destruct k.
  - by apply clip_duration_fuel in Hprobe.
Qed.
(** ** An empty pool *)

(** X7. With an empty pool and an anchor shorter than the target,
    [process_replacement_video] raises [ZeroDivisionError] at the first
    filler index, after it has built the anchor's segment and written the
    manifest; both files stay behind. *)
Theorem empty_pool_raises (W : World) (target_length : Q) (enc : Profile)
    (work_dir : string) (output_number current_index fuel : nat)
    (video_file : string) (duration : Q) (s : St) :
  clip_duration W video_file = Ok duration ->
  (duration < target_length)%Q ->
  ffmpeg_ok W (MuteEncode enc video_file None
                 (VideoReplacer.original_path work_dir output_number)) = true ->
  0 < fuel ->
  VideoReplacer.process_replacement_video W target_length enc work_dir
    output_number [] current_index fuel video_file s
  = (Raise ZeroDivisionError,
     anchor_state enc work_dir output_number video_file s).
Proof.
  intros Hprobe Hshort Hwhole Hfuel.
  assert (~ (target_length <= duration)%Q) as Hnot by lra.
  rewrite (prv_short_run W target_length enc work_dir output_number []
             current_index fuel video_file duration s Hprobe Hnot).
  rewrite Hwhole. destruct fuel as [|fuel]; [lia |].
  cbn [VideoReplacer.fill].
  replace (VideoReplacer.loop_cond [] (start_loop target_length duration))
    with true.
  - reflexivity.
  - unfold VideoReplacer.loop_cond, start_loop. simpl.
    destruct (Qle_bool (target_length - duration) 0) eqn:Hle; [| done].
    apply Qle_bool_iff in Hle. lra.
Qed.

Lemma empty_pool_raises_witness :
  VideoReplacer.process_replacement_video scenario_world 25 software_profile
    "/videos/videos" 1 [] 0 1 "anchor.mp4" empty_state
  = (Raise ZeroDivisionError,
     anchor_state software_profile "/videos/videos" 1 "anchor.mp4"
       empty_state).
Proof.
  apply (empty_pool_raises scenario_world 25 software_profile
           "/videos/videos" 1 0 1 "anchor.mp4" (10 # 1)%Q empty_state);
    [reflexivity | reflexivity | reflexivity | lia].
Defined.

(** ** What the warning counts *)

Section Warning.

Import VideoReplacer.

Context (W : World) (enc : Profile) (work_dir : string) (output_number : nat)
        (video_files : list string) (current_index : nat).

Local Abbreviation fill :=
  (VideoReplacer.fill W enc work_dir output_number video_files current_index).

Lemma fill_warns fuel ls0 s0 :
  filler_index ls0 <= length video_files ->
  exists d,
    trace (snd (fill fuel ls0 s0)) = trace s0 ++ d /\
    forall ls', fst (fill fuel ls0 s0) = Ok ls' ->
      (partial_coverage d = true <->
       filler_index ls' = length video_files + 1).
Proof.
  intros Hstart.
  apply (fill_inv W enc work_dir output_number video_files current_index
    (fun ls s => exists d, trace s = trace s0 ++ d /\
                           partial_coverage d = false /\
                           filler_index ls <= length video_files)
    (fun r s => exists d, trace s = trace s0 ++ d /\
       forall ls', r = Ok ls' ->
         (partial_coverage d = true <->
          filler_index ls' = length video_files + 1))).
  - intros ls s (d & Hd & Hcov & Hfi) _. exists d. split; [done |].
    intros ls' [= <-]. rewrite Hcov. split; [done | lia].
  - intros ls s (d & Hd & _). exists d. by split.
  - intros ls s r s' (d & Hd & Hcov & Hfi) _ Hp.
    inversion Hp; subst; simpl.
    + exists d. by split.
    + exists d. by split.
    + exists (d ++ [EProbe fv]). split; [by rewrite Hd, app_assoc | done].
    + eexists (d ++ [EProbe fv; ERun _]).
      split; [by rewrite Hd, app_assoc | done].
    + set (cmd := filler_cmd enc work_dir output_number fv fd ls) in *.
      subst brk.
      destruct (length video_files <? filler_index ls + 1) eqn:Hbrk.
      * apply Nat.ltb_lt in Hbrk.
        exists (d ++ [EProbe fv; ERun cmd;
                      EAppend manifest (manifest_line segment)] ++
                  [EPrint (MsgUsedAll (current_duration (next_loop fd ls)))]).
        split; [rewrite Hd, <- app_assoc; reflexivity |].
        intros ls' [= <-]. rewrite !partial_coverage_app. simpl.
        rewrite orb_true_r. split; [lia | done].
      * apply Nat.ltb_ge in Hbrk.
        exists (d ++ [EProbe fv; ERun cmd;
                      EAppend manifest (manifest_line segment)] ++ []).
        split; [rewrite Hd, <- app_assoc; reflexivity |].
        rewrite !partial_coverage_app, Hcov. simpl. split; [done | lia].
  - exists []. rewrite app_nil_r. by split.
Qed.

End Warning.

(** X8. When [process_replacement_video] returns, the "used all available
    videos" warning was printed exactly when [len(video_files) + 1] fillers
    were joined to the anchor: the warning reports how many fillers were
    taken, whether or not the last of them closed the deficit. *)
Theorem warning_counts_fillers (W : World) (target_length : Q)
    (enc : Profile) (work_dir : string) (output_number : nat)
    (video_files : list string) (current_index fuel : nat)
    (video_file : string) (s : St) (x : string) :
  let r := VideoReplacer.process_replacement_video W target_length enc
             work_dir output_number video_files current_index fuel
             video_file s in
  fst r = Ok x ->
  (partial_coverage (new_events s (snd r)) = true <->
   length (filler_steps (new_events s (snd r))) = length video_files + 1).
Proof.
  intros r Hret. subst r.
  destruct (clip_duration W video_file) as [duration|e|] eqn:Hprobe.
  - destruct (Qle_bool target_length duration) eqn:Hle.
    + apply Qle_bool_iff in Hle.
      rewrite (prv_long_run W target_length enc work_dir output_number
                 video_files current_index fuel video_file duration s
                 Hprobe Hle) in *.
      destruct (ffmpeg_ok W _); [| done]. simpl.
      erewrite new_events_app; [| simpl; reflexivity].
      split; [done |]. unfold filler_steps. simpl. lia.
    + assert (~ (target_length <= duration)%Q) as Hshort.
      { intros H. apply Qle_bool_iff in H. congruence. }
      destruct (ffmpeg_ok W (MuteEncode enc video_file None
                  (VideoReplacer.original_path work_dir output_number)))
        eqn:Hwhole.
      * destruct (prv_short_trace W target_length enc work_dir output_number
                    video_files current_index fuel video_file duration s
                    Hprobe Hshort Hwhole)
          as (dfill & dtail & Hfill & Htrace & Hquiet & _ & Hok & _).
        destruct (Hok x Hret) as (_ & ls & Hls & _).
        rewrite (new_events_app _ _ _ Htrace).
        rewrite (short_trace_fillers enc work_dir output_number video_file
                   dfill dtail Hquiet).
        destruct (short_trace_total W enc work_dir output_number video_file
                    duration dfill dtail Hprobe Hquiet) as [_ Hcov].
        cbv zeta in Hcov. rewrite Hcov.
        destruct (fill_accounts W enc work_dir output_number video_files
                    current_index fuel (start_loop target_length duration)
                    (anchor_state enc work_dir output_number video_file s))
          as (d1 & Hd1 & _ & Hacc); [simpl; lia |].
        destruct (fill_warns W enc work_dir output_number video_files
                    current_index fuel (start_loop target_length duration)
                    (anchor_state enc work_dir output_number video_file s))
          as (d2 & Hd2 & Hwarn); [simpl; lia |].
        assert (d1 = dfill) as ->.
        { eapply app_inv_head. etrans; [symmetry; exact Hd1 | exact Hfill]. }
        assert (d2 = dfill) as ->.
        { eapply app_inv_head. etrans; [symmetry; exact Hd2 | exact Hfill]. }
        destruct (Hacc ls Hls) as (Hlen & _).
        rewrite (Hwarn ls Hls), Hlen. simpl. lia.
      * rewrite (prv_short_run W target_length enc work_dir output_number
                   video_files current_index fuel video_file duration s
                   Hprobe Hshort) in Hret.
        by rewrite Hwhole in Hret.
  - by rewrite (prv_probe_failed W target_length enc work_dir output_number
               video_files current_index fuel video_file e s Hprobe) in Hret.
  - by apply clip_duration_fuel in Hprobe.
Qed.

(** The clip that is its own pool, three times as long a target: the
    second filler closes the deficit and the warning is printed all the
    same. *)
Lemma warning_counts_fillers_witness :
  let r := VideoReplacer.process_replacement_video lone_world 30
             software_profile "/videos/videos" 1 ["a.mp4"] 0 3 "a.mp4"
             empty_state in
  let d := new_events empty_state (snd r) in
  fst r = Ok (VideoReplacer.processed_path "/videos/videos" 1) /\
  partial_coverage d = true /\
  (total_duration lone_world (plan_steps d) == 30)%Q.
Proof.
  intros r d.
  assert (fst r = Ok (VideoReplacer.processed_path "/videos/videos" 1))
    as Hret by (vm_compute; reflexivity).
  split; [exact Hret |]. split.
  - apply (warning_counts_fillers lone_world 30 software_profile
             "/videos/videos" 1 ["a.mp4"] 0 3 "a.mp4" empty_state _ Hret).
    vm_compute. reflexivity.
  - vm_compute. reflexivity.
Defined.
(** ** The manifest of the composite *)

Lemma file_lines_app p d d' :
  file_lines p (d ++ d') = foldl (file_event p) (file_lines p d) d'.
Proof. unfold file_lines. by rewrite foldl_app. Qed.

(** The first occurrence of an event splits a list in one way only. *)
Lemma split_at_first {A} (x : A) (b c a t : list A) :
  x ∉ a -> x ∉ t -> b ++ x :: c = a ++ x :: t -> b = a.
Proof.
  revert a. induction b as [|y b IH]; intros [|z a] Ha Ht H; simpl in H.
  - done.
  - injection H as <- _. set_solver.
  - injection H as -> H. exfalso. apply Ht. rewrite <- H. set_solver.
  - injection H as -> H. f_equal. apply (IH a); [set_solver | done | done].
Qed.

Section Manifest.

Import VideoReplacer.

Context (W : World) (enc : Profile) (work_dir : string) (output_number : nat)
        (video_files : list string) (current_index : nat).

Local Abbreviation fill :=
  (VideoReplacer.fill W enc work_dir output_number video_files current_index).
Local Abbreviation segments := (segments_path work_dir output_number).

(** When the loop returns, it has added to the manifest one line for each
    of its steps, in order. *)
Lemma fill_manifest fuel ls0 s0 :
  exists d,
    trace (snd (fill fuel ls0 s0)) = trace s0 ++ d /\
    Forall loop_event d /\
    forall ls', fst (fill fuel ls0 s0) = Ok ls' ->
      forall lines,
        foldl (file_event segments) lines d
        = lines ++ map (fun st => manifest_line (artifact st)) (plan_steps d).
Proof.
  set (ok := fun d => forall lines,
        foldl (file_event segments) lines d
        = lines ++ map (fun st => manifest_line (artifact st)) (plan_steps d)).
  apply (fill_inv W enc work_dir output_number video_files current_index
    (fun ls s => exists d, trace s = trace s0 ++ d /\ Forall loop_event d /\
                           ok d)
    (fun r s => exists d, trace s = trace s0 ++ d /\ Forall loop_event d /\
                          forall ls', r = Ok ls' -> ok d)).
  - intros ls s (d & Hd & Hev & Hok) _. exists d. by repeat split.
  - intros ls s (d & Hd & Hev & _). exists d. by repeat split.
  - intros ls s r s' (d & Hd & Hev & Hok) _ Hp.
    inversion Hp; subst; simpl.
    + exists d. by repeat split.
    + exists d. by repeat split.
    + exists (d ++ [EProbe fv]). split; [by rewrite Hd, app_assoc |].
      split; [| done]. apply Forall_app. split; [done |].
      by repeat constructor.
    + eexists (d ++ [EProbe fv; ERun _]).
      split; [by rewrite Hd, app_assoc |].
      split; [| done]. apply Forall_app. split; [done |].
      by repeat constructor.
    + set (cmd := filler_cmd enc work_dir output_number fv fd ls) in *.
      assert (Hnew : forall w,
        Forall loop_event w -> plan_steps w = [] ->
        (forall lines, foldl (file_event segments) lines w = lines) ->
        Forall loop_event
          (d ++ [EProbe fv; ERun cmd;
                 EAppend manifest (manifest_line segment)] ++ w) /\
        ok (d ++ [EProbe fv; ERun cmd;
                  EAppend manifest (manifest_line segment)] ++ w)).
      { intros w Hw Hplan Hsame. split.
        - apply Forall_app. split; [done |]. apply Forall_app. split; [| done].
          by repeat constructor.
        - intros lines. rewrite !foldl_app, Hsame, !plan_steps_app, Hplan.
          rewrite app_nil_r, Hok, map_app, app_assoc. simpl.
          subst manifest. by rewrite bool_decide_eq_true_2. }
      subst brk.
      destruct (length video_files <? filler_index ls + 1) eqn:Hbrk.
      * destruct (Hnew [EPrint (MsgUsedAll
                   (current_duration (next_loop fd ls)))])
          as [Hev' Hok']; [by repeat constructor | done | done |].
        exists (d ++ [EProbe fv; ERun cmd;
                      EAppend manifest (manifest_line segment)] ++
                  [EPrint (MsgUsedAll (current_duration (next_loop fd ls)))]).
        split; [rewrite Hd, <- app_assoc; reflexivity |]. by split.
      * destruct (Hnew []) as [Hev' Hok']; [constructor | done | done |].
        exists (d ++ [EProbe fv; ERun cmd;
                      EAppend manifest (manifest_line segment)] ++ []).
        split; [rewrite Hd, <- app_assoc; reflexivity |]. by split.
  - exists []. rewrite app_nil_r. split; [done |]. split; [constructor |].
    intros lines. simpl. by rewrite app_nil_r.
Qed.

End Manifest.

Lemma tidy_not_join d c : Forall tidy_event d -> (forall p, c <> ERemove p) ->
  (forall m, c <> EPrint m) -> c ∉ d.
Proof.
  intros Htidy Hr Hp Hin. rewrite Forall_forall in Htidy.
  destruct (Htidy c Hin) as [[p ->] | [q ->]]; [by eapply Hr | by eapply Hp].
Qed.

Lemma loop_not_join d p m an out :
  Forall loop_event d -> ERun (ConcatEncode p m an out) ∉ d.
Proof.
  intros Hloop Hin. rewrite Forall_forall in Hloop.
  destruct (Hloop _ Hin) as [_ Hj]. by eapply Hj.
Qed.

Lemma prefix_succeeded W (b c d : list Event) (x : Event) :
  Forall (succeeded W) d \/
  (exists d' e, d = d' ++ [e] /\ Forall (succeeded W) d') ->
  d = b ++ x :: c -> Forall (succeeded W) b.
Proof.
  intros [Hall | (d' & e & -> & Hall)] Hd.
  - subst d. by apply Forall_app in Hall as [Hb _].
  - destruct (decide (c = [])) as [-> | Hne].
    + apply app_inj_tail in Hd as [-> _]. done.
    + destruct (exists_last Hne) as (c' & y & ->).
      rewrite app_comm_cons, app_assoc in Hd.
      apply app_inj_tail in Hd as [-> _].
      by apply Forall_app in Hall as [Hb _].
Qed.

(** X9. When [process_replacement_video] runs the command that joins the
    segments, the manifest it joins holds one line for each step of the
    plan, naming the step's artifact, in plan order; every transform before
    the join has succeeded and no file has been removed yet, so that every
    segment the manifest names is in place. *)
Theorem manifest_lists_plan (W : World) (target_length : Q) (enc : Profile)
    (work_dir : string) (output_number : nat) (video_files : list string)
    (current_index fuel : nat) (video_file : string) (s : St)
    (before after : list Event) :
  let segments := VideoReplacer.segments_path work_dir output_number in
  let processed := VideoReplacer.processed_path work_dir output_number in
  new_events s
    (snd (VideoReplacer.process_replacement_video W target_length enc
            work_dir output_number video_files current_index fuel video_file
            s))
  = before ++ ERun (ConcatEncode enc segments false processed) :: after ->
  file_lines segments before
  = map (fun st => manifest_line (artifact st)) (plan_steps before) /\
  plan_steps after = [] /\
  Forall (succeeded W) before /\
  (forall p, ERemove p ∉ before).
Proof.
  intros segments processed Hsplit.
  set (join := ERun (ConcatEncode enc segments false processed)) in *.
  assert (Forall (succeeded W) before) as Hsucc.
  { destruct (orderly_prv W target_length enc work_dir output_number
                video_files current_index fuel video_file s)
      as (d & Hd & Hcase).
    rewrite (new_events_app _ _ _ Hd) in Hsplit.
    eapply prefix_succeeded; [| exact Hsplit].
    destruct Hcase as [[Hall _] | (d' & c & -> & Hall & _)];
      [by left | right; by exists d', (ERun c)]. }
  assert (join ∈ new_events s
            (snd (VideoReplacer.process_replacement_video W target_length enc
                    work_dir output_number video_files current_index fuel
                    video_file s))) as Hin.
  { rewrite Hsplit. set_solver. }
  destruct (clip_duration W video_file) as [duration|e|] eqn:Hprobe.
  - destruct (Qle_bool target_length duration) eqn:Hle.
    + exfalso. apply Qle_bool_iff in Hle.
      rewrite (prv_long_run W target_length enc work_dir output_number
                 video_files current_index fuel video_file duration s
                 Hprobe Hle) in Hin.
      destruct (ffmpeg_ok W _); unfold logged in Hin;
        (erewrite new_events_app in Hin; [| simpl; reflexivity]);
        set_solver.
    + assert (~ (target_length <= duration)%Q) as Hshort.
      { intros H. apply Qle_bool_iff in H. congruence. }
      rewrite (prv_short_run W target_length enc work_dir output_number
                 video_files current_index fuel video_file duration s
                 Hprobe Hshort) in Hsplit, Hin.
      destruct (ffmpeg_ok W (MuteEncode enc video_file None
                  (VideoReplacer.original_path work_dir output_number))).
      2: { exfalso. unfold logged in Hin.
           erewrite new_events_app in Hin; [| simpl; reflexivity].
           set_solver. }
      change {| fs := _; trace := _ |}
        with (anchor_state enc work_dir output_number video_file s)
        in Hsplit, Hin.
      destruct (fill_manifest W enc work_dir output_number video_files
                  current_index fuel (start_loop target_length duration)
                  (anchor_state enc work_dir output_number video_file s))
        as (dfill & Hdfill & Hloop & Hlines).
      pose proof (loop_not_join dfill enc segments false processed Hloop)
        as Hnj. fold join in Hnj.
      assert (join ∉ anchor_events enc work_dir output_number video_file)
        as Hna.
      { unfold anchor_events, join. set_solver. }
      destruct (VideoReplacer.fill W enc work_dir output_number video_files
                  current_index fuel (start_loop target_length duration)
                  (anchor_state enc work_dir output_number video_file s))
        as [[ls|e|] s2] eqn:Hrf; simpl in Hdfill, Hlines.
      * destruct (finish_composite_spec W enc work_dir output_number ls s2)
          as (dt & Hdt & Htidy & _).
        cbv zeta in Hdt. fold segments processed join in Hdt.
        rewrite Hdfill in Hdt. simpl in Hdt.
        rewrite <- !app_assoc in Hdt.
        rewrite (new_events_app _ _ _ Hdt) in Hsplit.
        assert (before
                = anchor_events enc work_dir output_number video_file
                  ++ dfill) as Hbefore.
        { apply (split_at_first join before after _ dt).
          - set_solver.
          - apply tidy_not_join; [done | done | done].
          - rewrite <- Hsplit. by rewrite <- app_assoc. }
        assert (after = dt) as ->.
        { rewrite Hbefore, <- app_assoc in Hsplit.
          apply app_inv_head in Hsplit. apply app_inv_head in Hsplit.
          apply (f_equal (drop 1)) in Hsplit. simpl in Hsplit. done. }
        subst before. split; [| split; [| split; [done |]]].
        -- rewrite file_lines_app, (Hlines ls eq_refl), plan_steps_app.
           rewrite map_app. f_equal.
           unfold file_lines, anchor_events. simpl.
           by rewrite bool_decide_eq_true_2.
        -- apply quiet_plan. by apply tidy_quiet.
        -- intros p Hp. apply elem_of_app in Hp as [Hp | Hp].
           ++ unfold anchor_events in Hp. set_solver.
           ++ rewrite Forall_forall in Hloop.
              destruct (Hloop _ Hp) as [Hr _]. by eapply Hr.
      * exfalso.
        assert (trace s2 = trace s ++
                  anchor_events enc work_dir output_number video_file ++ dfill)
          as Ht by (rewrite Hdfill; simpl; by rewrite <- app_assoc).
        change (join ∈ new_events s s2) in Hin.
        rewrite (new_events_app _ _ _ Ht) in Hin. set_solver.
      * exfalso.
        assert (trace s2 = trace s ++
                  anchor_events enc work_dir output_number video_file ++ dfill)
          as Ht by (rewrite Hdfill; simpl; by rewrite <- app_assoc).
        change (join ∈ new_events s s2) in Hin.
        rewrite (new_events_app _ _ _ Ht) in Hin. set_solver.
  - exfalso.
    rewrite (prv_probe_failed W target_length enc work_dir output_number
               video_files current_index fuel video_file e s Hprobe) in Hin.
    unfold logged in Hin.
    erewrite new_events_app in Hin; [| simpl; reflexivity]. set_solver.
  - by apply clip_duration_fuel in Hprobe.
Qed.

Lemma manifest_lists_plan_witness :
  let r := VideoReplacer.process_replacement_video scenario_world 25
             software_profile "/videos/videos" 1 scenario_files 0 5
             "anchor.mp4" empty_state in
  exists before after,
    new_events empty_state (snd r)
    = before ++
      ERun (ConcatEncode software_profile
              (VideoReplacer.segments_path "/videos/videos" 1) false
              (VideoReplacer.processed_path "/videos/videos" 1)) :: after /\
    file_lines (VideoReplacer.segments_path "/videos/videos" 1) before
    = ["file '/videos/videos/temp_original_1.mp4'";
       "file '/videos/videos/temp_filler_1_0.mp4'";
       "file '/videos/videos/temp_filler_1_1.mp4'";
       "file '/videos/videos/temp_filler_1_2.mp4'"].
Proof.
  intros r.
  set (d := new_events empty_state (snd r)).
  exists (take 12 d), (drop 13 d).
  assert (d = take 12 d ++
              ERun (ConcatEncode software_profile
                      (VideoReplacer.segments_path "/videos/videos" 1) false
                      (VideoReplacer.processed_path "/videos/videos" 1))
              :: drop 13 d) as Hsplit by (vm_compute; reflexivity).
  split; [exact Hsplit |].
  destruct (manifest_lists_plan scenario_world 25 software_profile
              "/videos/videos" 1 scenario_files 0 5 "anchor.mp4" empty_state
              (take 12 d) (drop 13 d) Hsplit) as (Hlines & _).
  rewrite Hlines. vm_compute. reflexivity.
Defined.

(** ** A failed transform ends the run of [upsell_video_replacer.py] *)

Section OrderlyUpsell.

Import UpsellReplacer.

Context (W : World).

Lemma orderly_prepare_upsell upsell_video upsell_duration enc wd n needed :
  orderly W (prepare_upsell W upsell_video upsell_duration enc wd n needed).
Proof.
  unfold prepare_upsell. destruct (negb (Qle_bool needed upsell_duration)).
  - apply orderly_bind.
    { apply orderly_lift. unfold py_div. by destruct (Qeq_bool _ _). }
    intros ratio.
    apply orderly_bind; [apply orderly_write | intros _].
    apply orderly_bind; [apply orderly_run | intros _].
    apply orderly_bind; [apply orderly_run | intros _].
    apply orderly_bind; [apply orderly_remove | intros _].
    apply orderly_remove.
  - apply orderly_run.
Qed.

Lemma orderly_tail_process_video upsell_video upsell_duration start_time enc
    wd folder vf i video_file :
  orderly W (process_video W upsell_video upsell_duration start_time enc wd
               folder vf i video_file).
Proof.
  unfold process_video.
  apply orderly_bind; [apply orderly_print | intros _].
  apply orderly_bind; [apply orderly_probe | intros q].
  apply orderly_bind; [apply orderly_run | intros _].
  apply orderly_bind; [apply orderly_run | intros _].
  apply orderly_bind; [apply orderly_prepare_upsell | intros _].
  apply orderly_bind; [apply orderly_write | intros _].
  apply orderly_bind; [apply orderly_run | intros _].
  apply orderly_bind; [apply orderly_run | intros _].
  apply orderly_bind.
  { apply orderly_for_each. intros p. apply orderly_remove_if_exists. }
  intros _. apply orderly_bind; [apply orderly_probe | intros q'].
  apply orderly_print.
Qed.

Lemma orderly_tail_main a : orderly W (main W a).
Proof.
  unfold main.
  destruct (negb (check_ffmpeg W)); [apply orderly_fatal |].
  destruct (negb (isfile W _)); [apply orderly_fatal |].
  apply orderly_bind; [apply orderly_probe | intros upsell_duration].
  destruct (negb (isdir W _)); [apply orderly_fatal |].
  apply orderly_bind.
  { destruct (py_float W _); [apply orderly_ret | by apply orderly_raise]. }
  intros start_time. apply orderly_bind; [apply orderly_makedirs | intros _].
  case_bool_decide; [apply orderly_fatal |].
  apply orderly_bind.
  { apply orderly_for_each. intros iv. apply orderly_tail_process_video. }
  intros _. apply orderly_bind; [apply orderly_print | intros _].
  apply orderly_bind; [apply orderly_exists | intros e].
  apply orderly_bind.
  { destruct e; [| apply orderly_ret].
    apply orderly_bind; [apply orderly_probe | intros q; apply orderly_print]. }
  intros _. apply orderly_print.
Qed.

End OrderlyUpsell.

(** The handler around an orderly [main]: a transform that failed is the
    last event before the error line, and the exit status is 1. *)
Lemma handled_failure (W : World) (main : M unit) (s : St) (c : Cmd) :
  orderly W main ->
  ERun c ∈ new_events s (snd (handled main s)) ->
  ffmpeg_ok W c = false ->
  fst (handled main s) = Ok 1%Z /\
  exists before,
    new_events s (snd (handled main s)) =
      before ++ [ERun c; EPrint (MsgError (CalledProcessError c))] /\
    Forall (succeeded W) before.
Proof.
  intros Hmain Hin Hfail.
  destruct (Hmain s) as (d & Hd & Hcase).
  assert (Hclean : Forall (succeeded W) d -> ERun c ∉ d).
  { intros Hall Hc. rewrite Forall_forall in Hall.
    specialize (Hall _ Hc c eq_refl). congruence. }
  unfold handled in *.
  destruct (main s) as [[u|e|] s1]; simpl in *.
  - rewrite (new_events_app _ _ _ Hd) in Hin.
    destruct Hcase as [[Hgood _] | (d' & c0 & _ & _ & _ & Hbad)]; [| done].
    by destruct (Hclean Hgood).
  - destruct Hcase as [[Hgood Hno] | (d' & c0 & -> & Hd' & Hc0 & [= ->])].
    + exfalso. destruct e; simpl in *.
      all: try (rewrite (new_events_app _ _ _ Hd) in Hin;
                by destruct (Hclean Hgood)).
      all: erewrite new_events_app in Hin
             by (simpl; rewrite Hd, <- app_assoc; reflexivity);
           apply elem_of_app in Hin as [Hin | Hin];
           [by destruct (Hclean Hgood) | set_solver].
    + simpl in *. split; [done |].
      erewrite new_events_app in Hin
        by (rewrite Hd, <- !app_assoc; reflexivity).
      erewrite new_events_app by (rewrite Hd, <- !app_assoc; reflexivity).
      assert (c = c0) as ->.
      { apply elem_of_app in Hin as [Hin | Hin].
        - rewrite Forall_forall in Hd'.
          specialize (Hd' _ Hin c eq_refl). congruence.
        - simpl in Hin. set_solver. }
      by exists d'.
  - rewrite (new_events_app _ _ _ Hd) in Hin.
    destruct Hcase as [[Hgood _] | (d' & c0 & _ & _ & _ & Hbad)]; [| done].
    by destruct (Hclean Hgood).
Qed.

(** X10. In [upsell_video_replacer.py] as well, a transform that exits
    non-zero ends the whole run: it is the last thing the script does
    before it prints the error and exits with status 1, and every
    transform before it had succeeded. *)
Theorem failed_transform_ends_upsell_batch (W : World)
    (a : UpsellReplacer.Answers) (s : St) (c : Cmd) :
  let r := UpsellReplacer.script W a s in
  ERun c ∈ new_events s (snd r) ->
  ffmpeg_ok W c = false ->
  fst r = Ok 1%Z /\
  exists before,
    new_events s (snd r) =
      before ++ [ERun c; EPrint (MsgError (CalledProcessError c))] /\
    Forall (succeeded W) before.
Proof.
  intros r. subst r.
  apply (handled_failure W (UpsellReplacer.main W a) s c).
  apply orderly_tail_main.
Qed.

Lemma failed_transform_ends_upsell_batch_witness :
  let c := Mux "/clips/videos_Upsell/temp_combined_1.mp4"
             "/clips/videos_Upsell/original_audio_0.aac"
             "/clips/videos_Upsell/videos_1.mp4" in
  let r := UpsellReplacer.script mux_fails_world upsell_answers empty_state in
  ERun c ∈ new_events empty_state (snd r) /\
  ffmpeg_ok mux_fails_world c = false /\
  fst r = Ok 1%Z /\
  started (new_events empty_state (snd r)) = [1].
Proof.
  intros c r.
  assert (ERun c ∈ new_events empty_state (snd r)) as Hin.
  { assert (nth_error (rev (new_events empty_state (snd r))) 1
            = Some (ERun c)) as Hnth by (vm_compute; reflexivity).
    apply nth_error_In, in_rev in Hnth. by apply list_elem_of_In. }
  split; [exact Hin |]. split; [reflexivity |]. split.
  - exact (proj1 (failed_transform_ends_upsell_batch mux_fails_world
                    upsell_answers empty_state c Hin eq_refl)).
  - vm_compute. reflexivity.
Defined.
(** ** Keeping track of files and announcements *)

Section Tracks.

Context (W : World).

Lemma tracks_silent {A} (m : M A) :
  (forall s, snd (m s) = s) ->
  (forall s code, fst (m s) = Raise (SystemExit code) -> code = 1%Z) ->
  tracks m.
Proof.
  intros Hs Hc s. exists []. rewrite Hs, app_nil_r.
  split; [done |]. split; [constructor |]. split; [set_solver |]. apply Hc.
Qed.

Lemma tracks_ret {A} (a : A) : tracks (ret a).
Proof. by apply tracks_silent. Qed.

Lemma tracks_lift {A} (r : Res A) :
  (forall code, r <> Raise (SystemExit code)) -> tracks (lift r).
Proof.
  intros Hr. apply tracks_silent; [done |].
  intros s code H. by destruct (Hr code).
Qed.

Lemma tracks_raise {A} (e : Exn) :
  (forall code, e = SystemExit code -> code = 1%Z) -> tracks (@raise A e).
Proof.
  intros He. apply tracks_silent; [done |].
  intros s code [= ->]. by apply He.
Qed.

Lemma tracks_out_of_fuel {A} : tracks (@out_of_fuel A).
Proof. by apply tracks_silent. Qed.

Lemma tracks_exists p : tracks (os_path_exists p).
Proof. by apply tracks_silent. Qed.

Lemma tracks_emit (e : Event) : inner e -> tracks (emit e).
Proof.
  intros He s. exists [e]. split; [done |].
  split; [by repeat constructor |]. split; [simpl; set_solver | done].
Qed.

Lemma tracks_print (m : Msg) :
  (forall n total file, m <> MsgProcessing n total file) -> tracks (print m).
Proof.
  intros Hm. apply tracks_emit. intros n total file [= ->]. by eapply Hm.
Qed.

Lemma tracks_write p lines : tracks (write_lines p lines).
Proof.
  intros s. exists [EWrite p lines]. split; [done |].
  split; [by repeat constructor |]. split; [simpl; set_solver | done].
Qed.

Lemma tracks_append p line : tracks (append_line p line).
Proof.
  intros s. exists [EAppend p line]. split; [done |].
  split; [by repeat constructor |]. split; [simpl; set_solver | done].
Qed.

Lemma tracks_remove p : tracks (os_remove p).
Proof.
  intros s. unfold os_remove. case_bool_decide; simpl.
  - exists [ERemove p]. split; [done |].
    split; [by repeat constructor |]. split; [set_solver | done].
  - exists []. rewrite app_nil_r. split; [done |].
    split; [constructor |]. split; [set_solver | done].
Qed.

Lemma tracks_run c : tracks (run_ffmpeg W c).
Proof.
  intros s. unfold run_ffmpeg. exists [ERun c].
  destruct (ffmpeg_ok W c); simpl.
  - split; [done |]. split; [by repeat constructor |].
    split; [set_solver | done].
  - split; [done |]. split; [by repeat constructor |].
    split; [set_solver | done].
Qed.

Lemma tracks_bind {A B} (m : M A) (k : A -> M B) :
  tracks m -> (forall a, tracks (k a)) -> tracks (bind m k).
Proof.
  intros Hm Hk s. unfold bind.
  destruct (Hm s) as (d1 & Hd1 & Hin1 & Hfs1 & Hc1).
  destruct (m s) as [[a|e|] s1]; simpl in *.
  - destruct (Hk a s1) as (d2 & Hd2 & Hin2 & Hfs2 & Hc2).
    exists (d1 ++ d2). split; [by rewrite Hd2, Hd1, app_assoc |].
    split; [by apply Forall_app |]. split; [| done].
    rewrite created_app, list_to_set_app. set_solver.
  - exists d1. split; [exact Hd1 |]. split; [exact Hin1 |].
    split; [exact Hfs1 |]. intros code [= ->]. by apply Hc1.
  - exists d1. split; [exact Hd1 |]. split; [exact Hin1 |].
    split; [exact Hfs1 | done].
Qed.

Lemma tracks_for_each {A} (l : list A) (f : A -> M unit) :
  (forall x, tracks (f x)) -> tracks (for_each l f).
Proof.
  intros Hf. induction l as [|x l IH]; simpl.
  - apply tracks_ret.
  - apply tracks_bind; [apply Hf | by intros _].
Qed.

Lemma tracks_probe p : tracks (get_video_duration W p).
Proof.
  unfold get_video_duration. apply tracks_bind; [by apply tracks_emit |].
  intros _. destruct (ffprobe W p) as [result|].
  - apply tracks_lift. unfold parse_duration. by destruct (py_float W _).
  - by apply tracks_raise.
Qed.

Lemma tracks_remove_if_exists p : tracks (remove_if_exists p).
Proof.
  unfold remove_if_exists. apply tracks_bind; [apply tracks_exists |].
  intros [|]; [apply tracks_remove | apply tracks_ret].
Qed.

Lemma tracks_fatal {A} what : tracks (@fatal A what).
Proof.
  unfold fatal. apply tracks_bind; [by apply tracks_print |].
  intros _. apply tracks_raise. by intros code [= <-].
Qed.

Lemma tracks_add_filler enc wd n vf ci ls :
  tracks (VideoReplacer.add_filler W enc wd n vf ci ls).
Proof.
  unfold VideoReplacer.add_filler. apply tracks_bind.
  { apply tracks_lift. intros code Hc.
    by apply filler_video_index_raise in Hc as [_ ?]. }
  intros i. apply tracks_bind.
  { apply tracks_lift. unfold py_index. by destruct (vf !! i). }
  intros fv. apply tracks_bind; [apply tracks_probe |].
  intros fd. apply tracks_bind.
  { destruct (Qeq_bool _ _); apply tracks_run. }
  intros _. apply tracks_bind; [apply tracks_append |].
  intros _. destruct (_ <? _).
  - apply tracks_bind; [by apply tracks_print | intros _; apply tracks_ret].
  - apply tracks_ret.
Qed.

Lemma tracks_fill enc wd n vf ci fuel ls :
  tracks (VideoReplacer.fill W enc wd n vf ci fuel ls).
Proof.
  revert ls. induction fuel as [|fuel IH]; intros ls; simpl.
  - apply tracks_out_of_fuel.
  - destruct (VideoReplacer.loop_cond vf ls); [| apply tracks_ret].
    apply tracks_bind; [apply tracks_add_filler |].
    intros [ls' [|]]; simpl; [apply tracks_ret | apply IH].
Qed.

Lemma tracks_finish enc wd n ls :
  tracks (VideoReplacer.finish_composite W enc wd n ls).
Proof.
  unfold VideoReplacer.finish_composite.
  apply tracks_bind; [apply tracks_run | intros _].
  apply tracks_bind; [apply tracks_remove | intros _].
  apply tracks_bind.
  { apply tracks_for_each. intros j. apply tracks_remove_if_exists. }
  intros _. apply tracks_bind; [apply tracks_remove | intros _].
  apply tracks_bind; [by apply tracks_print | intros _; apply tracks_ret].
Qed.

Lemma tracks_prv target enc wd n vf ci fuel video_file :
  tracks (VideoReplacer.process_replacement_video W target enc wd n vf ci
            fuel video_file).
Proof.
  unfold VideoReplacer.process_replacement_video.
  apply tracks_bind; [apply tracks_probe | intros d].
  destruct (Qle_bool target d).
  - apply tracks_bind; [apply tracks_run | intros _; apply tracks_ret].
  - apply tracks_bind; [apply tracks_run | intros _].
    apply tracks_bind; [apply tracks_write | intros _].
    apply tracks_bind; [apply tracks_fill | intros ls].
    apply tracks_finish.
Qed.

Lemma tracks_after_composer main_video target enc wd folder i pf :
  tracks (after_composer W main_video target enc wd folder i pf).
Proof.
  unfold after_composer.
  apply tracks_bind; [apply tracks_run | intros _].
  apply tracks_bind; [apply tracks_write | intros _].
  apply tracks_bind; [apply tracks_run | intros _].
  apply tracks_bind; [apply tracks_run | intros _].
  apply tracks_bind.
  { apply tracks_for_each. intros p. apply tracks_remove_if_exists. }
  intros _. apply tracks_bind; [apply tracks_probe | intros q].
  by apply tracks_print.
Qed.

Lemma tracks_prepare_upsell upsell_video upsell_duration enc wd n needed :
  tracks (UpsellReplacer.prepare_upsell W upsell_video upsell_duration enc wd
            n needed).
Proof.
  unfold UpsellReplacer.prepare_upsell.
  destruct (negb (Qle_bool needed upsell_duration)).
  - apply tracks_bind.
    { apply tracks_lift. unfold py_div. by destruct (Qeq_bool _ _). }
    intros ratio.
    apply tracks_bind; [apply tracks_write | intros _].
    apply tracks_bind; [apply tracks_run | intros _].
    apply tracks_bind; [apply tracks_run | intros _].
    apply tracks_bind; [apply tracks_remove | intros _].
    apply tracks_remove.
  - apply tracks_run.
Qed.

Lemma tracks_after_upsell enc wd folder i :
  tracks (after_upsell W enc wd folder i).
Proof.
  unfold after_upsell.
  apply tracks_bind; [apply tracks_write | intros _].
  apply tracks_bind; [apply tracks_run | intros _].
  apply tracks_bind; [apply tracks_run | intros _].
  apply tracks_bind.
  { apply tracks_for_each. intros p. apply tracks_remove_if_exists. }
  intros _. apply tracks_bind; [apply tracks_probe | intros q].
  by apply tracks_print.
Qed.

(** The loop bodies of the two scripts. *)
Lemma head_loop_body fuel main_video target enc wd folder vf :
  loop_body (length vf)
    (fun iv => VideoReplacer.process_video W fuel main_video target enc wd
                 folder vf (fst iv) (snd iv)).
Proof.
  intros [i v]. eexists. split; [| intros s; reflexivity].
  apply tracks_bind; [apply tracks_run | intros _].
  apply tracks_bind; [apply tracks_prv | intros pf].
  apply (tracks_after_composer main_video target enc wd folder i pf).
Qed.

Lemma tail_loop_body upsell_video upsell_duration start_time enc wd folder
    vf :
  loop_body (length vf)
    (fun iv => UpsellReplacer.process_video W upsell_video upsell_duration
                 start_time enc wd folder vf (fst iv) (snd iv)).
Proof.
  intros [i v]. eexists. split; [| intros s; reflexivity].
  apply tracks_bind; [apply tracks_probe | intros q].
  apply tracks_bind; [apply tracks_run | intros _].
  apply tracks_bind; [apply tracks_run | intros _].
  apply tracks_bind; [apply tracks_prepare_upsell | intros _].
  apply (tracks_after_upsell enc wd folder i).
Qed.

End Tracks.
(** ** The two [main]s, check by check *)

Lemma os_makedirs_passes W p s :
  makedirs_passes W p s ->
  os_makedirs W p s = (Ok tt, logged s [EMakedirs p]).
Proof.
  intros (Hne & Hnin & Hok). unfold os_makedirs.
  rewrite (bool_decide_eq_false_2 _ Hne), (bool_decide_eq_false_2 _ Hnin), Hok.
  done.
Qed.

Lemma os_makedirs_fails W p s :
  ~ makedirs_passes W p s ->
  exists e,
    os_makedirs W p s = (Raise e, s) /\
    (e = FileNotFoundError p \/ e = OSError).
Proof.
  intros Hno. unfold os_makedirs.
  case_bool_decide as Hp; [eexists; split; [done | by left] |].
  case_bool_decide as Hin; simpl; [eexists; split; [done | by right] |].
  destruct (makedirs_ok W p) eqn:Hok; simpl;
    [| eexists; split; [done | by right]].
  by destruct Hno.
Qed.

Lemma makedirs_passes_dec W p s :
  makedirs_passes W p s \/ ~ makedirs_passes W p s.
Proof.
  unfold makedirs_passes.
  destruct (decide (p = "")) as [Hp | Hp]; [right; tauto |].
  destruct (decide (p ∈ fs s)) as [Hin | Hin]; [right; tauto |].
  destruct (makedirs_ok W p); [by left | right].
  by intros (_ & _ & ?).
Qed.

Lemma head_main_accepted W fuel a target s :
  head_accepted W a target ->
  makedirs_passes W (head_work_dir W a) s ->
  VideoReplacer.main W fuel a s =
  (for_each (enumerate (find_video_files W (VideoReplacer.ans_video_folder a)))
     (fun iv =>
        VideoReplacer.process_video W fuel (VideoReplacer.ans_main_video a)
          target (detect_encoder W) (head_work_dir W a)
          (head_folder_name W a)
          (find_video_files W (VideoReplacer.ans_video_folder a))
          (fst iv) (snd iv)) ;;
   closing W (length (find_video_files W (VideoReplacer.ans_video_folder a)))
     (VideoReplacer.output_path (head_work_dir W a) (head_folder_name W a) 1))
    (logged s [EMakedirs (head_work_dir W a)]).
Proof.
  intros (Hff & Hfile & Hdir & Hfloat & Hfiles) Hmk.
  unfold VideoReplacer.main. rewrite Hff, Hfile, Hdir, Hfloat. simpl.
  unfold bind at 1. unfold ret at 1.
  unfold bind at 1.
  change (os_path_join (os_path_dirname W (VideoReplacer.ans_main_video a))
            (os_path_basename W
               (os_path_dirname W (VideoReplacer.ans_main_video a))))
    with (head_work_dir W a).
  rewrite (os_makedirs_passes W _ s Hmk).
  by rewrite bool_decide_eq_false_2.
Qed.

Lemma head_answers_failed W fuel a s :
  head_answers_fail W a ->
  exists m,
    VideoReplacer.script W fuel a s = (Ok 1%Z, logged s [EPrint m]) /\
    inner (EPrint m).
Proof.
  intros Hrej. unfold VideoReplacer.script, VideoReplacer.main.
  destruct (check_ffmpeg W) eqn:Hff; simpl; [| by eexists].
  destruct (isfile W _) eqn:Hfile; simpl; [| by eexists].
  destruct (isdir W _) eqn:Hdir; simpl; [| by eexists].
  unfold bind at 1.
  destruct (py_float W _) as [target|] eqn:Hfloat; simpl; [| by eexists].
  destruct Hrej as [? | [? | [? | ?]]]; congruence.
Qed.

Lemma head_answers_passed W fuel a target s :
  head_answers_pass W a target ->
  VideoReplacer.main W fuel a s =
  (os_makedirs W (head_work_dir W a) ;;
   if bool_decide (find_video_files W (VideoReplacer.ans_video_folder a) = [])
   then fatal "No video files found"
   else
     for_each
       (enumerate (find_video_files W (VideoReplacer.ans_video_folder a)))
       (fun iv =>
          VideoReplacer.process_video W fuel (VideoReplacer.ans_main_video a)
            target (detect_encoder W) (head_work_dir W a)
            (head_folder_name W a)
            (find_video_files W (VideoReplacer.ans_video_folder a))
            (fst iv) (snd iv)) ;;
     closing W
       (length (find_video_files W (VideoReplacer.ans_video_folder a)))
       (VideoReplacer.output_path (head_work_dir W a) (head_folder_name W a)
          1)) s.
Proof.
  intros (Hff & Hfile & Hdir & Hfloat).
  unfold VideoReplacer.main. rewrite Hff, Hfile, Hdir, Hfloat. simpl.
  unfold bind at 1. unfold ret at 1. reflexivity.
Qed.

Lemma head_makedirs_failed W fuel a target s :
  head_answers_pass W a target ->
  ~ makedirs_passes W (head_work_dir W a) s ->
  exists e,
    VideoReplacer.script W fuel a s
    = (Ok 1%Z, logged s [EPrint (MsgError e)]) /\
    (e = FileNotFoundError (head_work_dir W a) \/ e = OSError).
Proof.
  intros Hpass Hmk. unfold VideoReplacer.script.
  rewrite (head_answers_passed W fuel a target s Hpass).
  unfold bind at 1.
  destruct (os_makedirs_fails W _ s Hmk) as (e & -> & He).
  exists e. split; [| exact He]. by destruct He as [-> | ->].
Qed.

Lemma head_no_video W fuel a target s :
  head_answers_pass W a target ->
  makedirs_passes W (head_work_dir W a) s ->
  find_video_files W (VideoReplacer.ans_video_folder a) = [] ->
  VideoReplacer.script W fuel a s
  = (Ok 1%Z, logged s [EMakedirs (head_work_dir W a);
                       EPrint (MsgFatal "No video files found")]).
Proof.
  intros Hpass Hmk Hnone. unfold VideoReplacer.script.
  rewrite (head_answers_passed W fuel a target s Hpass).
  unfold bind at 1. rewrite (os_makedirs_passes W _ s Hmk), Hnone.
  simpl. unfold logged. simpl. by rewrite <- app_assoc.
Qed.

Lemma head_rejected_cases W a :
  head_rejected W a ->
  head_answers_fail W a \/
  exists target,
    head_answers_pass W a target /\
    find_video_files W (VideoReplacer.ans_video_folder a) = [].
Proof.
  unfold head_rejected, head_answers_fail, head_answers_pass.
  intros Hrej.
  destruct (check_ffmpeg W); [| left; by left].
  destruct (isfile W _); [| left; right; by left].
  destruct (isdir W _); [| left; right; right; by left].
  destruct (py_float W _) as [target|]; [| left; right; right; by right].
  right. exists target. repeat split.
  destruct Hrej as [? | [? | [? | [? | ?]]]]; done.
Qed.

Lemma head_checks_cases W a :
  head_answers_fail W a \/ exists target, head_answers_pass W a target.
Proof.
  unfold head_answers_fail, head_answers_pass.
  destruct (check_ffmpeg W); [| left; by left].
  destruct (isfile W _); [| left; right; by left].
  destruct (isdir W _); [| left; right; right; by left].
  destruct (py_float W _) as [target|]; [| left; right; right; by right].
  right. by exists target.
Qed.

Lemma head_accepted_pass W a target :
  head_accepted W a target -> head_answers_pass W a target.
Proof. intros (? & ? & ? & ? & _). by repeat split. Qed.

Lemma head_script_rejected W fuel a s :
  head_stops W a s ->
  exists m d,
    VideoReplacer.script W fuel a s = (Ok 1%Z, logged s d) /\
    inner (EPrint m) /\
    (d = [EPrint m] \/ d = [EMakedirs (head_work_dir W a); EPrint m]).
Proof.
  assert (forall target,
            head_answers_pass W a target ->
            ~ makedirs_passes W (head_work_dir W a) s ->
            exists m d,
              VideoReplacer.script W fuel a s = (Ok 1%Z, logged s d) /\
              inner (EPrint m) /\
              (d = [EPrint m] \/
               d = [EMakedirs (head_work_dir W a); EPrint m])) as Hfail.
  { intros target Hpass Hmk.
    destruct (head_makedirs_failed W fuel a target s Hpass Hmk)
      as (e & Hrun & _).
    eexists _, _. split; [exact Hrun |]. split; [| by left]. done. }
  assert (head_answers_fail W a ->
          exists m d,
            VideoReplacer.script W fuel a s = (Ok 1%Z, logged s d) /\
            inner (EPrint m) /\
            (d = [EPrint m] \/
             d = [EMakedirs (head_work_dir W a); EPrint m])) as Hans.
  { intros Hf. destruct (head_answers_failed W fuel a s Hf) as (m & Hrun & Hm).
    exists m, [EPrint m]. split; [exact Hrun |]. split; [exact Hm | by left]. }
  intros [Hrej | Hmk].
  - destruct (head_rejected_cases W a Hrej) as [Hf | (target & Hpass & Hnone)];
      [by apply Hans |].
    destruct (makedirs_passes_dec W (head_work_dir W a) s) as [Hmk | Hmk];
      [| by apply (Hfail target)].
    eexists _, _. split; [exact (head_no_video W fuel a target s Hpass Hmk Hnone) |].
    split; [| by right]. done.
  - destruct (head_checks_cases W a) as [Hf | [target Hpass]];
      [by apply Hans | by apply (Hfail target)].
Qed.

Lemma head_checks W a s :
  head_stops W a s \/
  exists target,
    head_accepted W a target /\ makedirs_passes W (head_work_dir W a) s.
Proof.
  unfold head_stops, head_rejected, head_accepted.
  destruct (check_ffmpeg W); [| left; left; by left].
  destruct (isfile W _); [| left; left; right; by left].
  destruct (isdir W _); [| left; left; right; right; by left].
  destruct (py_float W _) as [target|];
    [| left; left; right; right; right; by left].
  destruct (find_video_files W _) as [|v l];
    [left; left; right; right; right; by right |].
  destruct (makedirs_passes_dec W (head_work_dir W a) s) as [Hmk | Hmk];
    [| left; by right].
  right. by exists target.
Qed.

Lemma tail_main_accepted W a upsell_duration start_time s :
  tail_accepted W a upsell_duration start_time ->
  makedirs_passes W (tail_work_dir W a) s ->
  UpsellReplacer.main W a s =
  (for_each
     (enumerate (find_video_files W (UpsellReplacer.ans_video_folder a)))
     (fun iv =>
        UpsellReplacer.process_video W (UpsellReplacer.ans_upsell_video a)
          upsell_duration start_time (detect_encoder W) (tail_work_dir W a)
          (tail_folder_name W a)
          (find_video_files W (UpsellReplacer.ans_video_folder a))
          (fst iv) (snd iv)) ;;
   closing W
     (length (find_video_files W (UpsellReplacer.ans_video_folder a)))
     (UpsellReplacer.output_path (tail_work_dir W a) (tail_folder_name W a)
        1))
    (logged s [EProbe (UpsellReplacer.ans_upsell_video a);
               EMakedirs (tail_work_dir W a)]).
Proof.
  intros (Hff & Hfile & Hprobe & Hdir & Hfloat & Hfiles) Hmk.
  unfold UpsellReplacer.main. rewrite Hff, Hfile. simpl.
  unfold bind at 1. rewrite get_video_duration_run, Hprobe.
  rewrite Hdir, Hfloat. simpl.
  unfold bind at 1. unfold ret at 1.
  unfold bind at 1.
  change (os_path_join (UpsellReplacer.ans_video_folder a)
            (os_path_basename W
               (UpsellReplacer.rstrip_sep (UpsellReplacer.ans_video_folder a))
             +:+ "_Upsell"))
    with (tail_work_dir W a).
  rewrite (os_makedirs_passes W (tail_work_dir W a)
             {| fs := fs s;
                trace := trace s
                         ++ [EProbe (UpsellReplacer.ans_upsell_video a)] |})
    by exact Hmk.
  rewrite bool_decide_eq_false_2 by done.
  unfold logged. simpl. by rewrite <- app_assoc.
Qed.

Lemma tail_answers_failed W a s :
  tail_answers_fail W a ->
  exists m d,
    UpsellReplacer.script W a s = (Ok 1%Z, logged s d) /\
    inner (EPrint m) /\
    (d = [EPrint m] \/
     d = [EProbe (UpsellReplacer.ans_upsell_video a); EPrint m]).
Proof.
  intros Hrej. unfold UpsellReplacer.script, UpsellReplacer.main.
  destruct (check_ffmpeg W) eqn:Hff; simpl;
    [| eexists _, _; split; [reflexivity | split; [| by left]; done]].
  destruct (isfile W _) eqn:Hfile; simpl;
    [| eexists _, _; split; [reflexivity | split; [| by left]; done]].
  unfold bind at 1. rewrite get_video_duration_run.
  assert (forall m,
    (Ok 1%Z,
     {| fs := fs s;
        trace := (trace s ++ [EProbe (UpsellReplacer.ans_upsell_video a)])
                 ++ [EPrint m] |})
    = (Ok 1%Z, logged s [EProbe (UpsellReplacer.ans_upsell_video a);
                         EPrint m])) as Hlog.
  { intros m. unfold logged. by rewrite <- app_assoc. }
  destruct (clip_duration W _) as [q|e|] eqn:Hprobe; simpl.
  - destruct (isdir W _) eqn:Hdir; simpl.
    2: { eexists _, _. split; [apply Hlog | split; [| by right]; done]. }
    unfold bind at 1.
    destruct (py_float W _) as [start|] eqn:Hfloat; simpl.
    2: { eexists _, _. split; [apply Hlog | split; [| by right]; done]. }
    destruct Hrej as [? | [? | [[e He] | [? | ?]]]]; congruence.
  - apply clip_duration_raise in Hprobe as Hkind.
    destruct Hkind as [-> | ->];
      (eexists _, _; split; [apply Hlog | split; [| by right]; done]).
  - by apply clip_duration_fuel in Hprobe.
Qed.

Lemma tail_answers_passed W a upsell_duration start_time s :
  tail_answers_pass W a upsell_duration start_time ->
  UpsellReplacer.main W a s =
  (os_makedirs W (tail_work_dir W a) ;;
   if bool_decide (find_video_files W (UpsellReplacer.ans_video_folder a) = [])
   then fatal "No video files found"
   else
     for_each
       (enumerate (find_video_files W (UpsellReplacer.ans_video_folder a)))
       (fun iv =>
          UpsellReplacer.process_video W (UpsellReplacer.ans_upsell_video a)
            upsell_duration start_time (detect_encoder W) (tail_work_dir W a)
            (tail_folder_name W a)
            (find_video_files W (UpsellReplacer.ans_video_folder a))
            (fst iv) (snd iv)) ;;
     closing W
       (length (find_video_files W (UpsellReplacer.ans_video_folder a)))
       (UpsellReplacer.output_path (tail_work_dir W a) (tail_folder_name W a)
          1))
    (logged s [EProbe (UpsellReplacer.ans_upsell_video a)]).
Proof.
  intros (Hff & Hfile & Hprobe & Hdir & Hfloat).
  unfold UpsellReplacer.main. rewrite Hff, Hfile. simpl.
  unfold bind at 1. rewrite get_video_duration_run, Hprobe.
  rewrite Hdir, Hfloat. simpl.
  unfold bind at 1. unfold ret at 1. reflexivity.
Qed.

Lemma tail_makedirs_failed W a upsell_duration start_time s :
  tail_answers_pass W a upsell_duration start_time ->
  ~ makedirs_passes W (tail_work_dir W a) s ->
  exists e,
    UpsellReplacer.script W a s
    = (Ok 1%Z, logged s [EProbe (UpsellReplacer.ans_upsell_video a);
                         EPrint (MsgError e)]) /\
    (e = FileNotFoundError (tail_work_dir W a) \/ e = OSError).
Proof.
  intros Hpass Hmk. unfold UpsellReplacer.script.
  rewrite (tail_answers_passed W a upsell_duration start_time s Hpass).
  unfold bind at 1.
  destruct (os_makedirs_fails W (tail_work_dir W a)
              (logged s [EProbe (UpsellReplacer.ans_upsell_video a)]) Hmk)
    as (e & -> & He).
  exists e. split; [| exact He].
  destruct He as [-> | ->]; unfold bind, print, emit, ret, logged; simpl;
    by rewrite <- app_assoc.
Qed.

Lemma tail_no_video W a upsell_duration start_time s :
  tail_answers_pass W a upsell_duration start_time ->
  makedirs_passes W (tail_work_dir W a) s ->
  find_video_files W (UpsellReplacer.ans_video_folder a) = [] ->
  UpsellReplacer.script W a s
  = (Ok 1%Z, logged s [EProbe (UpsellReplacer.ans_upsell_video a);
                       EMakedirs (tail_work_dir W a);
                       EPrint (MsgFatal "No video files found")]).
Proof.
  intros Hpass Hmk Hnone. unfold UpsellReplacer.script.
  rewrite (tail_answers_passed W a upsell_duration start_time s Hpass).
  unfold bind at 1.
  rewrite (os_makedirs_passes W (tail_work_dir W a)
             (logged s [EProbe (UpsellReplacer.ans_upsell_video a)]))
    by exact Hmk.
  rewrite Hnone. simpl. unfold logged. simpl. by rewrite <- !app_assoc.
Qed.

Lemma tail_checks_cases W a :
  tail_answers_fail W a \/
  exists upsell_duration start_time,
    tail_answers_pass W a upsell_duration start_time.
Proof.
  unfold tail_answers_fail, tail_answers_pass.
  destruct (check_ffmpeg W); [| left; by left].
  destruct (isfile W _); [| left; right; by left].
  destruct (clip_duration W _) as [q|e|] eqn:Hprobe;
    [| left; right; right; left; by exists e
     | by apply clip_duration_fuel in Hprobe].
  destruct (isdir W _); [| left; right; right; right; by left].
  destruct (py_float W _) as [start|];
    [| left; right; right; right; by right].
  right. by exists q, start.
Qed.

Lemma tail_rejected_cases W a :
  tail_rejected W a ->
  tail_answers_fail W a \/
  exists upsell_duration start_time,
    tail_answers_pass W a upsell_duration start_time /\
    find_video_files W (UpsellReplacer.ans_video_folder a) = [].
Proof.
  intros Hrej.
  destruct (tail_checks_cases W a) as [Hf | (q & start & Hpass)];
    [by left |].
  destruct Hrej as [? | [? | [[e He] | [? | [? | Hnone]]]]];
    try (destruct Hpass as (? & ? & ? & ? & ?); congruence).
  right. by exists q, start.
Qed.

Lemma tail_accepted_pass W a upsell_duration start_time :
  tail_accepted W a upsell_duration start_time ->
  tail_answers_pass W a upsell_duration start_time.
Proof. intros (? & ? & ? & ? & ? & _). by repeat split. Qed.

Lemma tail_script_rejected W a s :
  tail_stops W a s ->
  exists m d,
    UpsellReplacer.script W a s = (Ok 1%Z, logged s d) /\
    inner (EPrint m) /\
    (d = [EPrint m] \/
     d = [EProbe (UpsellReplacer.ans_upsell_video a); EPrint m] \/
     d = [EProbe (UpsellReplacer.ans_upsell_video a);
          EMakedirs (tail_work_dir W a); EPrint m]).
Proof.
  assert (forall q start,
            tail_answers_pass W a q start ->
            ~ makedirs_passes W (tail_work_dir W a) s ->
            exists m d,
              UpsellReplacer.script W a s = (Ok 1%Z, logged s d) /\
              inner (EPrint m) /\
              (d = [EPrint m] \/
               d = [EProbe (UpsellReplacer.ans_upsell_video a); EPrint m] \/
               d = [EProbe (UpsellReplacer.ans_upsell_video a);
                    EMakedirs (tail_work_dir W a); EPrint m])) as Hfail.
  { intros q start Hpass Hmk.
    destruct (tail_makedirs_failed W a q start s Hpass Hmk) as (e & Hrun & _).
    eexists _, _. split; [exact Hrun |]. split; [| right; by left]. done. }
  assert (tail_answers_fail W a ->
          exists m d,
            UpsellReplacer.script W a s = (Ok 1%Z, logged s d) /\
            inner (EPrint m) /\
            (d = [EPrint m] \/
             d = [EProbe (UpsellReplacer.ans_upsell_video a); EPrint m] \/
             d = [EProbe (UpsellReplacer.ans_upsell_video a);
                  EMakedirs (tail_work_dir W a); EPrint m])) as Hans.
  { intros Hf.
    destruct (tail_answers_failed W a s Hf) as (m & d & Hrun & Hm & Hd).
    exists m, d. split; [exact Hrun |]. split; [exact Hm |].
    destruct Hd as [-> | ->]; [by left | right; by left]. }
  intros [Hrej | Hmk].
  - destruct (tail_rejected_cases W a Hrej)
      as [Hf | (q & start & Hpass & Hnone)]; [by apply Hans |].
    destruct (makedirs_passes_dec W (tail_work_dir W a) s) as [Hmk | Hmk];
      [| by apply (Hfail q start)].
    eexists _, _.
    split; [exact (tail_no_video W a q start s Hpass Hmk Hnone) |].
    split; [| right; by right]. done.
  - destruct (tail_checks_cases W a) as [Hf | (q & start & Hpass)];
      [by apply Hans | by apply (Hfail q start)].
Qed.

Lemma tail_checks W a s :
  tail_stops W a s \/
  exists upsell_duration start_time,
    tail_accepted W a upsell_duration start_time /\
    makedirs_passes W (tail_work_dir W a) s.
Proof.
  unfold tail_stops, tail_rejected, tail_accepted.
  destruct (check_ffmpeg W); [| left; left; by left].
  destruct (isfile W _); [| left; left; right; by left].
  destruct (clip_duration W _) as [q|e|] eqn:Hprobe;
    [| left; left; right; right; left; by exists e
     | by apply clip_duration_fuel in Hprobe].
  destruct (isdir W _); [| left; left; right; right; right; by left].
  destruct (py_float W _) as [start|];
    [| left; left; right; right; right; right; by left].
  destruct (find_video_files W _) as [|v l];
    [left; left; right; right; right; right; by right |].
  destruct (makedirs_passes_dec W (tail_work_dir W a) s) as [Hmk | Hmk];
    [| left; by right].
  right. by exists q, start.
Qed.

(** ** The closing lines and the handler *)

Lemma closing_run W count sample s :
  let r := closing W count sample s in
  exists d,
    trace (snd r) = trace s ++ d /\
    Forall inner d /\
    created d = [] /\
    (forall c, ERun c ∉ d) /\
    fs (snd r) = fs s /\
    fst r <> OutOfFuel /\
    (forall code, fst r <> Raise (SystemExit code)) /\
    ((forall p, exists q, clip_duration W p = Ok q) -> fst r = Ok tt).
Proof.
  intros r. subst r. unfold closing, bind, print, emit, os_path_exists. simpl.
  case_bool_decide as Hin; simpl.
  - rewrite get_video_duration_run.
    destruct (clip_duration W sample) as [q|e|] eqn:Hprobe; simpl.
    + eexists. split; [by rewrite <- !app_assoc |].
      split; [by repeat constructor |]. split; [done |].
      split; [set_solver |]. by repeat split.
    + eexists. split; [by rewrite <- !app_assoc |].
      split; [by repeat constructor |]. split; [done |].
      split; [set_solver |]. split; [done |]. split; [done |].
      apply clip_duration_raise in Hprobe as Hkind. split.
      * intros code [= ->]. by destruct Hkind.
      * intros Hall. destruct (Hall sample) as [q Hq]. congruence.
    + by apply clip_duration_fuel in Hprobe.
  - unfold ret. simpl. eexists. split; [by rewrite <- !app_assoc |].
    split; [by repeat constructor |]. split; [done |].
    split; [set_solver |]. by repeat split.
Qed.

Lemma handled_events (main : M unit) s :
  exists d,
    trace (snd (handled main s)) = trace (snd (main s)) ++ d /\
    (d = [] \/ exists e, d = [EPrint (MsgError e)]) /\
    fs (snd (handled main s)) = fs (snd (main s)).
Proof.
  unfold handled. destruct (main s) as [[u|e|] s1]; simpl.
  - exists []. rewrite app_nil_r. split; [done |]. split; [by left | done].
  - destruct e; simpl;
      try (eexists; split; [reflexivity |]; split; [right; by eexists | done]).
    exists []. rewrite app_nil_r. split; [done |]. split; [by left | done].
  - exists []. rewrite app_nil_r. split; [done |]. split; [by left | done].
Qed.

Lemma handled_ok (main : M unit) s s1 :
  main s = (Ok tt, s1) -> handled main s = (Ok 0%Z, s1).
Proof. intros H. unfold handled. by rewrite H. Qed.

Lemma handled_exit (main : M unit) s code s1 :
  main s = (Raise (SystemExit code), s1) -> handled main s = (Ok code, s1).
Proof. intros H. unfold handled. by rewrite H. Qed.

Lemma handled_raise (main : M unit) s e s1 :
  main s = (Raise e, s1) -> (forall code, e <> SystemExit code) ->
  handled main s = (Ok 1%Z, logged s1 [EPrint (MsgError e)]).
Proof.
  intros H He. unfold handled. rewrite H.
  destruct e; try done. by destruct (He code).
Qed.

Lemma handled_fuel (main : M unit) s s1 :
  main s = (OutOfFuel, s1) -> handled main s = (OutOfFuel, s1).
Proof. intros H. unfold handled. by rewrite H. Qed.

Lemma handled_zero (main : M unit) s :
  (forall code, fst (main s) = Raise (SystemExit code) -> code = 1%Z) ->
  fst (handled main s) = Ok 0%Z ->
  fst (main s) = Ok tt /\ snd (handled main s) = snd (main s).
Proof.
  unfold handled. intros Hcode.
  destruct (main s) as [[[]|e|] s1]; simpl in *; [done | | done].
  destruct e; simpl; try done.
  intros [= ->]. by specialize (Hcode 0%Z eq_refl).
Qed.

(** ** The batch loop *)

Lemma announced_app d d' : announced (d ++ d') = announced d ++ announced d'.
Proof. apply omap_app. Qed.

Lemma announced_inner d : Forall inner d -> announced d = [].
Proof.
  induction 1 as [|e d He _ IH]; [done |].
  destruct e as [| | | | | |m]; try exact IH.
  destruct m; try exact IH. by destruct (He n total file).
Qed.

Lemma announced_cons n total file d :
  announced (EPrint (MsgProcessing n total file) :: d)
  = (n, total, file) :: announced d.
Proof. reflexivity. Qed.

Lemma created_print m d : created (EPrint m :: d) = created d.
Proof. reflexivity. Qed.

Lemma batch_run total (f : nat * string -> M unit) l s :
  loop_body total f ->
  exists d j,
    trace (snd (for_each l f s)) = trace s ++ d /\
    j <= length l /\
    announced d = take j (map (fun iv => (fst iv + 1, total, snd iv)) l) /\
    (fst (for_each l f s) = Ok tt -> j = length l) /\
    (l <> [] -> 0 < j) /\
    fs (snd (for_each l f s)) ⊆ fs s ∪ list_to_set (created d) /\
    (forall code, fst (for_each l f s) = Raise (SystemExit code) ->
                  code = 1%Z).
Proof.
  intros Hf. revert s. induction l as [|iv l IH]; intros s.
  - exists [], 0. simpl. rewrite app_nil_r. repeat split; try done.
    set_solver.
  - destruct (Hf iv) as (body & Hbody & Hrun).
    set (s1 := {| fs := fs s;
                  trace := trace s ++
                           [EPrint (MsgProcessing (fst iv + 1) total
                                      (snd iv))] |}).
    assert (for_each (iv :: l) f s =
            match body s1 with
            | (Ok _, s2) => for_each l f s2
            | (Raise e, s2) => (Raise e, s2)
            | (OutOfFuel, s2) => (OutOfFuel, s2)
            end) as Heq.
    { cbn [for_each]. unfold bind at 1. rewrite Hrun. reflexivity. }
    rewrite Heq. clear Heq.
    destruct (Hbody s1) as (d1 & Hd1 & Hin1 & Hfs1 & Hc1).
    destruct (body s1) as [[u|e|] s2]; simpl in *.
    + destruct (IH s2) as (d2 & j & Hd2 & Hj & Hann & Hok & _ & Hfs2 & Hc2).
      exists (EPrint (MsgProcessing (fst iv + 1) total (snd iv))
                :: d1 ++ d2), (S j).
      split; [rewrite Hd2, Hd1; subst s1; simpl; by rewrite <- !app_assoc |].
      split; [lia |]. split.
      { by rewrite announced_cons, announced_app, (announced_inner d1 Hin1),
          Hann. }
      split; [intros H; by rewrite (Hok H) |]. split; [lia |].
      split; [| done].
      rewrite created_print.
      rewrite created_app, list_to_set_app. subst s1. simpl in *.
      set_solver.
    + exists (EPrint (MsgProcessing (fst iv + 1) total (snd iv)) :: d1), 1.
      split; [rewrite Hd1; subst s1; simpl; by rewrite <- !app_assoc |].
      split; [lia |]. split.
      { rewrite announced_cons, (announced_inner d1 Hin1). simpl.
        by rewrite take_0. }
      split; [done |]. split; [lia |]. split; [| done].
      rewrite created_print.
      subst s1. simpl in *. set_solver.
    + exists (EPrint (MsgProcessing (fst iv + 1) total (snd iv)) :: d1), 1.
      split; [rewrite Hd1; subst s1; simpl; by rewrite <- !app_assoc |].
      split; [lia |]. split.
      { rewrite announced_cons, (announced_inner d1 Hin1). simpl.
        by rewrite take_0. }
      split; [done |]. split; [lia |]. split; [| done].
      rewrite created_print.
      subst s1. simpl in *. set_solver.
Qed.
(** ** A run of a script whose answers pass the checks *)

Lemma enumerate_length {A} (l : list A) : length (enumerate l) = length l.
Proof.
  unfold enumerate. rewrite length_zip_with, length_seq. lia.
Qed.

Lemma batch_run_head total (f : nat * string -> M unit) iv l s :
  loop_body total f ->
  exists d,
    trace (snd (for_each (iv :: l) f s))
    = trace s ++ EPrint (MsgProcessing (fst iv + 1) total (snd iv)) :: d.
Proof.
  intros Hf. destruct (Hf iv) as (body & Hbody & Hrun).
  cbn [for_each]. unfold bind at 1. rewrite Hrun.
  unfold bind at 1. unfold print, emit. simpl.
  match goal with
  | |- context [body ?s0] =>
      destruct (Hbody s0) as (d1 & Hd1 & _); destruct (body s0) as [[u|e|] s2]
  end; simpl in *.
  - destruct (batch_run total f l s2 Hf) as (d2 & _ & Hd2 & _).
    exists (d1 ++ d2). rewrite Hd2, Hd1. by rewrite <- !app_assoc.
  - exists d1. rewrite Hd1. by rewrite <- !app_assoc.
  - exists d1. rewrite Hd1. by rewrite <- !app_assoc.
Qed.

Lemma accepted_script_run W (main : M unit) total f l count sample s s0 d0 :
  loop_body total f ->
  main s = (for_each l f ;; closing W count sample) s0 ->
  trace s0 = trace s ++ d0 -> fs s0 = fs s ->
  exists d j,
    new_events s (snd (handled main s)) = d0 ++ d /\
    j <= length l /\
    announced d = take j (map (fun iv => (fst iv + 1, total, snd iv)) l) /\
    (forall iv l', l = iv :: l' ->
       exists d', d = EPrint (MsgProcessing (fst iv + 1) total (snd iv)) :: d')
    /\
    (fst (handled main s) = Ok 0%Z ->
     j = length l /\ fst (for_each l f s0) = Ok tt /\
     fs (snd (handled main s)) = fs (snd (for_each l f s0))) /\
    fs (snd (handled main s)) ⊆ fs s ∪ list_to_set (created d) /\
    (fst (handled main s) <> OutOfFuel ->
     fst (handled main s) = Ok 0%Z \/ fst (handled main s) = Ok 1%Z).
Proof.
  intros Hf Hmain Hs0 Hfs0.
  destruct (batch_run total f l s0 Hf)
    as (d1 & j & Hd1 & Hj & Hann & Hok & _ & Hfs1 & Hc1).
  assert (forall iv l', l = iv :: l' ->
            exists d', d1 = EPrint (MsgProcessing (fst iv + 1) total (snd iv))
                            :: d') as Hhead.
  { intros iv l' ->. destruct (batch_run_head total f iv l' s0 Hf) as [d' Hd'].
    exists d'. rewrite Hd' in Hd1. by apply app_inv_head in Hd1. }
  unfold bind in Hmain.
  destruct (for_each l f s0) as [[[]|e|] s1] eqn:Hloop; simpl in *.
  - destruct (closing_run W count sample s1)
      as (d2 & Hd2 & Hin2 & Hcr2 & _ & Hfs2 & Hfuel2 & Hc2 & _).
    cbv zeta in *.
    destruct (closing W count sample s1) as [[[]|e2|] s2]; simpl in *.
    + rewrite (handled_ok main s s2 Hmain). simpl. exists (d1 ++ d2), j.
      split; [apply new_events_app; by rewrite Hd2, Hd1, Hs0, <- !app_assoc |].
      split; [done |].
      split; [by rewrite announced_app, (announced_inner d2 Hin2), app_nil_r |].
      split.
      { intros iv l' Hl. destruct (Hhead iv l' Hl) as [d' ->]. by eexists. }
      split; [intros _; split; [by apply Hok |]; split; [done | exact Hfs2] |].
      split; [| by left].
      rewrite created_app, Hcr2, app_nil_r, Hfs2. set_solver.
    + rewrite (handled_raise main s e2 s2 Hmain)
        by (intros code ->; by destruct (Hc2 code)).
      simpl. exists (d1 ++ d2 ++ [EPrint (MsgError e2)]), j.
      split; [apply new_events_app; simpl;
              by rewrite Hd2, Hd1, Hs0, <- !app_assoc |].
      split; [done |]. split.
      { by rewrite !announced_app, (announced_inner d2 Hin2), !app_nil_r. }
      split.
      { intros iv l' Hl. destruct (Hhead iv l' Hl) as [d' ->]. by eexists. }
      split; [done |]. split; [| intros _; by right].
      rewrite !created_app, Hcr2, !app_nil_r, Hfs2. set_solver.
    + done.
  - assert ((exists code, e = SystemExit code) \/
            (forall code, e <> SystemExit code)) as [[code ->] | Hne].
    { destruct e; try (by right). left. by eexists. }
    + rewrite (handled_exit main s code s1 Hmain). simpl.
      rewrite (Hc1 code eq_refl). exists d1, j.
      split; [apply new_events_app; by rewrite Hd1, Hs0, <- !app_assoc |].
      split; [done |]. split; [done |]. split; [done |].
      split; [done |]. split; [set_solver | intros _; by right].
    + rewrite (handled_raise main s e s1 Hmain)
        by exact Hne.
      simpl. exists (d1 ++ [EPrint (MsgError e)]), j.
      split; [apply new_events_app; simpl;
              by rewrite Hd1, Hs0, <- !app_assoc |].
      split; [done |]. split.
      { by rewrite !announced_app, !app_nil_r. }
      split.
      { intros iv l' Hl. destruct (Hhead iv l' Hl) as [d' ->]. by eexists. }
      split; [done |]. split; [| intros _; by right].
      rewrite !created_app, !app_nil_r. set_solver.
  - rewrite (handled_fuel main s s1 Hmain). simpl. exists d1, j.
    split; [apply new_events_app; by rewrite Hd1, Hs0, <- !app_assoc |].
    split; [done |]. split; [done |]. split; [done |].
    split; [done |]. split; [| done]. set_solver.
Qed.
(** ** The checks come before the work *)

Lemma head_script_run W fuel a target s :
  head_accepted W a target ->
  makedirs_passes W (head_work_dir W a) s ->
  let vf := find_video_files W (VideoReplacer.ans_video_folder a) in
  let f := fun iv : nat * string =>
    VideoReplacer.process_video W fuel (VideoReplacer.ans_main_video a)
      target (detect_encoder W) (head_work_dir W a) (head_folder_name W a)
      vf (fst iv) (snd iv) in
  let s0 := logged s [EMakedirs (head_work_dir W a)] in
  let r := VideoReplacer.script W fuel a s in
  exists d j,
    new_events s (snd r) = EMakedirs (head_work_dir W a) :: d /\
    j <= length vf /\
    announced d = take j (batch_of vf) /\
    (forall v vf', vf = v :: vf' ->
       exists d', d = EPrint (MsgProcessing 1 (length vf) v) :: d') /\
    (fst r = Ok 0%Z ->
     j = length vf /\ fst (for_each (enumerate vf) f s0) = Ok tt /\
     fs (snd r) = fs (snd (for_each (enumerate vf) f s0))) /\
    fs (snd r) ⊆ fs s ∪ list_to_set (created d) /\
    (fst r <> OutOfFuel -> fst r = Ok 0%Z \/ fst r = Ok 1%Z).
Proof.
  intros Hacc Hmk vf f s0 r.
  destruct (accepted_script_run W (VideoReplacer.main W fuel a) (length vf) f
              (enumerate vf) (length vf)
              (VideoReplacer.output_path (head_work_dir W a)
                 (head_folder_name W a) 1) s s0
              [EMakedirs (head_work_dir W a)])
    as (d & j & Hd & Hj & Hann & Hhead & Hok & Hfs & Hst).
  - apply head_loop_body.
  - apply (head_main_accepted W fuel a target s Hacc Hmk).
  - done.
  - done.
  - rewrite enumerate_length in Hj, Hok.
    exists d, j. split; [exact Hd |].
    split; [exact Hj |]. split; [exact Hann |].
    split; [| split; [exact Hok | split; [exact Hfs | exact Hst]]].
    intros v vf' Hvf. apply (Hhead (0, v) (zip (seq 1 (length vf')) vf')).
    by rewrite Hvf.
Qed.

Lemma tail_script_run W a upsell_duration start_time s :
  tail_accepted W a upsell_duration start_time ->
  makedirs_passes W (tail_work_dir W a) s ->
  let vf := find_video_files W (UpsellReplacer.ans_video_folder a) in
  let f := fun iv : nat * string =>
    UpsellReplacer.process_video W (UpsellReplacer.ans_upsell_video a)
      upsell_duration start_time (detect_encoder W) (tail_work_dir W a)
      (tail_folder_name W a) vf (fst iv) (snd iv) in
  let s0 := logged s [EProbe (UpsellReplacer.ans_upsell_video a);
                      EMakedirs (tail_work_dir W a)] in
  let r := UpsellReplacer.script W a s in
  exists d j,
    new_events s (snd r)
    = EProbe (UpsellReplacer.ans_upsell_video a)
      :: EMakedirs (tail_work_dir W a) :: d /\
    j <= length vf /\
    announced d = take j (batch_of vf) /\
    (forall v vf', vf = v :: vf' ->
       exists d', d = EPrint (MsgProcessing 1 (length vf) v) :: d') /\
    (fst r = Ok 0%Z ->
     j = length vf /\ fst (for_each (enumerate vf) f s0) = Ok tt /\
     fs (snd r) = fs (snd (for_each (enumerate vf) f s0))) /\
    fs (snd r) ⊆ fs s ∪ list_to_set (created d) /\
    (fst r <> OutOfFuel -> fst r = Ok 0%Z \/ fst r = Ok 1%Z).
Proof.
  intros Hacc Hmk vf f s0 r.
  destruct (accepted_script_run W (UpsellReplacer.main W a) (length vf) f
              (enumerate vf) (length vf)
              (UpsellReplacer.output_path (tail_work_dir W a)
                 (tail_folder_name W a) 1) s s0
              [EProbe (UpsellReplacer.ans_upsell_video a);
               EMakedirs (tail_work_dir W a)])
    as (d & j & Hd & Hj & Hann & Hhead & Hok & Hfs & Hst).
  - apply tail_loop_body.
  - apply (tail_main_accepted W a upsell_duration start_time s Hacc Hmk).
  - done.
  - done.
  - rewrite enumerate_length in Hj, Hok.
    exists d, j. split; [exact Hd |].
    split; [exact Hj |]. split; [exact Hann |].
    split; [| split; [exact Hok | split; [exact Hfs | exact Hst]]].
    intros v vf' Hvf. apply (Hhead (0, v) (zip (seq 1 (length vf')) vf')).
    by rewrite Hvf.
Qed.

(** X11. [video_replacer.py] checks its answers before it works.  When
    [ffmpeg] is missing, the main video is not a file, the folder is not a
    directory or the target length is not a number, the script prints one
    line and exits with status 1: it has probed nothing, made no directory,
    run no transform and touched no file.  When these checks pass, the next
    thing it does is to make the work directory: if that fails, it prints
    the error and exits with status 1; if the folder then holds no video, it
    prints one line and exits with status 1, the directory being the only
    thing it has made; otherwise its next act is to announce the first video
    of the folder. *)
Theorem head_checks_before_work (W : World) (fuel : nat)
    (a : VideoReplacer.Answers) (s : St) :
  let r := VideoReplacer.script W fuel a s in
  let vf := find_video_files W (VideoReplacer.ans_video_folder a) in
  let wd := head_work_dir W a in
  (head_answers_fail W a ->
   fst r = Ok 1%Z /\ fs (snd r) = fs s /\
   exists m, new_events s (snd r) = [EPrint m] /\ inner (EPrint m)) /\
  (forall target,
     head_answers_pass W a target ->
     (~ makedirs_passes W wd s ->
      fst r = Ok 1%Z /\ fs (snd r) = fs s /\
      exists e,
        new_events s (snd r) = [EPrint (MsgError e)] /\
        (e = FileNotFoundError wd \/ e = OSError)) /\
     (makedirs_passes W wd s ->
      (vf = [] ->
       fst r = Ok 1%Z /\ fs (snd r) = fs s /\
       new_events s (snd r)
       = [EMakedirs wd; EPrint (MsgFatal "No video files found")]) /\
      (forall v,
         vf !! 0 = Some v ->
         exists rest,
           new_events s (snd r)
           = EMakedirs wd :: EPrint (MsgProcessing 1 (length vf) v) :: rest))).
Proof.
  intros r vf wd. split.
  - intros Hrej. subst r.
    destruct (head_answers_failed W fuel a s Hrej) as (m & -> & Hm).
    split; [done |]. split; [done |]. exists m. split; [| done].
    by apply new_events_app.
  - intros target Hpass. split.
    + intros Hmk. subst r.
      destruct (head_makedirs_failed W fuel a target s Hpass Hmk)
        as (e & -> & He).
      split; [done |]. split; [done |]. exists e. split; [| exact He].
      by apply new_events_app.
    + intros Hmk. split.
      * intros Hnone. subst r.
        rewrite (head_no_video W fuel a target s Hpass Hmk Hnone).
        split; [done |]. split; [done |]. by apply new_events_app.
      * intros v Hv.
        assert (head_accepted W a target) as Hacc.
        { destruct Hpass as (? & ? & ? & ?). repeat split; try done.
          fold vf. intros Hnil. by rewrite Hnil in Hv. }
        destruct (head_script_run W fuel a target s Hacc Hmk)
          as (d & j & Hd & _ & _ & Hhead & _).
        cbv zeta in *. fold vf in Hhead.
        destruct vf as [|v' vf'] eqn:Hvf; [done |].
        injection Hv as ->.
        destruct (Hhead v vf' eq_refl) as [d' Hd'].
        exists d'. subst r. by rewrite Hd, Hd'.
Qed.

(** X12. [upsell_video_replacer.py] checks its answers before it works;
    the one thing it does between the checks is to probe the upsell clip,
    once its path is known to be a file.  When a check fails, or that probe,
    the script prints one line and exits with status 1, having made no
    directory, run no transform and touched no file.  When the checks pass,
    the next thing it does is to make the output directory: if that fails,
    it prints the error and exits with status 1; if the folder then holds no
    video, it prints one line and exits with status 1, the directory being
    the only thing it has made; otherwise its next act is to announce the
    first video of the folder. *)
Theorem tail_checks_before_work (W : World) (a : UpsellReplacer.Answers)
    (s : St) :
  let r := UpsellReplacer.script W a s in
  let vf := find_video_files W (UpsellReplacer.ans_video_folder a) in
  let probe := EProbe (UpsellReplacer.ans_upsell_video a) in
  let wd := tail_work_dir W a in
  (tail_answers_fail W a ->
   fst r = Ok 1%Z /\ fs (snd r) = fs s /\
   exists m,
     inner (EPrint m) /\
     (new_events s (snd r) = [EPrint m] \/
      new_events s (snd r) = [probe; EPrint m])) /\
  (forall upsell_duration start_time,
     tail_answers_pass W a upsell_duration start_time ->
     (~ makedirs_passes W wd s ->
      fst r = Ok 1%Z /\ fs (snd r) = fs s /\
      exists e,
        new_events s (snd r) = [probe; EPrint (MsgError e)] /\
        (e = FileNotFoundError wd \/ e = OSError)) /\
     (makedirs_passes W wd s ->
      (vf = [] ->
       fst r = Ok 1%Z /\ fs (snd r) = fs s /\
       new_events s (snd r)
       = [probe; EMakedirs wd; EPrint (MsgFatal "No video files found")]) /\
      (forall v,
         vf !! 0 = Some v ->
         exists rest,
           new_events s (snd r)
           = probe :: EMakedirs wd
             :: EPrint (MsgProcessing 1 (length vf) v) :: rest))).
Proof.
  intros r vf probe wd. split.
  - intros Hrej. subst r.
    destruct (tail_answers_failed W a s Hrej) as (m & d & -> & Hm & Hd).
    split; [done |]. split; [done |]. exists m. split; [done |].
    cbn [fst snd]. rewrite (new_events_app s (logged s d) d eq_refl).
    destruct Hd as [-> | ->]; [by left | by right].
  - intros upsell_duration start_time Hpass. split.
    + intros Hmk. subst r.
      destruct (tail_makedirs_failed W a upsell_duration start_time s Hpass
                  Hmk) as (e & -> & He).
      split; [done |]. split; [done |]. exists e. split; [| exact He].
      by apply new_events_app.
    + intros Hmk. split.
      * intros Hnone. subst r.
        rewrite (tail_no_video W a upsell_duration start_time s Hpass Hmk
                   Hnone).
        split; [done |]. split; [done |]. by apply new_events_app.
      * intros v Hv.
        assert (tail_accepted W a upsell_duration start_time) as Hacc.
        { destruct Hpass as (? & ? & ? & ? & ?). repeat split; try done.
          fold vf. intros Hnil. by rewrite Hnil in Hv. }
        destruct (tail_script_run W a upsell_duration start_time s Hacc Hmk)
          as (d & j & Hd & _ & _ & Hhead & _).
        cbv zeta in *. fold vf in Hhead.
        destruct vf as [|v' vf'] eqn:Hvf; [done |].
        injection Hv as ->.
        destruct (Hhead v vf' eq_refl) as [d' Hd'].
        exists d'. subst r probe. by rewrite Hd, Hd'.
Qed.

(** ** The order of the batch *)

(** X13. Both scripts go through the folder in the order of the scan and
    number the files from 1: the files a run has announced, with their
    numbers and the size of the batch, are the first [j] entries of the
    folder content numbered from 1, for some [j]; a run that exits with
    status 0 has announced every file of a folder that is not empty. *)
Theorem batch_in_scan_order (W : World) (fuel : nat)
    (a : VideoReplacer.Answers) (b : UpsellReplacer.Answers) (s : St) :
  (let r := VideoReplacer.script W fuel a s in
   let vf := find_video_files W (VideoReplacer.ans_video_folder a) in
   exists j,
     j <= length vf /\
     announced (new_events s (snd r)) = take j (batch_of vf) /\
     (fst r = Ok 0%Z -> j = length vf /\ vf <> [])) /\
  (let r := UpsellReplacer.script W b s in
   let vf := find_video_files W (UpsellReplacer.ans_video_folder b) in
   exists j,
     j <= length vf /\
     announced (new_events s (snd r)) = take j (batch_of vf) /\
     (fst r = Ok 0%Z -> j = length vf /\ vf <> [])).
Proof.
  split.
  - intros r vf. destruct (head_checks W a s) as [Hrej | (target & Hacc & Hmk)].
    + subst r.
      destruct (head_script_rejected W fuel a s Hrej) as (m & d & -> & Hm & Hd).
      exists 0. split; [lia |]. split; [| done]. cbn [fst snd].
      rewrite (new_events_app s (logged s d) d eq_refl).
      rewrite take_0. apply announced_inner.
      destruct Hd as [-> | ->]; by repeat constructor.
    + destruct (head_script_run W fuel a target s Hacc Hmk)
        as (d & j & Hd & Hj & Hann & _ & Hok & _).
      cbv zeta in *. exists j. split; [exact Hj |]. subst r.
      rewrite Hd. split; [exact Hann |].
      intros Hzero. destruct (Hok Hzero) as (-> & _). split; [done |].
      by destruct Hacc as (_ & _ & _ & _ & Hne).
  - intros r vf.
    destruct (tail_checks W b s) as [Hrej | (ud & st & Hacc & Hmk)].
    + subst r.
      destruct (tail_script_rejected W b s Hrej) as (m & d & -> & Hm & Hd).
      exists 0. split; [lia |]. split; [| done]. cbn [fst snd].
      rewrite (new_events_app s (logged s d) d eq_refl).
      rewrite take_0. apply announced_inner.
      destruct Hd as [-> | [-> | ->]]; by repeat constructor.
    + destruct (tail_script_run W b ud st s Hacc Hmk)
        as (d & j & Hd & Hj & Hann & _ & Hok & _).
      cbv zeta in *. exists j. split; [exact Hj |]. subst r.
      rewrite Hd. split; [exact Hann |].
      intros Hzero. destruct (Hok Hzero) as (-> & _). split; [done |].
      by destruct Hacc as (_ & _ & _ & _ & _ & Hne).
Qed.

(** ** A batch that went through *)

(** The rule of a [for] loop that went through: an invariant of the items
    done so far. *)
Lemma for_each_ok_inv {A} (f : A -> M unit) (I : list A -> St -> Prop) l s :
  I [] s ->
  (forall done x s0,
     I done s0 -> fst (f x s0) = Ok tt -> I (done ++ [x]) (snd (f x s0))) ->
  fst (for_each l f s) = Ok tt ->
  I l (snd (for_each l f s)).
Proof.
  intros Hstart Hstep.
  cut (forall done s0, I done s0 -> fst (for_each l f s0) = Ok tt ->
                       I (done ++ l) (snd (for_each l f s0))).
  { intros H. apply (H [] s Hstart). }
  induction l as [|x l IH]; intros done s0 HI Hok.
  - by rewrite app_nil_r.
  - cbn [for_each] in *. unfold bind in *.
    pose proof (Hstep done x s0 HI) as Hx.
    destruct (f x s0) as [[[]|e|] s1]; simpl in *; try done.
    replace (done ++ x :: l) with ((done ++ [x]) ++ l)
      by (by rewrite <- app_assoc).
    apply IH; [by apply Hx | done].
Qed.

Lemma enumerate_lookup {A} (l : list A) i v :
  l !! i = Some v -> (i, v) ∈ enumerate l.
Proof.
  intros Hv. unfold enumerate. apply list_elem_of_lookup. exists i.
  rewrite lookup_zip_with. rewrite lookup_seq_lt by (by eapply lookup_lt_Some).
  simpl. by rewrite Hv.
Qed.

Lemma enumerate_elem {A} (l : list A) i v :
  (i, v) ∈ enumerate l -> l !! i = Some v.
Proof.
  unfold enumerate. intros Hin.
  apply list_elem_of_lookup in Hin as [k Hk].
  rewrite lookup_zip_with in Hk.
  destruct (seq 0 (length l) !! k) as [j|] eqn:Hj; [| done].
  destruct (l !! k) as [w|] eqn:Hw; [| done].
  simpl in Hk. injection Hk as <- <-.
  apply lookup_seq in Hj as [-> _]. done.
Qed.

(** What a loop body leaves behind. *)
Lemma loop_body_run total (f : nat * string -> M unit) iv s :
  loop_body total f ->
  exists d,
    new_events s (snd (f iv s))
    = EPrint (MsgProcessing (fst iv + 1) total (snd iv)) :: d /\
    Forall inner d /\
    fs (snd (f iv s)) ⊆ fs s ∪ list_to_set (created d).
Proof.
  intros Hf. destruct (Hf iv) as (body & Hbody & Hrun). rewrite Hrun.
  unfold bind, print, emit. simpl.
  match goal with
  | |- context [body ?s0] =>
      destruct (Hbody s0) as (d & Hd & Hin & Hfs & _);
      destruct (body s0) as [r s1]
  end.
  simpl in *. exists d. split; [| by split].
  apply new_events_app. by rewrite Hd, <- app_assoc.
Qed.

Section Batches.

Context (W : World).

Lemma head_pass_fs fuel main_video target enc wd folder vf i v s :
  let r := VideoReplacer.process_video W fuel main_video target enc wd folder
             vf i v s in
  fst r = Ok tt ->
  fs (snd r) ⊆ fs s ∪ {[VideoReplacer.output_path wd folder (i + 1)]}.
Proof.
  intros r Hok. subst r.
  destruct (loop_body_run (length vf)
              (fun iv => VideoReplacer.process_video W fuel main_video target
                           enc wd folder vf (fst iv) (snd iv)) (i, v) s)
    as (d & Hd & _ & Hfs); [apply head_loop_body |].
  simpl in Hd, Hfs.
  destruct (head_replace_files W fuel main_video target enc wd folder vf i v
              s) as [Hclean _].
  specialize (Hclean Hok). rewrite Hd in Hclean.
  intros p Hp.
  destruct (decide (p = VideoReplacer.output_path wd folder (i + 1)))
    as [-> | Hne]; [set_solver |].
  pose proof (Hfs p Hp) as Hp'.
  apply elem_of_union in Hp' as [Hp' | Hp']; [set_solver |].
  exfalso. apply (Hclean p); [| done | done].
  rewrite created_print. by apply elem_of_list_to_set in Hp'.
Qed.

Lemma tail_pass_fs upsell_video upsell_duration start_time enc wd folder vf
    i v s :
  let r := UpsellReplacer.process_video W upsell_video upsell_duration
             start_time enc wd folder vf i v s in
  fst r = Ok tt ->
  fs (snd r) ⊆ fs s ∪ {[UpsellReplacer.output_path wd folder (i + 1)]}.
Proof.
  intros r Hok. subst r.
  destruct (loop_body_run (length vf)
              (fun iv => UpsellReplacer.process_video W upsell_video
                           upsell_duration start_time enc wd folder vf
                           (fst iv) (snd iv)) (i, v) s)
    as (d & Hd & _ & Hfs); [apply tail_loop_body |].
  simpl in Hd, Hfs.
  destruct (tail_replace_files W upsell_video upsell_duration start_time enc
              wd folder vf i v s) as [Hclean _].
  destruct (Hclean Hok) as [Hgone _]. rewrite Hd in Hgone.
  intros p Hp.
  destruct (decide (p = UpsellReplacer.output_path wd folder (i + 1)))
    as [-> | Hne]; [set_solver |].
  pose proof (Hfs p Hp) as Hp'.
  apply elem_of_union in Hp' as [Hp' | Hp']; [set_solver |].
  exfalso. apply (Hgone p); [| done | done].
  rewrite created_print. by apply elem_of_list_to_set in Hp'.
Qed.

End Batches.

(** X14. A run of [video_replacer.py] that exits with status 0 leaves no
    file behind that was not there before, apart from the outputs of the
    batch: every intermediate of every file is gone. *)
Theorem head_batch_leaves_outputs_only (W : World) (fuel : nat)
    (a : VideoReplacer.Answers) (s : St) :
  let r := VideoReplacer.script W fuel a s in
  let vf := find_video_files W (VideoReplacer.ans_video_folder a) in
  fst r = Ok 0%Z ->
  forall p,
    p ∈ fs (snd r) ->
    p ∈ fs s \/
    exists n,
      1 <= n <= length vf /\
      p = VideoReplacer.output_path (head_work_dir W a) (head_folder_name W a)
            n.
Proof.
  intros r vf Hzero p Hp. subst r.
  destruct (head_checks W a s) as [Hrej | (target & Hacc & Hmk)].
  { destruct (head_script_rejected W fuel a s Hrej) as (m & d0 & Hrun & _).
    by rewrite Hrun in Hzero. }
  destruct (head_script_run W fuel a target s Hacc Hmk)
    as (d & j & _ & _ & _ & _ & Hok & _).
  cbv zeta in Hok. destruct (Hok Hzero) as (_ & Hloop & Hfs).
  rewrite Hfs in Hp. clear Hfs Hok.
  set (wd := head_work_dir W a) in *. set (folder := head_folder_name W a) in *.
  fold vf in Hloop, Hp.
  match type of Hloop with
  | fst (for_each ?l ?f ?s0) = _ =>
      pose proof (for_each_ok_inv f
        (fun (done : list (nat * string)) s' =>
           p ∈ fs s' ->
           p ∈ fs s \/
           exists n, (exists v : string, (n - 1, v) ∈ done) /\ 1 <= n /\
                     p = VideoReplacer.output_path wd folder n) l s0) as Hinv
  end.
  cbv beta in Hinv.
  destruct (Hinv (fun H => or_introl H)) with (3 := Hp)
    as [Hold | (n & [v Hin] & Hn & ->)]; [| exact Hloop | by left |].
  - intros done [i v] s0 HI Hpass Hq. simpl in Hpass, Hq.
    apply (head_pass_fs W fuel _ target _ wd folder vf i v s0 Hpass) in Hq.
    apply elem_of_union in Hq as [Hq | Hq].
    + destruct (HI Hq) as [Hold | (n & [w Hin] & Hn & ->)]; [by left |].
      right. exists n. split; [exists w; set_solver | done].
    + apply elem_of_singleton in Hq as ->. right. exists (i + 1).
      split; [| split; [lia | done]].
      exists v. replace (i + 1 - 1) with i by lia. set_solver.
  - right. exists n. split; [| done].
    apply enumerate_elem, lookup_lt_Some in Hin. lia.
Qed.

Lemma head_batch_leaves_outputs_only_witness :
  let r := VideoReplacer.script scenario_world 5 scenario_answers
             empty_state in
  fst r = Ok 0%Z /\
  size (fs (snd r)) = 4 /\
  forall p,
    p ∈ fs (snd r) ->
    p ∈ fs empty_state \/
    exists n,
      1 <= n <= 4 /\
      p = VideoReplacer.output_path (head_work_dir scenario_world
                                       scenario_answers)
            (head_folder_name scenario_world scenario_answers) n.
Proof.
  intros r.
  assert (fst r = Ok 0%Z) as Hzero by (vm_compute; reflexivity).
  split; [exact Hzero |]. split; [vm_compute; reflexivity |].
  exact (head_batch_leaves_outputs_only scenario_world 5 scenario_answers
           empty_state Hzero).
Defined.

(** X15. A run of [upsell_video_replacer.py] that exits with status 0
    leaves no file behind that was not there before, apart from the
    outputs of the batch. *)
Theorem tail_batch_leaves_outputs_only (W : World)
    (a : UpsellReplacer.Answers) (s : St) :
  let r := UpsellReplacer.script W a s in
  let vf := find_video_files W (UpsellReplacer.ans_video_folder a) in
  fst r = Ok 0%Z ->
  forall p,
    p ∈ fs (snd r) ->
    p ∈ fs s \/
    exists n,
      1 <= n <= length vf /\
      p = UpsellReplacer.output_path (tail_work_dir W a)
            (tail_folder_name W a) n.
Proof.
  intros r vf Hzero p Hp. subst r.
  destruct (tail_checks W a s) as [Hrej | (ud & st & Hacc & Hmk)].
  { destruct (tail_script_rejected W a s Hrej) as (m & d & Hrun & _).
    by rewrite Hrun in Hzero. }
  destruct (tail_script_run W a ud st s Hacc Hmk)
    as (d & j & _ & _ & _ & _ & Hok & _).
  cbv zeta in Hok. destruct (Hok Hzero) as (_ & Hloop & Hfs).
  rewrite Hfs in Hp. clear Hfs Hok.
  set (wd := tail_work_dir W a) in *. set (folder := tail_folder_name W a) in *.
  fold vf in Hloop, Hp.
  match type of Hloop with
  | fst (for_each ?l ?f ?s0) = _ =>
      pose proof (for_each_ok_inv f
        (fun (done : list (nat * string)) s' =>
           p ∈ fs s' ->
           p ∈ fs s \/
           exists n, (exists v : string, (n - 1, v) ∈ done) /\ 1 <= n /\
                     p = UpsellReplacer.output_path wd folder n) l s0) as Hinv
  end.
  cbv beta in Hinv.
  destruct (Hinv (fun H => or_introl H)) with (3 := Hp)
    as [Hold | (n & [v Hin] & Hn & ->)]; [| exact Hloop | by left |].
  - intros done [i v] s0 HI Hpass Hq. simpl in Hpass, Hq.
    apply (tail_pass_fs W _ ud st _ wd folder vf i v s0 Hpass) in Hq.
    apply elem_of_union in Hq as [Hq | Hq].
    + destruct (HI Hq) as [Hold | (n & [w Hin] & Hn & ->)]; [by left |].
      right. exists n. split; [exists w; set_solver | done].
    + apply elem_of_singleton in Hq as ->. right. exists (i + 1).
      split; [| split; [lia | done]].
      exists v. replace (i + 1 - 1) with i by lia. set_solver.
  - right. exists n. split; [| done].
    apply enumerate_elem, lookup_lt_Some in Hin. lia.
Qed.

Lemma tail_batch_leaves_outputs_only_witness :
  let r := UpsellReplacer.script scenario_world upsell_answers empty_state in
  fst r = Ok 0%Z /\
  size (fs (snd r)) = 4 /\
  forall p,
    p ∈ fs (snd r) ->
    p ∈ fs empty_state \/
    exists n,
      1 <= n <= 4 /\
      p = UpsellReplacer.output_path (tail_work_dir scenario_world
                                        upsell_answers)
            (tail_folder_name scenario_world upsell_answers) n.
Proof.
  intros r.
  assert (fst r = Ok 0%Z) as Hzero by (vm_compute; reflexivity).
  split; [exact Hzero |]. split; [vm_compute; reflexivity |].
  exact (tail_batch_leaves_outputs_only scenario_world upsell_answers
           empty_state Hzero).
Defined.

(** ** With a cooperating engine the scripts go through *)

Lemma returns_ret {A} (a : A) : returns (ret a).
Proof. intros s. by exists a. Qed.

Lemma returns_bind {A B} (m : M A) (k : A -> M B) :
  returns m -> (forall a, returns (k a)) -> returns (bind m k).
Proof.
  intros Hm Hk s. unfold bind. destruct (Hm s) as [a Ha].
  destruct (m s) as [r s1]. simpl in Ha. subst r. apply Hk.
Qed.

Lemma returns_emit e : returns (emit e).
Proof. intros s. by exists tt. Qed.

Lemma returns_write p lines : returns (write_lines p lines).
Proof. intros s. by exists tt. Qed.

Lemma returns_remove_if_exists p : returns (remove_if_exists p).
Proof. intros s. rewrite remove_if_exists_run. by exists tt. Qed.

Lemma returns_for_each {A} (l : list A) (f : A -> M unit) :
  (forall x, x ∈ l -> returns (f x)) -> returns (for_each l f).
Proof.
  induction l as [|x l IH]; intros Hf; simpl.
  - apply returns_ret.
  - apply returns_bind; [apply Hf; set_solver |].
    intros _. apply IH. intros y Hy. apply Hf. set_solver.
Qed.

Lemma returns_unit (m : M unit) s : returns m -> fst (m s) = Ok tt.
Proof. intros Hm. destruct (Hm s) as [[] H]. exact H. Qed.

Section Cooperation.

Context (W : World) (Hcoop : cooperates W).

Lemma returns_run c : returns (run_ffmpeg W c).
Proof.
  intros s. unfold run_ffmpeg. destruct Hcoop as [Hok _].
  rewrite Hok. by exists tt.
Qed.

Lemma returns_probe p : returns (get_video_duration W p).
Proof.
  intros s. rewrite get_video_duration_run. destruct Hcoop as [_ Hprobe].
  destruct (Hprobe p) as [q ->]. by exists q.
Qed.

Lemma returns_closing count sample : returns (closing W count sample).
Proof.
  intros s. exists tt.
  destruct (closing_run W count sample s) as (d & _ & _ & _ & _ & _ & _ & _ & H).
  apply H. by destruct Hcoop.
Qed.

Lemma returns_prv target enc wd n vf ci fuel v :
  vf <> [] -> length vf < fuel ->
  returns (VideoReplacer.process_replacement_video W target enc wd n vf ci
             fuel v).
Proof.
  intros Hne Hfuel s. destruct Hcoop as [Hok Hprobe].
  destruct (Hprobe v) as [duration Hv].
  destruct (Qlt_le_dec duration target) as [Hshort | Hlong].
  - destruct (prv_short_coop W target enc wd n vf ci fuel v duration s)
      as (_ & _ & _ & Hret & _); try done.
    eexists. exact Hret.
  - rewrite (prv_long_run W target enc wd n vf ci fuel v duration s Hv Hlong).
    rewrite Hok. by eexists.
Qed.

Lemma returns_head_pass fuel main_video target enc wd folder vf i v :
  vf <> [] -> length vf < fuel ->
  returns (VideoReplacer.process_video W fuel main_video target enc wd folder
             vf i v).
Proof.
  intros Hne Hfuel. unfold VideoReplacer.process_video.
  apply returns_bind; [apply returns_emit | intros _].
  apply returns_bind; [apply returns_run | intros _].
  apply returns_bind; [by apply returns_prv | intros pf].
  apply returns_bind; [apply returns_run | intros _].
  apply returns_bind; [apply returns_write | intros _].
  apply returns_bind; [apply returns_run | intros _].
  apply returns_bind; [apply returns_run | intros _].
  apply returns_bind.
  { apply returns_for_each. intros p _. apply returns_remove_if_exists. }
  intros _. apply returns_bind; [apply returns_probe | intros q].
  apply returns_emit.
Qed.

Lemma returns_prepare_upsell upsell_video upsell_duration enc wd n needed :
  (0 < upsell_duration)%Q ->
  returns (UpsellReplacer.prepare_upsell W upsell_video upsell_duration enc
             wd n needed).
Proof.
  intros Hpos s. destruct Hcoop as [Hok _].
  destruct (Qlt_le_dec upsell_duration needed) as [Hshort | Hfit].
  - rewrite prepare_loop_run by lra. rewrite !Hok. by eexists.
  - rewrite prepare_plain_run by done. rewrite Hok. by eexists.
Qed.

Lemma returns_tail_pass upsell_video upsell_duration start_time enc wd folder
    vf i v :
  (0 < upsell_duration)%Q ->
  returns (UpsellReplacer.process_video W upsell_video upsell_duration
             start_time enc wd folder vf i v).
Proof.
  intros Hpos. unfold UpsellReplacer.process_video.
  apply returns_bind; [apply returns_emit | intros _].
  apply returns_bind; [apply returns_probe | intros q].
  apply returns_bind; [apply returns_run | intros _].
  apply returns_bind; [apply returns_run | intros _].
  apply returns_bind; [by apply returns_prepare_upsell | intros _].
  apply returns_bind; [apply returns_write | intros _].
  apply returns_bind; [apply returns_run | intros _].
  apply returns_bind; [apply returns_run | intros _].
  apply returns_bind.
  { apply returns_for_each. intros p _. apply returns_remove_if_exists. }
  intros _. apply returns_bind; [apply returns_probe | intros q'].
  apply returns_emit.
Qed.

End Cooperation.

Lemma handled_returns (main : M unit) s :
  fst (main s) = Ok tt -> fst (handled main s) = Ok 0%Z.
Proof.
  unfold handled. by destruct (main s) as [[[]|e|] s1].
Qed.

Lemma take_all {A} (l : list A) j : j = length l -> take j l = l.
Proof. intros ->. apply firstn_all. Qed.

Lemma batch_of_length l : length (batch_of l) = length l.
Proof. unfold batch_of. by rewrite length_map, enumerate_length. Qed.

(** ** What exit status 0 means *)

Lemma accepted_zero_trace W (main : M unit) total f l count sample s s0 :
  loop_body total f ->
  main s = (for_each l f ;; closing W count sample) s0 ->
  fst (handled main s) = Ok 0%Z ->
  fst (for_each l f s0) = Ok tt /\
  exists d,
    trace (snd (handled main s)) = trace (snd (for_each l f s0)) ++ d.
Proof.
  intros Hf Hmain Hzero.
  destruct (batch_run total f l s0 Hf) as (d1 & j & _ & _ & _ & _ & _ & _ & Hc1).
  unfold bind in Hmain.
  destruct (for_each l f s0) as [[[]|e|] s1] eqn:Hloop; simpl in *.
  - split; [done |].
    destruct (closing_run W count sample s1)
      as (d2 & Hd2 & _ & _ & _ & _ & _ & Hc2 & _).
    cbv zeta in *.
    destruct (closing W count sample s1) as [[[]|e2|] s2]; simpl in *.
    + rewrite (handled_ok main s s2 Hmain). by exists d2.
    + rewrite (handled_raise main s e2 s2 Hmain) in Hzero; [done |].
      intros code ->. by destruct (Hc2 code).
    + by rewrite (handled_fuel main s s2 Hmain) in Hzero.
  - exfalso.
    assert ((exists code, e = SystemExit code) \/
            (forall code, e <> SystemExit code)) as [[code ->] | Hne].
    { destruct e; try (by right). left. by eexists. }
    + rewrite (handled_exit main s code s1 Hmain) in Hzero.
      rewrite (Hc1 code eq_refl) in Hzero. done.
    + by rewrite (handled_raise main s e s1 Hmain Hne) in Hzero.
  - by rewrite (handled_fuel main s s1 Hmain) in Hzero.
Qed.

(** In a loop that went through, the events of every item are there. *)
Lemma for_each_ok_parts {A} (f : A -> M unit) (P : A -> list Event -> Prop)
    l s :
  (forall x s0, exists d, trace (snd (f x s0)) = trace s0 ++ d /\
                          (fst (f x s0) = Ok tt -> P x d)) ->
  fst (for_each l f s) = Ok tt ->
  exists d,
    trace (snd (for_each l f s)) = trace s ++ d /\
    forall x, x ∈ l -> exists dx, P x dx /\ forall e, e ∈ dx -> e ∈ d.
Proof.
  intros Hf Hok.
  apply (for_each_ok_inv f
    (fun done s' => exists d, trace s' = trace s ++ d /\
       forall x, x ∈ done ->
                 exists dx, P x dx /\ forall e, e ∈ dx -> e ∈ d)
    l s); [| | exact Hok].
  - exists []. rewrite app_nil_r. split; [done |].
    intros x Hx. by apply elem_of_nil in Hx.
  - intros done x s0 (d & Hd & Hall) Hx.
    destruct (Hf x s0) as (d' & Hd' & Hev).
    exists (d ++ d'). split; [by rewrite Hd', Hd, app_assoc |].
    intros y Hy. apply elem_of_app in Hy as [Hy | Hy].
    + destruct (Hall y Hy) as (dx & HP & Hsub). exists dx.
      split; [done |]. intros e He. apply elem_of_app. left. by apply Hsub.
    + apply list_elem_of_singleton in Hy as ->. exists d'.
      split; [by apply Hev |]. intros e He. apply elem_of_app. by right.
Qed.

Section ExitZero.

Context (W : World).

(** The last transform of a pass of [video_replacer.py] and its report. *)
Lemma head_pass_events fuel main_video target enc wd folder vf i v s :
  let r := VideoReplacer.process_video W fuel main_video target enc wd folder
             vf i v s in
  let mux := Mux (VideoReplacer.combined_path wd (i + 1))
               (VideoReplacer.main_audio_path wd i)
               (VideoReplacer.output_path wd folder (i + 1)) in
  exists d,
    trace (snd r) = trace s ++ d /\
    (fst r = Ok tt ->
     ffmpeg_ok W mux = true /\ ERun mux ∈ d /\
     exists q, EPrint (MsgCreated (i + 1) q) ∈ d).
Proof.
  intros r mux. subst r.
  destruct (orderly_process_video W fuel main_video target enc wd folder vf i
              v s) as (d & Hd & Hcase).
  exists d. split; [exact Hd |]. intros Hok.
  destruct (head_replace_once W fuel main_video target enc wd folder vf i v s
              Hok) as (dprv & q & Hev).
  rewrite (new_events_app _ _ _ Hd) in Hev.
  assert (ERun mux ∈ d) as Hmux by (rewrite Hev; set_solver).
  split; [| split; [exact Hmux |]].
  - destruct Hcase as [[Hall _] | (d' & c & _ & _ & _ & Hbad)];
      [| congruence].
    rewrite Forall_forall in Hall. by apply (Hall _ Hmux).
  - exists q. rewrite Hev. set_solver.
Qed.

Lemma tail_pass_events upsell_video upsell_duration start_time enc wd folder
    vf i v s :
  let r := UpsellReplacer.process_video W upsell_video upsell_duration
             start_time enc wd folder vf i v s in
  let mux := Mux (UpsellReplacer.combined_path wd (i + 1))
               (UpsellReplacer.original_audio_path wd i)
               (UpsellReplacer.output_path wd folder (i + 1)) in
  exists d,
    trace (snd r) = trace s ++ d /\
    (fst r = Ok tt ->
     ffmpeg_ok W mux = true /\ ERun mux ∈ d /\
     exists q, EPrint (MsgCreated (i + 1) q) ∈ d).
Proof.
  intros r mux. subst r.
  destruct (orderly_tail_process_video W upsell_video upsell_duration
              start_time enc wd folder vf i v s) as (d & Hd & Hcase).
  exists d. split; [exact Hd |]. intros Hok.
  destruct (tail_replace_files W upsell_video upsell_duration start_time enc
              wd folder vf i v s) as [Hrun _].
  destruct (Hrun Hok) as (_ & dprep & q & Hev).
  rewrite (new_events_app _ _ _ Hd) in Hev.
  assert (ERun mux ∈ d) as Hmux by (rewrite Hev; set_solver).
  split; [| split; [exact Hmux |]].
  - destruct Hcase as [[Hall _] | (d' & c & _ & _ & _ & Hbad)];
      [| congruence].
    rewrite Forall_forall in Hall. by apply (Hall _ Hmux).
  - exists q. rewrite Hev. set_solver.
Qed.

End ExitZero.

(** X18. Exit status 0 of [video_replacer.py] means that every video of
    the folder got its output: for each of them the transform that adds
    the audio track to the output file was run and succeeded, and the
    output was reported. *)
Theorem head_exit_zero_all_created (W : World) (fuel : nat)
    (a : VideoReplacer.Answers) (s : St) (i : nat) (v : string) :
  let r := VideoReplacer.script W fuel a s in
  let wd := head_work_dir W a in
  let mux := Mux (VideoReplacer.combined_path wd (i + 1))
               (VideoReplacer.main_audio_path wd i)
               (VideoReplacer.output_path wd (head_folder_name W a) (i + 1)) in
  fst r = Ok 0%Z ->
  find_video_files W (VideoReplacer.ans_video_folder a) !! i = Some v ->
  ffmpeg_ok W mux = true /\
  ERun mux ∈ new_events s (snd r) /\
  exists q, EPrint (MsgCreated (i + 1) q) ∈ new_events s (snd r).
Proof.
  intros r wd mux Hzero Hv. subst r.
  destruct (head_checks W a s) as [Hrej | (target & Hacc & Hmk)].
  { destruct (head_script_rejected W fuel a s Hrej) as (m & d0 & Hrun & _).
    by rewrite Hrun in Hzero. }
  set (vf := find_video_files W (VideoReplacer.ans_video_folder a)) in *.
  set (f := fun iv : nat * string =>
         VideoReplacer.process_video W fuel (VideoReplacer.ans_main_video a)
           target (detect_encoder W) wd (head_folder_name W a) vf
           (fst iv) (snd iv)).
  set (s0 := logged s [EMakedirs wd]).
  destruct (accepted_zero_trace W (VideoReplacer.main W fuel a) (length vf) f
              (enumerate vf) (length vf)
              (VideoReplacer.output_path wd (head_folder_name W a) 1) s s0)
    as (Hloop & d2 & Hd2);
    [apply head_loop_body | apply (head_main_accepted W fuel a target s Hacc Hmk)
     | exact Hzero |].
  destruct (for_each_ok_parts f
              (fun iv d =>
                 let m := Mux (VideoReplacer.combined_path wd (fst iv + 1))
                            (VideoReplacer.main_audio_path wd (fst iv))
                            (VideoReplacer.output_path wd
                               (head_folder_name W a) (fst iv + 1)) in
                 ffmpeg_ok W m = true /\ ERun m ∈ d /\
                 exists q, EPrint (MsgCreated (fst iv + 1) q) ∈ d)
              (enumerate vf) s0) as (d1 & Hd1 & Hall); [| exact Hloop |].
  { intros [k w] s1.
    apply (head_pass_events W fuel (VideoReplacer.ans_main_video a) target
             (detect_encoder W) wd (head_folder_name W a) vf k w s1). }
  destruct (Hall (i, v) (enumerate_lookup vf i v Hv))
    as (dx & (Hm & Hin & q & Hq) & Hsub).
  simpl in Hm, Hin, Hq.
  assert (new_events s (snd (VideoReplacer.script W fuel a s))
          = [EMakedirs wd] ++ d1 ++ d2)
    as Hev.
  { apply new_events_app.
    change (VideoReplacer.script W fuel a s)
      with (handled (VideoReplacer.main W fuel a) s).
    rewrite Hd2, Hd1. subst s0. simpl. by rewrite <- !app_assoc. }
  rewrite Hev. split; [exact Hm |]. split.
  - apply elem_of_app. right. apply elem_of_app. left. by apply Hsub.
  - exists q. apply elem_of_app. right. apply elem_of_app. left.
    by apply Hsub.
Qed.

Lemma head_exit_zero_all_created_witness :
  let r := VideoReplacer.script scenario_world 5 scenario_answers
             empty_state in
  fst r = Ok 0%Z /\
  ERun (Mux "/videos/videos/temp_combined_3.mp4"
          "/videos/videos/main_audio_2.aac" "/videos/videos/videos_3.mp4")
  ∈ new_events empty_state (snd r).
Proof.
  intros r.
  assert (fst r = Ok 0%Z) as Hzero by (vm_compute; reflexivity).
  split; [exact Hzero |].
  exact (proj1 (proj2 (head_exit_zero_all_created scenario_world 5
                         scenario_answers empty_state 2 "b.mp4" Hzero
                         eq_refl))).
Defined.

(** X19. Exit status 0 of [upsell_video_replacer.py] means that every
    video of the folder got its output: for each of them the transform
    that adds the audio track to the output file was run and succeeded,
    and the output was reported. *)
Theorem tail_exit_zero_all_created (W : World) (a : UpsellReplacer.Answers)
    (s : St) (i : nat) (v : string) :
  let r := UpsellReplacer.script W a s in
  let wd := tail_work_dir W a in
  let mux := Mux (UpsellReplacer.combined_path wd (i + 1))
               (UpsellReplacer.original_audio_path wd i)
               (UpsellReplacer.output_path wd (tail_folder_name W a) (i + 1))
  in
  fst r = Ok 0%Z ->
  find_video_files W (UpsellReplacer.ans_video_folder a) !! i = Some v ->
  ffmpeg_ok W mux = true /\
  ERun mux ∈ new_events s (snd r) /\
  exists q, EPrint (MsgCreated (i + 1) q) ∈ new_events s (snd r).
Proof.
  intros r wd mux Hzero Hv. subst r.
  destruct (tail_checks W a s) as [Hrej | (ud & st & Hacc & Hmk)].
  { destruct (tail_script_rejected W a s Hrej) as (m & d & Hrun & _).
    by rewrite Hrun in Hzero. }
  set (vf := find_video_files W (UpsellReplacer.ans_video_folder a)) in *.
  set (f := fun iv : nat * string =>
         UpsellReplacer.process_video W (UpsellReplacer.ans_upsell_video a)
           ud st (detect_encoder W) wd (tail_folder_name W a) vf
           (fst iv) (snd iv)).
  set (s0 := logged s [EProbe (UpsellReplacer.ans_upsell_video a);
                       EMakedirs wd]).
  destruct (accepted_zero_trace W (UpsellReplacer.main W a) (length vf) f
              (enumerate vf) (length vf)
              (UpsellReplacer.output_path wd (tail_folder_name W a) 1) s s0)
    as (Hloop & d2 & Hd2);
    [apply tail_loop_body | apply (tail_main_accepted W a ud st s Hacc Hmk)
     | exact Hzero |].
  destruct (for_each_ok_parts f
              (fun iv d =>
                 let m := Mux (UpsellReplacer.combined_path wd (fst iv + 1))
                            (UpsellReplacer.original_audio_path wd (fst iv))
                            (UpsellReplacer.output_path wd
                               (tail_folder_name W a) (fst iv + 1)) in
                 ffmpeg_ok W m = true /\ ERun m ∈ d /\
                 exists q, EPrint (MsgCreated (fst iv + 1) q) ∈ d)
              (enumerate vf) s0) as (d1 & Hd1 & Hall); [| exact Hloop |].
  { intros [k w] s1.
    apply (tail_pass_events W (UpsellReplacer.ans_upsell_video a) ud st
             (detect_encoder W) wd (tail_folder_name W a) vf k w s1). }
  destruct (Hall (i, v) (enumerate_lookup vf i v Hv))
    as (dx & (Hm & Hin & q & Hq) & Hsub).
  simpl in Hm, Hin, Hq.
  assert (new_events s (snd (UpsellReplacer.script W a s))
          = [EProbe (UpsellReplacer.ans_upsell_video a); EMakedirs wd]
            ++ d1 ++ d2)
    as Hev.
  { apply new_events_app.
    change (UpsellReplacer.script W a s)
      with (handled (UpsellReplacer.main W a) s).
    rewrite Hd2, Hd1. subst s0. simpl. by rewrite <- !app_assoc. }
  rewrite Hev. split; [exact Hm |]. split.
  - apply elem_of_app. right. apply elem_of_app. left. by apply Hsub.
  - exists q. apply elem_of_app. right. apply elem_of_app. left.
    by apply Hsub.
Qed.

Lemma tail_exit_zero_all_created_witness :
  let r := UpsellReplacer.script scenario_world upsell_answers empty_state in
  fst r = Ok 0%Z /\
  ERun (Mux "/clips/videos_Upsell/temp_combined_3.mp4"
          "/clips/videos_Upsell/original_audio_2.aac"
          "/clips/videos_Upsell/videos_3.mp4")
  ∈ new_events empty_state (snd r).
Proof.
  intros r.
  assert (fst r = Ok 0%Z) as Hzero by (vm_compute; reflexivity).
  split; [exact Hzero |].
  exact (proj1 (proj2 (tail_exit_zero_all_created scenario_world
                         upsell_answers empty_state 2 "b.mp4" Hzero
                         eq_refl))).
Defined.

(** ** The output and the cleanup *)

(** Two names that end differently are different. *)
Lemma append_tail_eq (a b w w' : string) :
  String.length w = String.length w' -> a +:+ w = b +:+ w' -> w = w'.
Proof.
  intros Hlen. revert b. induction a as [|x a IH]; intros [|y b] H.
  - done.
  - apply (f_equal String.length) in H.
    change ("" +:+ w) with w in H. rewrite append_length in H.
    simpl in H. lia.
  - apply (f_equal String.length) in H.
    change ("" +:+ w') with w' in H. rewrite append_length in H.
    simpl in H. lia.
  - rewrite !append_cons in H. injection H as _ H. by apply (IH b).
Qed.

Lemma relative_name folder rest :
  startswith "/" folder = false ->
  startswith "/" (folder +:+ "_" +:+ rest) = false.
Proof. by destruct folder. Qed.

(** The output name of file [n] is the name [prefix_n.mp4] exactly when
    the folder is called [prefix]. *)
Lemma output_name_clash wd folder pre n :
  startswith "/" folder = false -> startswith "/" pre = false ->
  os_path_join wd (folder +:+ "_" +:+ str n +:+ ".mp4")
  = os_path_join wd (pre +:+ "_" +:+ str n +:+ ".mp4") <->
  folder = pre.
Proof.
  intros Hf Hp. split; [| by intros ->].
  intros H. apply os_path_join_inj in H; try by apply relative_name.
  by apply append_inv_tail in H.
Qed.

Lemma output_name_other wd folder (pre : string) n k ext :
  startswith "/" folder = false -> startswith "/" pre = false ->
  String.length ext = 4 -> ext <> ".mp4" ->
  os_path_join wd (folder +:+ "_" +:+ str n +:+ ".mp4")
  <> os_path_join wd (pre +:+ "_" +:+ str k +:+ ext).
Proof.
  intros Hf Hp Hlen Hext H.
  apply os_path_join_inj in H; try by apply relative_name.
  rewrite <- !append_assoc in H.
  apply append_tail_eq in H; [| by rewrite Hlen]. congruence.
Qed.

(** ** The outputs stay in place *)

(** A folder whose name does not start with [temp] gives output names
    that do not start with [temp] either. *)
Lemma temp_free_name folder rest :
  startswith "temp" folder = false ->
  startswith "temp" (folder +:+ "_" +:+ rest) = false.
Proof.
  destruct folder as [|a [|b [|c [|d f]]]];
    rewrite ?append_cons;
    change ("" +:+ "_" +:+ rest) with (String "_" rest);
    rewrite ?startswith_cons.
  - done.
  - intros _. by destruct (Ascii.eqb "t" a).
  - intros _. destruct (Ascii.eqb "t" a); [| done].
    by destruct (Ascii.eqb "e" b).
  - intros _. destruct (Ascii.eqb "t" a); [| done].
    destruct (Ascii.eqb "e" b); [| done].
    by destruct (Ascii.eqb "m" c).
  - destruct (Ascii.eqb "t" a); [| done].
    destruct (Ascii.eqb "e" b); [| done].
    destruct (Ascii.eqb "m" c); [| done].
    by destruct (Ascii.eqb "p" d).
Qed.

Lemma names_apart wd a b :
  startswith "/" a = false -> startswith "/" b = false ->
  startswith "temp" a = false -> startswith "temp" b = true ->
  os_path_join wd a <> os_path_join wd b.
Proof.
  intros Ha Hb Hta Htb H. apply os_path_join_inj in H; [| done | done].
  congruence.
Qed.

Ltac temp_apart :=
  apply names_apart;
  [by apply relative_name | reflexivity | by apply temp_free_name
  | reflexivity].

(** With such a folder name, no output of [video_replacer.py] has the
    path of an intermediate of any pass. *)
Lemma head_output_apart wd folder n :
  startswith "/" folder = false -> startswith "temp" folder = false ->
  (forall m, ~ composer_scratch wd m (VideoReplacer.output_path wd folder n))
  /\
  (forall m k,
     VideoReplacer.output_path wd folder n
     ∉ [VideoReplacer.processed_path wd m;
        VideoReplacer.main_segment_path wd m;
        VideoReplacer.list_path wd m;
        VideoReplacer.main_audio_path wd k;
        VideoReplacer.combined_path wd m]).
Proof.
  intros Hrel Htemp. split.
  - intros m [H | [H | [j H]]]; revert H; temp_apart.
  - intros m k Hin.
    rewrite !elem_of_cons, elem_of_nil in Hin.
    destruct Hin as [H | [H | [H | [H | [H | []]]]]]; revert H;
      try temp_apart.
    by apply (output_name_other wd folder "main_audio" n k ".aac").
Qed.

Lemma tail_output_apart wd folder n :
  startswith "/" folder = false -> startswith "temp" folder = false ->
  (forall m,
     UpsellReplacer.output_path wd folder n <> UpsellReplacer.loop_path wd m /\
     UpsellReplacer.output_path wd folder n
     <> UpsellReplacer.looped_path wd m) /\
  (forall k, UpsellReplacer.output_path wd folder n ∉ tail_cleanup_list wd k).
Proof.
  intros Hrel Htemp. split.
  - intros m. split; temp_apart.
  - intros k Hin. unfold tail_cleanup_list in Hin.
    rewrite !elem_of_cons, elem_of_nil in Hin.
    destruct Hin as [H | [H | [H | [H | [H | []]]]]]; revert H;
      try temp_apart.
    by apply (output_name_other wd folder "original_audio" n k ".aac").
Qed.

Section OutputSurvives.

Context (W : World).

Lemma head_pass_final fuel main_video target enc wd folder vf i v s :
  let r := VideoReplacer.process_video W fuel main_video target enc wd folder
             vf i v s in
  fst r = Ok tt ->
  exists s3,
    r = after_composer W main_video target enc wd folder i
          (VideoReplacer.processed_path wd (i + 1)) s3.
Proof.
  intros r Hok. subst r.
  rewrite (process_video_split W fuel main_video target enc wd folder vf i v
             s) in *.
  unfold bind in *. unfold print, emit in *.
  destruct (run_ffmpeg W _ _) as [[[]|e|] s2]; try done.
  destruct (VideoReplacer.process_replacement_video W target enc wd (i + 1)
              vf i fuel v s2) as [[pf|e|] s3] eqn:Hprv; try done.
  pose proof (prv_created W target enc wd (i + 1) vf i fuel v s2 pf) as Hpf.
  rewrite Hprv in Hpf. destruct (Hpf eq_refl) as [-> _].
  by exists s3.
Qed.

Lemma tail_pass_final upsell_video upsell_duration start_time enc wd folder
    vf i v s :
  let r := UpsellReplacer.process_video W upsell_video upsell_duration
             start_time enc wd folder vf i v s in
  fst r = Ok tt ->
  exists s4, r = after_upsell W enc wd folder i s4.
Proof.
  intros r Hok. subst r.
  rewrite (tail_process_video_split W upsell_video upsell_duration start_time
             enc wd folder vf i v s) in *.
  unfold bind in *. unfold print, emit in *.
  destruct (get_video_duration W v _) as [[q|e|] s1]; try done.
  destruct (run_ffmpeg W _ s1) as [[[]|e|] s2]; try done.
  destruct (run_ffmpeg W _ s2) as [[[]|e|] s3]; try done.
  destruct (UpsellReplacer.prepare_upsell W upsell_video upsell_duration enc
              wd (i + 1) _ s3) as [[[]|e|] s4]; try done.
  by exists s4.
Qed.

(** The output of a pass that went through is in place when it has the
    path of none of the files the cleanup removes. *)
Lemma head_pass_output fuel main_video target enc wd folder vf i v s :
  let r := VideoReplacer.process_video W fuel main_video target enc wd folder
             vf i v s in
  fst r = Ok tt ->
  VideoReplacer.output_path wd folder (i + 1)
  ∉ [VideoReplacer.processed_path wd (i + 1);
     VideoReplacer.main_segment_path wd (i + 1);
     VideoReplacer.list_path wd (i + 1);
     VideoReplacer.main_audio_path wd i;
     VideoReplacer.combined_path wd (i + 1)] ->
  VideoReplacer.output_path wd folder (i + 1) ∈ fs (snd r).
Proof.
  intros r Hok Hnot.
  destruct (head_pass_final fuel main_video target enc wd folder vf i v s Hok)
    as [s3 Hr].
  fold r in Hr. rewrite Hr in *.
  destruct (after_composer_spec W main_video target enc wd folder i
              (VideoReplacer.processed_path wd (i + 1)) s3)
    as (d & _ & _ & _ & Hfs & _).
  cbv zeta in Hfs. rewrite (Hfs Hok).
  apply elem_of_difference. split; [set_solver |].
  by rewrite elem_of_list_to_set.
Qed.

Lemma tail_pass_output upsell_video upsell_duration start_time enc wd folder
    vf i v s :
  let r := UpsellReplacer.process_video W upsell_video upsell_duration
             start_time enc wd folder vf i v s in
  fst r = Ok tt ->
  UpsellReplacer.output_path wd folder (i + 1) ∉ tail_cleanup_list wd i ->
  UpsellReplacer.output_path wd folder (i + 1) ∈ fs (snd r).
Proof.
  intros r Hok Hnot.
  destruct (tail_pass_final upsell_video upsell_duration start_time enc wd
              folder vf i v s Hok) as [s4 Hr].
  fold r in Hr. rewrite Hr in *.
  destruct (after_upsell_spec W enc wd folder i s4)
    as (d & _ & _ & _ & Hfs & _).
  cbv zeta in Hfs. rewrite (Hfs Hok).
  apply elem_of_difference. split; [set_solver |].
  by rewrite elem_of_list_to_set.
Qed.

(** A pass that went through has kept every file that is neither scratch
    of its composer nor on its cleanup list. *)
Lemma head_pass_keeps fuel main_video target enc wd folder vf i v s p :
  let r := VideoReplacer.process_video W fuel main_video target enc wd folder
             vf i v s in
  fst r = Ok tt ->
  p ∈ fs s ->
  ~ composer_scratch wd (i + 1) p ->
  p ∉ [VideoReplacer.processed_path wd (i + 1);
       VideoReplacer.main_segment_path wd (i + 1);
       VideoReplacer.list_path wd (i + 1);
       VideoReplacer.main_audio_path wd i;
       VideoReplacer.combined_path wd (i + 1)] ->
  p ∈ fs (snd r).
Proof.
  intros r Hok Hp Hscr Hnot. subst r.
  rewrite (process_video_split W fuel main_video target enc wd folder vf i v
             s) in *.
  unfold bind in *. unfold print, emit in *.
  destruct (run_ffmpeg W _ _) as [[[]|e|] s2] eqn:Hrun; try done.
  assert (p ∈ fs s2) as Hp2.
  { unfold run_ffmpeg in Hrun. destruct (ffmpeg_ok W _); [| done].
    injection Hrun as <-. simpl. set_solver. }
  pose proof (prv_keeps W target enc wd (i + 1) vf i fuel v s2 p Hp2 Hscr)
    as Hp3.
  destruct (VideoReplacer.process_replacement_video W target enc wd (i + 1)
              vf i fuel v s2) as [[pf|e|] s3] eqn:Hprv; try done.
  pose proof (prv_created W target enc wd (i + 1) vf i fuel v s2 pf) as Hpf.
  rewrite Hprv in Hpf. destruct (Hpf eq_refl) as [-> _].
  destruct (after_composer_spec W main_video target enc wd folder i
              (VideoReplacer.processed_path wd (i + 1)) s3)
    as (d & _ & _ & _ & Hfs & _).
  cbv zeta in Hfs. rewrite (Hfs Hok).
  apply elem_of_difference. split; [simpl in Hp3; set_solver |].
  by rewrite elem_of_list_to_set.
Qed.

Lemma tail_pass_keeps upsell_video upsell_duration start_time enc wd folder
    vf i v s p :
  let r := UpsellReplacer.process_video W upsell_video upsell_duration
             start_time enc wd folder vf i v s in
  fst r = Ok tt ->
  p ∈ fs s ->
  p <> UpsellReplacer.loop_path wd (i + 1) ->
  p <> UpsellReplacer.looped_path wd (i + 1) ->
  p ∉ tail_cleanup_list wd i ->
  p ∈ fs (snd r).
Proof.
  intros r Hok Hp Hl1 Hl2 Hnot. subst r.
  rewrite (tail_process_video_split W upsell_video upsell_duration start_time
             enc wd folder vf i v s) in *.
  unfold bind in *. unfold print, emit in *.
  destruct (get_video_duration W v _) as [[q|e|] s1] eqn:Hprobe; try done.
  assert (p ∈ fs s1) as Hp1.
  { rewrite get_video_duration_run in Hprobe.
    injection Hprobe as _ <-. exact Hp. }
  destruct (run_ffmpeg W _ s1) as [[[]|e|] s2] eqn:Hrun1; try done.
  assert (p ∈ fs s2) as Hp2.
  { unfold run_ffmpeg in Hrun1. destruct (ffmpeg_ok W _); [| done].
    injection Hrun1 as <-. simpl. set_solver. }
  destruct (run_ffmpeg W _ s2) as [[[]|e|] s3] eqn:Hrun2; try done.
  assert (p ∈ fs s3) as Hp3.
  { unfold run_ffmpeg in Hrun2. destruct (ffmpeg_ok W _); [| done].
    injection Hrun2 as <-. simpl. set_solver. }
  destruct (prepare_upsell_spec W upsell_video upsell_duration enc wd (i + 1)
              (q - start_time)%Q s3) as (d1 & _ & _ & Hkeep & _).
  specialize (Hkeep p Hp3 Hl1 Hl2).
  destruct (UpsellReplacer.prepare_upsell W upsell_video upsell_duration enc
              wd (i + 1) _ s3) as [[[]|e|] s4]; try done.
  destruct (after_upsell_spec W enc wd folder i s4)
    as (d & _ & _ & _ & Hfs & _).
  cbv zeta in Hfs. rewrite (Hfs Hok).
  apply elem_of_difference. split; [simpl in Hkeep; set_solver |].
  by rewrite elem_of_list_to_set.
Qed.

(** A batch that went through, in a folder whose name does not start with
    [temp], has left every output in place. *)
Lemma head_outputs_in_place fuel main_video target enc wd folder vf s0 :
  startswith "/" folder = false -> startswith "temp" folder = false ->
  let f := fun iv : nat * string =>
    VideoReplacer.process_video W fuel main_video target enc wd folder vf
      (fst iv) (snd iv) in
  fst (for_each (enumerate vf) f s0) = Ok tt ->
  forall n,
    1 <= n <= length vf ->
    VideoReplacer.output_path wd folder n
    ∈ fs (snd (for_each (enumerate vf) f s0)).
Proof.
  intros Hrel Htemp f Hloop n Hn.
  pose proof (for_each_ok_inv f
    (fun (done : list (nat * string)) s' =>
       forall i v, (i, v) ∈ done ->
                   VideoReplacer.output_path wd folder (i + 1) ∈ fs s')
    (enumerate vf) s0) as Hinv.
  cbv beta in Hinv.
  destruct (lookup_lt_is_Some_2 vf (n - 1)) as [v Hv]; [lia |].
  replace n with (n - 1 + 1) by lia.
  apply (Hinv) with (v := v); [set_solver | | exact Hloop
                               | by apply enumerate_lookup].
  intros done [i w] s1 HI Hpass j u Hin. simpl in Hpass.
  destruct (head_output_apart wd folder (j + 1) Hrel Htemp) as [Hscr Hcl].
  apply elem_of_app in Hin as [Hin | Hin].
  - apply head_pass_keeps; [exact Hpass | by apply (HI j u) | apply Hscr
                            | apply Hcl].
  - apply list_elem_of_singleton in Hin. injection Hin as -> ->.
    apply head_pass_output; [exact Hpass | apply Hcl].
Qed.

Lemma tail_outputs_in_place upsell_video upsell_duration start_time enc wd
    folder vf s0 :
  startswith "/" folder = false -> startswith "temp" folder = false ->
  let f := fun iv : nat * string =>
    UpsellReplacer.process_video W upsell_video upsell_duration start_time
      enc wd folder vf (fst iv) (snd iv) in
  fst (for_each (enumerate vf) f s0) = Ok tt ->
  forall n,
    1 <= n <= length vf ->
    UpsellReplacer.output_path wd folder n
    ∈ fs (snd (for_each (enumerate vf) f s0)).
Proof.
  intros Hrel Htemp f Hloop n Hn.
  pose proof (for_each_ok_inv f
    (fun (done : list (nat * string)) s' =>
       forall i v, (i, v) ∈ done ->
                   UpsellReplacer.output_path wd folder (i + 1) ∈ fs s')
    (enumerate vf) s0) as Hinv.
  cbv beta in Hinv.
  destruct (lookup_lt_is_Some_2 vf (n - 1)) as [v Hv]; [lia |].
  replace n with (n - 1 + 1) by lia.
  apply (Hinv) with (v := v); [set_solver | | exact Hloop
                               | by apply enumerate_lookup].
  intros done [i w] s1 HI Hpass j u Hin. simpl in Hpass.
  destruct (tail_output_apart wd folder (j + 1) Hrel Htemp) as [Hloops Hcl].
  apply elem_of_app in Hin as [Hin | Hin].
  - apply tail_pass_keeps;
      [exact Hpass | by apply (HI j u) | apply Hloops | apply Hloops
       | apply Hcl].
  - apply list_elem_of_singleton in Hin. injection Hin as -> ->.
    apply tail_pass_output; [exact Hpass | apply Hcl].
Qed.

(** X20. A pass of [video_replacer.py] that went through has left its
    output file in place, provided the folder of the main video is not
    called [temp_processed], [temp_main_segment] or [temp_combined] (names
    that give the output the path of a file on the cleanup list): the
    cleanup of the pass does not touch the output. *)
Theorem head_cleanup_spares_output (fuel : nat) (main_video : string)
    (target_length : Q) (enc : Profile) (work_dir folder_name : string)
    (video_files : list string) (i : nat) (video_file : string) (s : St) :
  let r := VideoReplacer.process_video W fuel main_video target_length enc
             work_dir folder_name video_files i video_file s in
  startswith "/" folder_name = false ->
  folder_name <> "temp_processed" ->
  folder_name <> "temp_main_segment" ->
  folder_name <> "temp_combined" ->
  fst r = Ok tt ->
  VideoReplacer.output_path work_dir folder_name (i + 1) ∈ fs (snd r).
Proof.
  intros r Hrel Ha Hb Hc Hok. apply head_pass_output; [exact Hok |].
  set (output := VideoReplacer.output_path work_dir folder_name (i + 1)).
  assert (output = VideoReplacer.processed_path work_dir (i + 1)
          <-> folder_name = "temp_processed") as H1
    by (by apply (output_name_clash work_dir folder_name "temp_processed")).
  assert (output = VideoReplacer.main_segment_path work_dir (i + 1)
          <-> folder_name = "temp_main_segment") as H2
    by (by apply (output_name_clash work_dir folder_name
                    "temp_main_segment")).
  assert (output = VideoReplacer.combined_path work_dir (i + 1)
          <-> folder_name = "temp_combined") as H3
    by (by apply (output_name_clash work_dir folder_name "temp_combined")).
  assert (output <> VideoReplacer.list_path work_dir (i + 1)) as H4
    by (by apply (output_name_other work_dir folder_name "temp_list"
                    (i + 1) (i + 1) ".txt")).
  assert (output <> VideoReplacer.main_audio_path work_dir i) as H5
    by (by apply (output_name_other work_dir folder_name "main_audio"
                    (i + 1) i ".aac")).
  rewrite !elem_of_cons, elem_of_nil. tauto.
Qed.

(** X21. A pass of [upsell_video_replacer.py] that went through has left
    its output file in place, provided the folder of the videos is not
    called [temp_original_beginning], [temp_upsell] or [temp_combined]:
    the cleanup of the pass does not touch the output. *)
Theorem tail_cleanup_spares_output (upsell_video : string)
    (upsell_duration start_time : Q) (enc : Profile)
    (work_dir folder_name : string) (video_files : list string) (i : nat)
    (video_file : string) (s : St) :
  let r := UpsellReplacer.process_video W upsell_video upsell_duration
             start_time enc work_dir folder_name video_files i video_file s in
  startswith "/" folder_name = false ->
  folder_name <> "temp_original_beginning" ->
  folder_name <> "temp_upsell" ->
  folder_name <> "temp_combined" ->
  fst r = Ok tt ->
  UpsellReplacer.output_path work_dir folder_name (i + 1) ∈ fs (snd r).
Proof.
  intros r Hrel Ha Hb Hc Hok. apply tail_pass_output; [exact Hok |].
  set (output := UpsellReplacer.output_path work_dir folder_name (i + 1)).
  assert (output = UpsellReplacer.original_beginning_path work_dir (i + 1)
          <-> folder_name = "temp_original_beginning") as H1
    by (by apply (output_name_clash work_dir folder_name
                    "temp_original_beginning")).
  assert (output = UpsellReplacer.upsell_path work_dir (i + 1)
          <-> folder_name = "temp_upsell") as H2
    by (by apply (output_name_clash work_dir folder_name "temp_upsell")).
  assert (output = UpsellReplacer.combined_path work_dir (i + 1)
          <-> folder_name = "temp_combined") as H3
    by (by apply (output_name_clash work_dir folder_name "temp_combined")).
  assert (output <> UpsellReplacer.concat_path work_dir (i + 1)) as H4
    by (by apply (output_name_other work_dir folder_name "temp_concat"
                    (i + 1) (i + 1) ".txt")).
  assert (output <> UpsellReplacer.original_audio_path work_dir i) as H5
    by (by apply (output_name_other work_dir folder_name "original_audio"
                    (i + 1) i ".aac")).
  unfold tail_cleanup_list. rewrite !elem_of_cons, elem_of_nil. tauto.
Qed.

End OutputSurvives.

Lemma head_cleanup_spares_output_witness :
  let r := VideoReplacer.process_video scenario_world 5 "/videos/main.mp4" 25
             software_profile "/videos/videos" "videos" scenario_files 0
             "anchor.mp4" empty_state in
  fst r = Ok tt /\
  VideoReplacer.output_path "/videos/videos" "videos" 1 ∈ fs (snd r).
Proof.
  intros r.
  assert (fst r = Ok tt) as Hok by (vm_compute; reflexivity).
  split; [exact Hok |].
  exact (head_cleanup_spares_output scenario_world 5 "/videos/main.mp4" 25
           software_profile "/videos/videos" "videos" scenario_files 0
           "anchor.mp4" empty_state eq_refl
           ltac:(discriminate) ltac:(discriminate) ltac:(discriminate) Hok).
Defined.

Lemma tail_cleanup_spares_output_witness :
  let r := UpsellReplacer.process_video scenario_world "/videos/upsell.mp4"
             5 4 software_profile "/clips/videos_Upsell" "videos"
             scenario_files 0 "anchor.mp4" empty_state in
  fst r = Ok tt /\
  UpsellReplacer.output_path "/clips/videos_Upsell" "videos" 1 ∈ fs (snd r).
Proof.
  intros r.
  assert (fst r = Ok tt) as Hok by (vm_compute; reflexivity).
  split; [exact Hok |].
  exact (tail_cleanup_spares_output scenario_world "/videos/upsell.mp4" 5 4
           software_profile "/clips/videos_Upsell" "videos" scenario_files 0
           "anchor.mp4" empty_state eq_refl
           ltac:(discriminate) ltac:(discriminate) ltac:(discriminate) Hok).
Defined.

(** ** A run that succeeds *)

(** X16. With an engine that cooperates, answers that pass the checks, a
    work directory that can be made, more fuel than the folder has videos
    and a folder name that does not start with [temp], [video_replacer.py]
    exits with status 0 after it has announced every video of the folder, in
    order, and every output file of the batch is in place at the end. *)
Theorem head_script_succeeds (W : World) (fuel : nat)
    (a : VideoReplacer.Answers) (target : Q) (s : St) :
  let r := VideoReplacer.script W fuel a s in
  let vf := find_video_files W (VideoReplacer.ans_video_folder a) in
  let wd := head_work_dir W a in
  let folder := head_folder_name W a in
  cooperates W ->
  head_accepted W a target ->
  makedirs_passes W wd s ->
  length vf < fuel ->
  startswith "/" folder = false ->
  startswith "temp" folder = false ->
  fst r = Ok 0%Z /\
  announced (new_events s (snd r)) = batch_of vf /\
  forall n,
    1 <= n <= length vf ->
    VideoReplacer.output_path wd folder n ∈ fs (snd r).
Proof.
  intros r vf wd folder Hcoop Hacc Hmk Hfuel Hrel Htemp.
  assert (fst r = Ok 0%Z) as Hzero.
  { subst r. apply (handled_returns (VideoReplacer.main W fuel a)).
    rewrite (head_main_accepted W fuel a target s Hacc Hmk).
    apply returns_unit. apply returns_bind.
    - apply returns_for_each. intros iv _.
      apply returns_head_pass; [done | | done].
      by destruct Hacc as (_ & _ & _ & _ & Hne).
    - intros _. by apply returns_closing. }
  split; [exact Hzero |].
  destruct (head_script_run W fuel a target s Hacc Hmk)
    as (d & j & Hd & Hj & Hann & _ & Hok & _).
  cbv zeta in *. fold r vf wd folder in Hd, Hok, Hann, Hj.
  destruct (Hok Hzero) as (Hjl & Hloop & Hfs).
  split.
  - rewrite Hd.
    change (announced (EMakedirs wd :: d)) with (announced d).
    rewrite Hann. apply take_all. by rewrite batch_of_length.
  - intros n Hn. rewrite Hfs.
    by apply (head_outputs_in_place W fuel (VideoReplacer.ans_main_video a)
                target (detect_encoder W) wd folder vf).
Qed.

Lemma head_script_succeeds_witness :
  let r := VideoReplacer.script scenario_world 5 scenario_answers
             empty_state in
  fst r = Ok 0%Z /\
  announced (new_events empty_state (snd r))
  = [(1, 4, "anchor.mp4"); (2, 4, "a.mp4"); (3, 4, "b.mp4");
     (4, 4, "c.mp4")] /\
  forall n,
    1 <= n <= 4 ->
    VideoReplacer.output_path "/videos/videos" "videos" n ∈ fs (snd r).
Proof.
  apply (head_script_succeeds scenario_world 5 scenario_answers 25
           empty_state).
  - split; [done |]. intros p. unfold clip_duration, scenario_world. simpl.
    unfold scenario_probe. repeat case_bool_decide;
      eexists; vm_compute; reflexivity.
  - repeat split; try reflexivity. discriminate.
  - repeat split; [discriminate | set_solver].
  - simpl. lia.
  - reflexivity.
  - reflexivity.
Defined.

(** X17. With an engine that cooperates, an upsell clip of positive
    duration, answers that pass the checks, an output directory that can be
    made and a folder name that does not start with [temp],
    [upsell_video_replacer.py] exits with status 0 after it has announced
    every video of the folder, in order, and every output file of the batch
    is in place at the end. *)
Theorem tail_script_succeeds (W : World) (a : UpsellReplacer.Answers)
    (upsell_duration start_time : Q) (s : St) :
  let r := UpsellReplacer.script W a s in
  let vf := find_video_files W (UpsellReplacer.ans_video_folder a) in
  let wd := tail_work_dir W a in
  let folder := tail_folder_name W a in
  cooperates W ->
  tail_accepted W a upsell_duration start_time ->
  makedirs_passes W wd s ->
  (0 < upsell_duration)%Q ->
  startswith "/" folder = false ->
  startswith "temp" folder = false ->
  fst r = Ok 0%Z /\
  announced (new_events s (snd r)) = batch_of vf /\
  forall n,
    1 <= n <= length vf ->
    UpsellReplacer.output_path wd folder n ∈ fs (snd r).
Proof.
  intros r vf wd folder Hcoop Hacc Hmk Hpos Hrel Htemp.
  assert (fst r = Ok 0%Z) as Hzero.
  { subst r. apply (handled_returns (UpsellReplacer.main W a)).
    rewrite (tail_main_accepted W a upsell_duration start_time s Hacc Hmk).
    apply returns_unit. apply returns_bind.
    - apply returns_for_each. intros iv _. by apply returns_tail_pass.
    - intros _. by apply returns_closing. }
  split; [exact Hzero |].
  destruct (tail_script_run W a upsell_duration start_time s Hacc Hmk)
    as (d & j & Hd & Hj & Hann & _ & Hok & _).
  cbv zeta in *. fold r vf wd folder in Hd, Hok, Hann, Hj.
  destruct (Hok Hzero) as (Hjl & Hloop & Hfs).
  split.
  - rewrite Hd.
    change (announced (EProbe (UpsellReplacer.ans_upsell_video a)
                         :: EMakedirs wd :: d))
      with (announced d).
    rewrite Hann. apply take_all. by rewrite batch_of_length.
  - intros n Hn. rewrite Hfs.
    by apply (tail_outputs_in_place W (UpsellReplacer.ans_upsell_video a)
                upsell_duration start_time (detect_encoder W) wd folder vf).
Qed.

Lemma tail_script_succeeds_witness :
  let r := UpsellReplacer.script scenario_world upsell_answers empty_state in
  fst r = Ok 0%Z /\
  announced (new_events empty_state (snd r))
  = [(1, 4, "anchor.mp4"); (2, 4, "a.mp4"); (3, 4, "b.mp4");
     (4, 4, "c.mp4")] /\
  forall n,
    1 <= n <= 4 ->
    UpsellReplacer.output_path "/clips/videos_Upsell" "videos" n
    ∈ fs (snd r).
Proof.
  apply (tail_script_succeeds scenario_world upsell_answers 5 4 empty_state).
  - split; [done |]. intros p. unfold clip_duration, scenario_world. simpl.
    unfold scenario_probe. repeat case_bool_decide;
      eexists; vm_compute; reflexivity.
  - repeat split; try reflexivity. discriminate.
  - repeat split; [discriminate | set_solver].
  - reflexivity.
  - reflexivity.
  - reflexivity.
Defined.

(** ** The folder scan *)

Lemma endswith_both p q s :
  endswith p s = true -> endswith q s = true ->
  endswith p q || endswith q p = true.
Proof.
  induction s as [|a s IH]; cbn [endswith].
  - rewrite !orb_false_r. intros ->%String.eqb_eq ->%String.eqb_eq. done.
  - intros [->%String.eqb_eq | Hp]%orb_true_iff Hq.
    + cbn [endswith] in Hq. apply orb_true_iff. right.
      cbn [endswith]. exact Hq.
    + apply orb_true_iff in Hq as [->%String.eqb_eq | Hq].
      * apply orb_true_iff. left. cbn [endswith]. by rewrite Hp, orb_true_r.
      * by apply IH.
Qed.

Lemma filter_disjoint_app {A} (P Q : A -> Prop)
    `{!forall x, Decision (P x)} `{!forall x, Decision (Q x)} (l : list A) :
  (forall x, P x -> Q x -> False) ->
  filter P l ++ filter Q l ≡ₚ filter (fun x => P x \/ Q x) l.
Proof.
  intros Hd. induction l as [|a l IH]; [done |].
  rewrite !filter_cons.
  destruct (decide (P a)) as [HP | HP], (decide (Q a)) as [HQ | HQ].
  - by destruct (Hd a).
  - rewrite decide_True by (by left). cbn. by rewrite IH.
  - rewrite decide_True by (by right).
    rewrite <- Permutation_middle. by rewrite IH.
  - rewrite decide_False by (by intros [|]). done.
Qed.

Lemma scan_patterns (f : string -> list string) extensions :
  extensions ≫= (fun ext => f ext ++ f (Scan.str_upper ext))
  = Scan.patterns extensions ≫= f.
Proof.
  unfold Scan.patterns. induction extensions as [|e es IH]; [done |].
  rewrite !bind_cons, IH, bind_app, !bind_cons.
  change ([] ≫= f) with (@nil string). by rewrite app_nil_r.
Qed.

Lemma apart_matches p ps name :
  forallb (fun q => negb (endswith p q || endswith q p)) ps = true ->
  endswith p name = true ->
  existsb (fun q => endswith q name) ps = true -> False.
Proof.
  intros Hall Hp (q & Hq & Hqn)%existsb_exists.
  rewrite forallb_forall in Hall. specialize (Hall q Hq).
  rewrite (endswith_both p q name Hp Hqn) in Hall. done.
Qed.

Lemma glob_patterns listdir folder ps :
  Scan.apart ps = true ->
  ps ≫= Scan.glob listdir folder
  ≡ₚ filter (fun name => existsb (fun q => endswith q name) ps = true)
       (listdir folder).
Proof.
  induction ps as [|p ps IH]; intros Hap.
  - cbn. induction (listdir folder) as [|a l IHl]; [done |].
    rewrite filter_cons. by rewrite decide_False.
  - cbn [Scan.apart] in Hap. apply andb_true_iff in Hap as [Hp Hap].
    cbn [mbind list_bind]. change (list_bind _ _ ?f ps) with (ps ≫= f).
    rewrite (IH Hap). unfold Scan.glob at 1.
    rewrite filter_disjoint_app by (intros x; by apply apart_matches).
    apply reflexive_eq, list_filter_iff. intros name. cbn [existsb].
    rewrite orb_true_iff. done.
Qed.

Lemma has_extension_patterns extensions name :
  existsb (fun q => endswith q name) (Scan.patterns extensions)
  = Scan.has_extension extensions name.
Proof.
  unfold Scan.patterns, Scan.has_extension.
  induction extensions as [|e es IH]; [done |].
  cbn. cbn in IH. rewrite IH. by rewrite orb_assoc.
Qed.

Lemma scan_found listdir folder extensions :
  Scan.apart (Scan.patterns extensions) = true ->
  Scan.sorted (extensions ≫= (fun ext =>
     Scan.glob listdir folder ext
     ++ Scan.glob listdir folder (Scan.str_upper ext)))
  ≡ₚ filter (fun name => Scan.has_extension extensions name = true)
       (listdir folder).
Proof.
  intros Hap. unfold Scan.sorted. rewrite merge_sort_Permutation.
  rewrite (scan_patterns (Scan.glob listdir folder)).
  rewrite (glob_patterns _ _ _ Hap).
  apply reflexive_eq, list_filter_iff. intros name.
  by rewrite has_extension_patterns.
Qed.

Lemma ascii_compare_N a b :
  Ascii.compare a b = N.compare (N_of_ascii a) (N_of_ascii b).
Proof. done. Qed.

Lemma string_compare_cons a s b t :
  String.compare (String a s) (String b t)
  = match Ascii.compare a b with
    | Eq => String.compare s t
    | o => o
    end.
Proof. done. Qed.

Lemma string_leb_trans a b c :
  String.leb a b = true -> String.leb b c = true -> String.leb a c = true.
Proof.
  unfold String.leb. revert b c.
  induction a as [|x a IH]; intros [|y b] [|z c]; try done.
  rewrite !string_compare_cons.
  specialize (IH b c).
  rewrite !ascii_compare_N.
  destruct (N.compare_spec (N_of_ascii x) (N_of_ascii y)) as [Hxy | Hxy | Hxy];
    [| | done].
  - rewrite Hxy. intros Hab.
    destruct (N.compare_spec (N_of_ascii y) (N_of_ascii z)); try done.
    by apply IH.
  - intros _.
    destruct (N.compare_spec (N_of_ascii y) (N_of_ascii z)) as [Hyz | Hyz | Hyz];
      [| | done]; intros _.
    + rewrite <- Hyz. by rewrite (proj2 (N.compare_lt_iff _ _) Hxy).
    + by rewrite (proj2 (N.compare_lt_iff _ _) (N.lt_trans _ _ _ Hxy Hyz)).
Qed.

#[global] Instance name_le_trans : Transitive Scan.name_le.
Proof. intros a b c. apply string_leb_trans. Qed.

#[global] Instance name_le_total : Total Scan.name_le.
Proof.
  intros a b. unfold Scan.name_le.
  destruct (String.leb_total a b) as [H | H]; rewrite H; auto.
Qed.

#[global] Instance name_le_antisym : AntiSymm eq Scan.name_le.
Proof. intros a b. apply String.leb_antisym. Qed.

Lemma scan_sorted l : StronglySorted Scan.name_le (Scan.sorted l).
Proof. apply (StronglySorted_merge_sort _). Qed.

Lemma scan_sorted_perm l k : l ≡ₚ k -> Scan.sorted l = Scan.sorted k.
Proof.
  intros Hp. apply (StronglySorted_unique Scan.name_le); try apply scan_sorted.
  unfold Scan.sorted. by rewrite !merge_sort_Permutation.
Qed.

Lemma bind_pointwise_perm {A B} (f g : A -> list B) (l : list A) :
  (forall x, f x ≡ₚ g x) -> l ≫= f ≡ₚ l ≫= g.
Proof.
  intros Hfg. induction l as [|a l IH]; [done |].
  by rewrite !bind_cons, IH, (Hfg a).
Qed.

Lemma glob_listing_perm listdir listdir' folder ps :
  listdir' folder ≡ₚ listdir folder ->
  ps ≫= Scan.glob listdir' folder ≡ₚ ps ≫= Scan.glob listdir folder.
Proof.
  intros Hp. apply bind_pointwise_perm. intros p. unfold Scan.glob.
  by rewrite Hp.
Qed.

Lemma scan_apart_video : Scan.apart (Scan.patterns Scan.video_extensions) = true.
Proof. by vm_compute. Qed.

Lemma scan_apart_audio : Scan.apart (Scan.patterns Scan.audio_extensions) = true.
Proof. by vm_compute. Qed.

(** X22. [find_video_files] returns exactly the entries of the folder whose
    name ends in one of the seven video extensions, written all in lower or
    all in upper case: each such entry as often as the folder lists it, never
    twice although two patterns are tried for every extension, and arranged
    in ascending order of the names. *)
Theorem scan_video_files_exact listdir folder :
  Scan.find_video_files listdir folder
    ≡ₚ filter (fun name =>
                 Scan.has_extension Scan.video_extensions name = true)
         (listdir folder)
  /\ StronglySorted Scan.name_le (Scan.find_video_files listdir folder).
Proof.
  split; [| apply scan_sorted].
  apply scan_found, scan_apart_video.
Qed.

(** X23. [find_audio_files] returns exactly the entries of the folder whose
    name ends in one of the seven audio extensions, written all in lower or
    all in upper case: each such entry as often as the folder lists it, never
    twice, and arranged in ascending order of the names. *)
Theorem scan_audio_files_exact listdir folder :
  Scan.find_audio_files listdir folder
    ≡ₚ filter (fun name =>
                 Scan.has_extension Scan.audio_extensions name = true)
         (listdir folder)
  /\ StronglySorted Scan.name_le (Scan.find_audio_files listdir folder).
Proof.
  split; [| apply scan_sorted].
  apply scan_found, scan_apart_audio.
Qed.

(** X24. The order in which the host lists a folder does not matter: two
    listings with the same entries give the same scan result, for the video
    scan and for the audio scan. *)
Theorem scan_ignores_listing_order listdir listdir' folder :
  listdir' folder ≡ₚ listdir folder ->
  Scan.find_video_files listdir' folder = Scan.find_video_files listdir folder
  /\ Scan.find_audio_files listdir' folder
     = Scan.find_audio_files listdir folder.
Proof.
  intros Hp. split; apply scan_sorted_perm.
  - rewrite !(scan_patterns (Scan.glob _ folder)).
    by apply glob_listing_perm.
  - rewrite !(scan_patterns (Scan.glob _ folder)).
    by apply glob_listing_perm.
Qed.

Lemma scan_ignores_listing_order_witness :
  Scan.find_video_files (fun _ => ["a.MP4"; "b.mp4"; "c.mov"; "d.Mp4"]) "/clips"
  = Scan.find_video_files (fun _ => ["b.mp4"; "a.MP4"; "c.mov"; "d.Mp4"]) "/clips"
  /\ Scan.find_audio_files (fun _ => ["a.MP4"; "b.mp4"; "c.mov"; "d.Mp4"]) "/clips"
     = Scan.find_audio_files (fun _ => ["b.mp4"; "a.MP4"; "c.mov"; "d.Mp4"]) "/clips".
Proof.
  apply (scan_ignores_listing_order
           (fun _ => ["b.mp4"; "a.MP4"; "c.mov"; "d.Mp4"])
           (fun _ => ["a.MP4"; "b.mp4"; "c.mov"; "d.Mp4"]) "/clips").
  apply perm_swap.
Defined.
